(** * LyricMaker: SRT transcript to timed text events

    A shallow embedding of [src/LyricMaker.jsx]: the timecode conversion
    [parseTime], the transcript parser [parseSRT] and the body of the
    [btnGenerate.onClick] handler, together with the properties of them
    that the specification states.

    JavaScript strings are modelled as [string] whose characters are code
    units below 256; JavaScript numbers are IEEE 754 binary64 values, here
    [spec_float] with precision 53 and maximal exponent 1024. *)

From Stdlib Require Import ZArith NArith List Bool Ascii String Lia SpecFloat.
Import ListNotations.

Local Open Scope list_scope.
Local Open Scope string_scope.
Local Open Scope Z_scope.

(** ** Numbers *)

Definition number : Set := spec_float.

Module Num.

Definition prec : Z := 53.
Definition emax : Z := 1024.

Definition NaN : number := S754_nan.
Definition zero : number := S754_zero false.

Definition add : number -> number -> number := SFadd prec emax.
Definition sub : number -> number -> number := SFsub prec emax.
Definition mul : number -> number -> number := SFmul prec emax.

(** [a < b], [a > b], [a <= b] and [a === b] of JavaScript; each is
    [false] as soon as one side is NaN. *)
Definition lt (a b : number) : bool := SFltb a b.
Definition gt (a b : number) : bool := SFltb b a.
Definition le (a b : number) : bool := SFleb a b.
Definition eq (a b : number) : bool := SFeqb a b.

(** The number denoted by an integer literal. *)
Definition of_Z (z : Z) : number := binary_normalize prec emax z 0 false.

(** The number nearest to [m * 10 ^ e] (ties to even), for a
    non-negative decimal mantissa [m]: the value of a decimal literal. *)
Definition of_decimal (m e : Z) : number :=
  match m with
  | Zpos _ =>
      if 0 <=? e then binary_normalize prec emax (m * 10 ^ e) 0 false
      else
        let '(q, e', l) := SFdiv_core_binary prec emax m 0 (10 ^ (- e)) 0 in
        binary_round_aux prec emax false q e' l
  | _ => zero
  end.

End Num.

(** ** Characters and strings *)

(** The class [\s] of the regular expressions, among code units below 256:
    TAB, LF, VT, FF, CR, SPACE and NBSP. *)
Definition is_space (c : ascii) : bool :=
  let n := N_of_ascii c in
  ((9 <=? n) && (n <=? 13) || (n =? 32) || (n =? 160))%N.

(** The class [\d]. *)
Definition is_digit (c : ascii) : bool :=
  let n := N_of_ascii c in ((48 <=? n) && (n <=? 57))%N.

Definition digit_value (c : ascii) : Z := Z.of_N (N_of_ascii c) - 48.

Arguments is_space : simpl never.
Arguments is_digit : simpl never.
Arguments digit_value : simpl never.

Definition is_empty (s : string) : bool :=
  match s with EmptyString => true | String _ _ => false end.

Fixpoint string_forallb (p : ascii -> bool) (s : string) : bool :=
  match s with
  | EmptyString => true
  | String c s' => p c && string_forallb p s'
  end.

(** [starts_with p s]: [p] is a prefix of [s]. *)
Fixpoint starts_with (p s : string) : bool :=
  match p, s with
  | EmptyString, _ => true
  | String a p', String b s' => Ascii.eqb a b && starts_with p' s'
  | String _ _, EmptyString => false
  end.

(** [s.replace(/^\s+/, '')]. *)
Fixpoint trim_left (s : string) : string :=
  match s with
  | EmptyString => EmptyString
  | String c s' => if is_space c then trim_left s' else s
  end.

(** [s.replace(/\s+$/, '')]. *)
Fixpoint trim_right (s : string) : string :=
  match s with
  | EmptyString => EmptyString
  | String c s' =>
      let r := trim_right s' in
      if is_space c && is_empty r then EmptyString else String c r
  end.

(** [s.replace(/^\s+|\s+$/g, '')]. *)
Definition trim (s : string) : string := trim_right (trim_left s).

(** [s.replace(/\s/g, '')]. *)
Fixpoint remove_spaces (s : string) : string :=
  match s with
  | EmptyString => EmptyString
  | String c s' =>
      if is_space c then remove_spaces s' else String c (remove_spaces s')
  end.

(** [s.replace(a, b)] for one-character strings [a] and [b]: a string
    pattern replaces the first occurrence only. *)
Fixpoint replace_first (a b : ascii) (s : string) : string :=
  match s with
  | EmptyString => EmptyString
  | String c s' =>
      if Ascii.eqb c a then String b s' else String c (replace_first a b s')
  end.

(** [s.replace(/\r\n/g, "\n")]. *)
Fixpoint replace_crlf (s : string) : string :=
  match s with
  | EmptyString => EmptyString
  | String c s' =>
      if Ascii.eqb c "013" && starts_with (String "010" EmptyString) s'
      then replace_crlf s'
      else String c (replace_crlf s')
  end.

(** [s.replace(/\r/g, "\n")]. *)
Fixpoint replace_cr (s : string) : string :=
  match s with
  | EmptyString => EmptyString
  | String c s' =>
      String (if Ascii.eqb c "013" then "010"%char else c) (replace_cr s')
  end.

(** [s.split(sep)] for a non-empty separator.  The scan goes left to
    right; [skip] counts the characters of a separator just recognised
    that are still to be passed over and [cur] is the piece being
    collected. *)
Fixpoint split_from (sep : string) (skip : nat) (cur : string) (s : string)
  : list string :=
  match s with
  | EmptyString => [cur]
  | String c s' =>
      match skip with
      | S k => split_from sep k cur s'
      | O =>
          if starts_with sep s
          then cur :: split_from sep (Nat.pred (String.length sep))
                                 EmptyString s'
          else split_from sep 0 (cur ++ String c EmptyString) s'
      end
  end.

Definition split (sep s : string) : list string :=
  split_from sep 0 EmptyString s.

(** ** Regular expressions of the parser

    Both patterns are sequences of one-character classes, so a pattern is
    a list of character predicates. *)

Definition char_class := ascii -> bool.

Definition lit (a : ascii) : char_class := fun c => Ascii.eqb c a.
Definition comma_or_dot : char_class :=
  fun c => Ascii.eqb c "," || Ascii.eqb c ".".

Fixpoint match_prefix (p : list char_class) (s : string) : bool :=
  match p, s with
  | [], _ => true
  | k :: p', String c s' => k c && match_prefix p' s'
  | _ :: _, EmptyString => false
  end.

(** An unanchored pattern matches when it matches at some position. *)
Fixpoint re_search (p : list char_class) (s : string) : bool :=
  match_prefix p s ||
  match s with
  | EmptyString => false
  | String _ s' => re_search p s'
  end.

(** [\d{2}:\d{2}:\d{2}[,.]\d{3}] *)
Definition timecode_re : list char_class :=
  [is_digit; is_digit; lit ":"; is_digit; is_digit; lit ":";
   is_digit; is_digit; comma_or_dot; is_digit; is_digit; is_digit].

(** [\s-->\s] *)
Definition arrow_re : list char_class :=
  [is_space; lit "-"; lit "-"; lit ">"; is_space].

(** [/\d{2}:\d{2}:\d{2}[,.]\d{3}\s-->\s\d{2}:\d{2}:\d{2}[,.]\d{3}/] *)
Definition timing_re : list char_class :=
  (timecode_re ++ arrow_re ++ timecode_re)%list.

(** [/^\d+$/] *)
Definition all_digits (s : string) : bool :=
  negb (is_empty s) && string_forallb is_digit s.

(** ** parseFloat

    The longest prefix that is a decimal literal, after leading white
    space: an optional sign, then [Infinity] or digits with an optional
    fraction and an optional exponent.  NaN when there is no such prefix. *)

Fixpoint span_digits (s : string) : string * string :=
  match s with
  | EmptyString => (EmptyString, EmptyString)
  | String c s' =>
      if is_digit c
      then let '(d, r) := span_digits s' in (String c d, r)
      else (EmptyString, s)
  end.

Fixpoint digits_value (acc : Z) (s : string) : Z :=
  match s with
  | EmptyString => acc
  | String c s' => digits_value (10 * acc + digit_value c) s'
  end.

(** An optional sign: whether it is [-], and the text after it. *)
Definition read_sign (t : string) : bool * string :=
  match t with
  | String c r =>
      if Ascii.eqb c "-" then (true, r)
      else if Ascii.eqb c "+" then (false, r)
      else (false, t)
  | EmptyString => (false, t)
  end.

(** The exponent part [e], [e+] or [e-] followed by at least one digit;
    0 when the text does not continue with one. *)
Definition exponent_part (s : string) : Z :=
  match s with
  | String c r =>
      if Ascii.eqb c "e" || Ascii.eqb c "E" then
        let '(neg, r') := read_sign r in
        let '(d, _) := span_digits r' in
        if is_empty d then 0
        else if neg then - digits_value 0 d else digits_value 0 d
      else 0
  | EmptyString => 0
  end.

(** The fraction [.ddd] when the text continues with a dot. *)
Definition read_fraction (r1 : string) : string * string :=
  match r1 with
  | String c r => if Ascii.eqb c "." then span_digits r else (EmptyString, r1)
  | EmptyString => (EmptyString, r1)
  end.

Definition parseFloat (s : string) : number :=
  let '(neg, u) := read_sign (trim_left s) in
  if starts_with "Infinity" u then S754_infinity neg
  else
    let '(ip, r1) := span_digits u in
    let '(fp, r2) := read_fraction r1 in
    if is_empty ip && is_empty fp then Num.NaN
    else
      let v := Num.of_decimal (digits_value 0 (ip ++ fp))
                 (exponent_part r2 - Z.of_nat (String.length fp)) in
      if neg then SFopp v else v.

(** ** parseTime (lines 28-36)

    The argument is [None] when the caller passes [undefined].  An array
    element that does not exist is [undefined], which [parseFloat] reads
    as the string ["undefined"]. *)

Definition element (parts : list string) (i : nat) : string :=
  nth i parts "undefined".

Definition parseTime (timeString : option string) : number :=
  match timeString with
  | None => Num.zero
  | Some timeString =>
      if is_empty timeString then Num.zero
      else
        let timeString := replace_first "," "." timeString in
        let parts := split ":" timeString in
        let h := parseFloat (element parts 0) in
        let m := parseFloat (element parts 1) in
        let s := parseFloat (element parts 2) in
        Num.add
          (Num.add (Num.mul h (Num.of_Z 3600)) (Num.mul m (Num.of_Z 60))) s
  end.

(** ** Cues and the parser (lines 39-81) *)

Record Cue := mkCue { start : number; end_ : number; text : string }.

(** A call either returns or throws.  The one operation of the parser
    that can throw is the method call on [times[1]], a [TypeError] when
    that element is [undefined]. *)
Inductive exception := TypeError.

Inductive completion (A : Type) :=
| Normal (v : A)
| Throw (e : exception).
Arguments Normal {A} v.
Arguments Throw {A} e.

Definition bind {A B} (c : completion A) (k : A -> completion B)
  : completion B :=
  match c with
  | Normal v => k v
  | Throw e => Throw e
  end.

(** The variables [subtitles] and [currentSub] of the loop; [None] is
    [null]. *)
Record scan_state := mkState {
  subtitles : list Cue;
  currentSub : option Cue
}.

Definition is_null (c : option Cue) : bool :=
  match c with None => true | Some _ => false end.

(** [currentSub.text += (currentSub.text === "" ? "" : "\r") + line] *)
Definition append_line (c : Cue) (line : string) : Cue :=
  mkCue (start c) (end_ c)
        (text c ++ (if is_empty (text c) then "" else String "013" "") ++ line).

(** Line 41. *)
Definition lines_of (rawData : string) : list string :=
  split (String "010" "") (replace_cr (replace_crlf rawData)).

(** One iteration of the loop (lines 46-75) on the source line [raw]. *)
Definition step (raw : string) (st : scan_state) : completion scan_state :=
  let line := trim raw in
  if all_digits line && is_null (currentSub st) then Normal st
  else if re_search timing_re line then
    match split "-->" line with
    | t0 :: t1 :: _ =>
        Normal (mkState (subtitles st)
                  (Some (mkCue (parseTime (Some (remove_spaces t0)))
                               (parseTime (Some (remove_spaces t1)))
                               "")))
    | _ => Throw TypeError
    end
  else if is_empty line then
    match currentSub st with
    | Some c => Normal (mkState (subtitles st ++ [c])%list None)
    | None => Normal st
    end
  else
    match currentSub st with
    | Some c => Normal (mkState (subtitles st) (Some (append_line c line)))
    | None => Normal st
    end.

Fixpoint scan (lines : list string) (st : scan_state)
  : completion scan_state :=
  match lines with
  | [] => Normal st
  | l :: rest => bind (step l st) (scan rest)
  end.

(** Line 78. *)
Definition finish (st : scan_state) : list Cue :=
  match currentSub st with
  | Some c => (subtitles st ++ [c])%list
  | None => subtitles st
  end.

Definition parseSRT (rawData : string) : completion (list Cue) :=
  bind (scan (lines_of rawData) (mkState [] None))
       (fun st => Normal (finish st)).

(** ** The keyframe loop of the single-layer mode (lines 122-139)

    An event is one call [textProp.setValueAtTime(time, new
    TextDocument(text))]; [build] is the sequence of these calls, in
    order, for the cues [subs] and the frame duration of the
    composition. *)

Record TimelineEvent := mkEvent { time : number; ev_text : string }.

Definition sentinel : number := Num.of_Z 99999.

(** [(i < subs.length - 1) ? subs[i+1].start : 99999] *)
Definition nextStart (subs : list Cue) (i : nat) : number :=
  if (i <? List.length subs - 1)%nat
  then match nth_error subs (i + 1) with
       | Some n => start n
       | None => Num.NaN   (* not reached: the element exists *)
       end
  else sentinel.

Definition show_event (s : Cue) : TimelineEvent := mkEvent (start s) (text s).
Definition clear_event (s : Cue) : TimelineEvent := mkEvent (end_ s) "".

(** The body of the loop for the cue [s] at index [i]. *)
Definition cue_events (subs : list Cue) (frameDuration : number)
           (i : nat) (s : Cue) : list TimelineEvent :=
  show_event s ::
  (if Num.gt (Num.sub (nextStart subs i) (end_ s)) frameDuration
   then [clear_event s] else []).

(** [n] iterations starting at index [i], after the calls [done]. *)
Fixpoint build_loop (subs : list Cue) (frameDuration : number)
         (n i : nat) (done : list TimelineEvent) : list TimelineEvent :=
  match n with
  | O => done
  | S n' =>
      match nth_error subs i with
      | Some s =>
          build_loop subs frameDuration n' (S i)
                     (done ++ cue_events subs frameDuration i s)%list
      | None => done
      end
  end.

Definition build (subs : list Cue) (frameDuration : number)
  : list TimelineEvent :=
  build_loop subs frameDuration (List.length subs) 0%nat [].

(** ** The click handler (lines 83-173)

    The host application is seen through the calls the handler makes on
    it, in order. *)

Inductive message :=
| msg_open_composition      (* line 87 *)
| msg_select_template       (* line 93 *)
| msg_paste_srt.            (* line 101 *)

Inductive host_call :=
| alert (m : message)
| beginUndoGroup
| duplicate_track                                  (* lines 113-115 *)
| removeKey
| setValueAtTime (t : number) (txt : string)
| duplicate_layer (index : nat) (inPoint outPoint : number) (txt : string)
                                                   (* lines 152-163 *)
| hide_template                                    (* lines 168-170 *)
| endUndoGroup
| uncaught (e : exception).

(** What the handler reads from the host and from the panel. *)
Record host := mkHost {
  activeItem_is_comp : bool;         (* comp instanceof CompItem *)
  one_text_layer_selected : bool;    (* the test of line 92 *)
  srtInput_text : string;
  modeRadio1_value : bool;
  frameDuration : number;            (* comp.frameDuration *)
  numKeys : nat                      (* keys on the duplicated property *)
}.

Fixpoint layers_from (i : nat) (subs : list Cue) : list host_call :=
  match subs with
  | [] => []
  | s :: rest =>
      duplicate_layer (i + 1) (start s) (end_ s) (text s)
      :: layers_from (S i) rest
  end.

Definition onClick (h : host) : list host_call :=
  if negb (activeItem_is_comp h) then [alert msg_open_composition]
  else if negb (one_text_layer_selected h) then [alert msg_select_template]
  else if (String.length (srtInput_text h) <? 10)%nat
  then [alert msg_paste_srt]
  else
    match parseSRT (srtInput_text h) with
    | Throw e => [uncaught e]
    | Normal subs =>
        ([beginUndoGroup]
         ++ (if modeRadio1_value h
             then duplicate_track
                  :: repeat removeKey (numKeys h)
                  ++ map (fun e => setValueAtTime (time e) (ev_text e))
                         (build subs (frameDuration h))
             else layers_from 0 subs)
         ++ [hide_template; endUndoGroup])%list
    end.

(** ** Vocabulary of the statements *)

(** A string matches a pattern from its first to its last character. *)
Definition matches_exactly (p : list char_class) (s : string) : bool :=
  match_prefix p s && (String.length s =? List.length p)%nat.

(** The number written by the [n] digits of [tok] from position [i]. *)
Definition field (tok : string) (i n : nat) : Z :=
  digits_value 0 (substring i n tok).

(** [H*3600 + M*60 + S.mmm] for a token [HH:MM:SS,mmm]: the integers [H]
    and [M] are exact, [S.mmm] is the number nearest to
    [(1000 S + mmm) / 1000]. *)
Definition timecode_seconds (tok : string) : number :=
  Num.add
    (Num.add (Num.mul (Num.of_Z (field tok 0 2)) (Num.of_Z 3600))
             (Num.mul (Num.of_Z (field tok 3 2)) (Num.of_Z 60)))
    (Num.of_decimal (field tok 6 2 * 1000 + field tok 9 3) (-3)).

Definition LF : string := String "010" "".
Definition CR : string := String "013" "".

Fixpoint join (sep : string) (l : list string) : string :=
  match l with
  | [] => ""
  | [x] => x
  | x :: rest => x ++ sep ++ join sep rest
  end.

(** [avoids a s]: the character [a] does not occur in [s]. *)
Definition avoids (a : ascii) : string -> bool :=
  string_forallb (fun c => negb (Ascii.eqb c a)).

Definition head_is_digit (s : string) : bool :=
  match s with String c _ => is_digit c | EmptyString => false end.

Definition timecode_char (c : ascii) : bool :=
  is_digit c || Ascii.eqb c ":" || Ascii.eqb c "," || Ascii.eqb c ".".

(** The line [t1 w1 --> w2 t2]: two tokens and the arrow with one
    character on each side of it. *)
Definition arrow_line (t1 : string) (w1 w2 : ascii) (t2 : string) : string :=
  t1 ++ String w1 ("-->" ++ String w2 t2).

(** The line [t1 ws1 --> ws2 t2] with any text on each side of the
    arrow. *)
Definition spaced_arrow_line (t1 ws1 ws2 t2 : string) : string :=
  t1 ++ ws1 ++ "-->" ++ ws2 ++ t2.

Fixpoint count_char (a : ascii) (s : string) : nat :=
  match s with
  | EmptyString => 0
  | String c s' => (if Ascii.eqb c a then 1 else 0) + count_char a s'
  end.

(** A text line: not blank once trimmed, and not a timing line. *)
Definition is_text_line (raw : string) : bool :=
  negb (is_empty (trim raw)) && negb (re_search timing_re (trim raw)).

(** What is true of every cue of a state. *)
Definition state_all (P : Cue -> Prop) (st : scan_state) : Prop :=
  Forall P (subtitles st)
  /\ match currentSub st with Some c => P c | None => True end.

(** *** Well-formed blocks

    A block is an index line, a timing line, text lines and a blank
    line.  The timing line is written as in the transcripts, with one
    space on each side of the arrow. *)

Record block := mkBlock {
  index_line : string;
  start_code : string;
  end_code : string;
  text_lines : list string
}.

Definition timing_line (b : block) : string :=
  arrow_line (start_code b) " " " " (end_code b).

Definition no_line_break (l : string) : bool :=
  avoids "013" l && avoids "010" l.

Definition has_lines (ls : list string) : bool :=
  match ls with [] => false | _ :: _ => true end.

Definition well_formed (b : block) : bool :=
  all_digits (index_line b)
  && matches_exactly timecode_re (start_code b)
  && matches_exactly timecode_re (end_code b)
  && has_lines (text_lines b)
  && forallb (fun l => is_text_line l && no_line_break l) (text_lines b).

(** The lines of a block up to its last text line, and with the blank
    line that ends it. *)
Definition block_open_lines (b : block) : list string :=
  index_line b :: timing_line b :: text_lines b.

Definition block_lines (b : block) : list string :=
  (block_open_lines b ++ [""])%list.

(** The cue that a block describes. *)
Definition block_cue (b : block) : Cue :=
  mkCue (timecode_seconds (start_code b)) (timecode_seconds (end_code b))
        (join CR (map trim (text_lines b))).

(** The three ways a transcript ends its lines. *)
Inductive line_ending := ending_LF | ending_CRLF | ending_CR.

Definition ending_string (e : line_ending) : string :=
  match e with
  | ending_LF => LF
  | ending_CRLF => CR ++ LF
  | ending_CR => CR
  end.

(** Every line followed by the line ending. *)
Fixpoint unlines (e : line_ending) (ls : list string) : string :=
  match ls with
  | [] => ""
  | l :: rest => l ++ ending_string e ++ unlines e rest
  end.

(** *** Events expected of the keyframe loop *)

Definition next_start_of (subs : list Cue) (i : nat) : number :=
  match nth_error subs (S i) with
  | Some n => start n
  | None => sentinel
  end.

Definition gap_after (subs : list Cue) (i : nat) (s : Cue) : number :=
  Num.sub (next_start_of subs i) (end_ s).

Definition expected_events (subs : list Cue) (minGap : number) (i : nat)
  : list TimelineEvent :=
  match nth_error subs i with
  | Some s =>
      if Num.gt (gap_after subs i s) minGap
      then [show_event s; clear_event s]
      else [show_event s]
  | None => []
  end.

Definition is_alert (c : host_call) : bool :=
  match c with alert _ => true | _ => false end.

Definition is_setValueAtTime (c : host_call) : bool :=
  match c with setValueAtTime _ _ => true | _ => false end.

Definition is_duplicate_layer (c : host_call) : bool :=
  match c with duplicate_layer _ _ _ _ => true | _ => false end.

(** *** Malformed timecodes *)





(** *** Timing lines in order *)

(** The two timecodes of a line of 29 characters. *)
Definition start_token (line : string) : string := substring 0 12 line.
Definition end_token (line : string) : string := substring 17 12 line.

(** The instant that a timecode writes, in milliseconds. *)
Definition milliseconds (tok : string) : Z :=
  field tok 0 2 * 3600000 + field tok 3 2 * 60000
  + field tok 6 2 * 1000 + field tok 9 3.

Definition seconds_below_60 (tok : string) : bool := field tok 6 2 <? 60.

(** The line is a timecode, one white-space character, the arrow, one
    white-space character and a timecode, and nothing else; both
    timecodes have their seconds below 60 and the first is not later than
    the second. *)
Definition ordered_timing_line (line : string) : bool :=
  matches_exactly timing_re line
  && seconds_below_60 (start_token line)
  && seconds_below_60 (end_token line)
  && (milliseconds (start_token line) <=? milliseconds (end_token line)).

(** Every line of the input on which the timing pattern is found is, once
    trimmed, such a line. *)
Definition timing_lines_in_order (rawData : string) : bool :=
  forallb (fun raw => negb (re_search timing_re (trim raw))
                      || ordered_timing_line (trim raw))
          (lines_of rawData).

(** *** Exact values and rounding *)

(** The quotient [P / Q] with the two bits that say where [P / Q] lies
    between two integers: the round bit (the fraction is at least one
    half) and the sticky bit (it is neither 0 nor one half). *)
Definition cut (P Q : Z) : shr_record :=
  Build_shr_record (P / Q) (Q <=? 2 * (P mod Q))
    (negb (P mod Q =? 0) && negb (2 * (P mod Q) =? Q)).

(** The integer nearest to [P / Q], ties to even. *)
Definition nearest (P Q : Z) : Z :=
  round_nearest_even (shr_m (cut P Q)) (loc_of_shr_record (cut P Q)).

(** The number of mantissa [M] and exponent [E], the mantissa brought
    back to 53 bits when rounding has carried it to [2^53]. *)
Definition pack (M E : Z) : number :=
  let '(mrs, e) := shr_fexp Num.prec Num.emax M E loc_Exact in
  match shr_m mrs with
  | Z0 => S754_zero false
  | Zpos m =>
      if e <=? Num.emax - Num.prec then S754_finite false m e
      else S754_infinity false
  | Zneg _ => S754_nan
  end.

(** The number nearest to [(P / Q) * 2^e], for a quotient of at least 53
    bits. *)
Definition rounded (P Q e : Z) : number :=
  let n := Zdigits2 (P / Q) - 53 in
  pack (nearest P (Q * 2 ^ n)) (e + n).

(** A positive number with a mantissa of 53 bits. *)
Definition normal (x : number) : bool :=
  match x with
  | S754_finite false m e =>
      (Zdigits2 (Zpos m) =? 53) && (-1074 <=? e) && (e <=? 970)
  | _ => false
  end.

(** [x * 2^k], an integer when [k] is large enough. *)
Definition scaled (k : Z) (x : number) : Z :=
  match x with
  | S754_finite false m e => Zpos m * 2 ^ (e + k)
  | _ => 0
  end.

(** The order of the normal numbers is that of their keys. *)
Definition key (x : number) : Z :=
  match x with
  | S754_finite false m e => e * 2 ^ 53 + Zpos m
  | _ => 0
  end.

(** Zero, or a normal number with an exponent between -64 and 0: the
    numbers that the timecodes give. *)
Definition fine (x : number) : bool :=
  match x with
  | S754_zero false => true
  | S754_finite false _ e => normal x && (-64 <=? e) && (e <=? 0)
  | _ => false
  end.

(** *** Inputs of the examples *)

Definition tenth : number := Num.of_decimal 1 (-1).

Definition cues_gap : list Cue :=
  [mkCue (Num.of_Z 1) (Num.of_Z 2) "a";
   mkCue (Num.of_decimal 25 (-1)) (Num.of_Z 4) "b"].

Definition cues_adjacent : list Cue :=
  [mkCue (Num.of_Z 1) (Num.of_Z 2) "a"; mkCue (Num.of_Z 2) (Num.of_Z 3) "b"].



Definition doc_reversed : string :=
  "00:00:05,000 --> 00:00:01,000" ++ LF ++ "x".

(** The same instant written with 61 seconds and with one minute and one
    second. *)
Definition doc_sixty_one : string :=
  "00:00:61,029 --> 00:01:01,029" ++ LF ++ "x".

(** Two timecodes in order after a stray character, and before an
    exponent. *)
Definition doc_prefixed : string :=
  "x00:00:01,000 --> 00:00:02,000" ++ LF ++ "x".

Definition doc_suffixed : string :=
  "00:00:01,000 --> 00:00:02,000e-9" ++ LF ++ "x".

(** Two blocks whose timing lines are in order. *)
Definition doc_in_order : string :=
  "1" ++ LF ++ "00:59:59,999 --> 01:00:00,000" ++ LF ++ "x" ++ LF ++ LF
  ++ "2" ++ LF ++ "01:00:00.000 --> 01:00:00.000" ++ LF ++ "y".

Definition host_no_cues : host :=
  mkHost true true "hello world" true (Num.of_decimal 4 (-2)) 2.

Definition block_one : block :=
  mkBlock "1" "00:00:01,000" "00:00:02,500" ["Hello"; "  123 "].

Definition block_two : block :=
  mkBlock "2" "00:01:00.000" "00:01:01.250" ["World"].

(** *** Vocabulary of the further properties *)

(** The source lines on which the timing pattern is found. *)
Definition timing_lines (lines : list string) : list string :=
  filter (fun l => re_search timing_re (trim l)) lines.

(** The cues of a state, finished or in progress. *)
Definition held (st : scan_state) : nat :=
  (List.length (subtitles st)
   + match currentSub st with Some _ => 1 | None => 0 end)%nat.

(** The state with [pre] before its finished cues. *)
Definition after_cues (pre : list Cue) (st : scan_state) : scan_state :=
  mkState (pre ++ subtitles st)%list (currentSub st).

Definition doc_two_timing_lines : string :=
  "00:00:01,000 --> 00:00:02,000" ++ LF ++ "lost" ++ LF
  ++ "00:00:03,000 --> 00:00:04,000" ++ LF ++ "kept".

(** A text with no white space at either end and no line feed inside. *)
Definition tidy (t : string) : Prop :=
  trim t = t /\ avoids "010" t = true.

(** The cues that the loop and line 78 give for the lines [lines]. *)
Definition cues_of_lines (lines : list string) : completion (list Cue) :=
  bind (scan lines (mkState [] None)) (fun st => Normal (finish st)).

Definition doc_first : string :=
  "1" ++ CR ++ LF ++ "00:00:01,000 --> 00:00:02,000" ++ CR ++ LF ++ "one" ++ CR.

Definition doc_second : string :=
  "2" ++ LF ++ "00:00:03,000 --> 00:00:04,000" ++ LF ++ "two".

(** The events have times that do not go down, each compared with the
    next. *)
Fixpoint times_ascending (l : list TimelineEvent) : bool :=
  match l with
  | a :: (b :: _) as rest => Num.le (time a) (time b) && times_ascending rest
  | _ => true
  end.

(** Every cue ends no earlier than it starts and no later than the next
    one starts. *)
Fixpoint cues_in_order (subs : list Cue) : bool :=
  match subs with
  | s :: (n :: _) as rest =>
      Num.le (start s) (end_ s) && Num.le (end_ s) (start n)
      && cues_in_order rest
  | [s] => Num.le (start s) (end_ s)
  | [] => true
  end.

Definition cues_ordered_example : list Cue :=
  [mkCue (Num.of_Z 1) (Num.of_Z 2) "a";
   mkCue (Num.of_Z 2) (Num.of_decimal 35 (-1)) "b";
   mkCue (Num.of_Z 5) (Num.of_Z 5) "c"].

(** The three tests that the handler makes before it parses. *)
Definition guards_pass (h : host) : bool :=
  activeItem_is_comp h && one_text_layer_selected h
  && (10 <=? String.length (srtInput_text h))%nat.

(** The calls that change layers or keys. *)
Definition is_layer_work (c : host_call) : bool :=
  match c with
  | duplicate_track | removeKey | setValueAtTime _ _
  | duplicate_layer _ _ _ _ => true
  | _ => false
  end.

Definition host_two_blocks (single_layer : bool) : host :=
  mkHost true true
         (unlines ending_CRLF (flat_map block_lines [block_one; block_two]))
         single_layer (Num.of_decimal 4 (-2)) 1.

(** * Properties *)

(** ** Characters *)

Ltac ascii_cases c :=
  destruct c as [[] [] [] [] [] [] [] []];
  try reflexivity; try discriminate.

Lemma digit_not_space c : is_digit c = true -> is_space c = false.
Proof. ascii_cases c. Qed.

Lemma digit_neq c x :
  is_digit c = true -> is_digit x = false -> Ascii.eqb c x = false.
Proof.
  intros Hc Hx. destruct (Ascii.eqb_spec c x); [subst; congruence | reflexivity].
Qed.

Lemma space_neq c x :
  is_space c = true -> is_space x = false -> Ascii.eqb c x = false.
Proof.
  intros Hc Hx. destruct (Ascii.eqb_spec c x); [subst; congruence | reflexivity].
Qed.

Lemma lit_eq a c : lit a c = true -> c = a.
Proof. unfold lit. apply Ascii.eqb_eq. Qed.

Lemma comma_or_dot_cases c :
  comma_or_dot c = true -> c = ","%char \/ c = "."%char.
Proof.
  unfold comma_or_dot. intros H. apply orb_true_iff in H.
  destruct H as [H | H]; apply Ascii.eqb_eq in H; auto.
Qed.

(** ** Strings *)

Lemma append_nil_r s : s ++ "" = s.
Proof. induction s as [| c s IH]; simpl; [reflexivity | now rewrite IH]. Qed.

Lemma append_assoc (a b c : string) : (a ++ b) ++ c = a ++ (b ++ c).
Proof. induction a as [| x a IH]; simpl; [reflexivity | now rewrite IH]. Qed.

Lemma is_empty_true s : is_empty s = true -> s = "".
Proof. destruct s; [reflexivity | discriminate]. Qed.

Lemma is_empty_append a b : is_empty b = false -> is_empty (a ++ b) = false.
Proof. destruct a; simpl; auto. Qed.

Lemma string_forallb_app p a b :
  string_forallb p (a ++ b) = string_forallb p a && string_forallb p b.
Proof.
  induction a as [| x a IH]; simpl; [reflexivity |].
  now rewrite IH, andb_assoc.
Qed.

Lemma string_forallb_impl (p q : ascii -> bool) s :
  (forall c, p c = true -> q c = true) ->
  string_forallb p s = true -> string_forallb q s = true.
Proof.
  intros Hpq. induction s as [| c s IH]; simpl; [reflexivity |].
  intros H. apply andb_true_iff in H as [Hc Hs].
  now rewrite (Hpq _ Hc), IH.
Qed.

Lemma avoids_app a s t : avoids a (s ++ t) = avoids a s && avoids a t.
Proof. apply string_forallb_app. Qed.

Lemma digits_avoid a s :
  is_digit a = false -> string_forallb is_digit s = true -> avoids a s = true.
Proof.
  intros Ha. apply string_forallb_impl.
  intros c Hc. now rewrite (digit_neq c a Hc Ha).
Qed.

(** *** Trimming *)

Lemma trim_left_nonspace c s :
  is_space c = false -> trim_left (String c s) = String c s.
Proof. intros H. simpl. now rewrite H. Qed.

Lemma trim_right_app s t :
  is_empty (trim_right t) = false -> trim_right (s ++ t) = s ++ trim_right t.
Proof.
  intros Ht. induction s as [| c s IH]; simpl; [reflexivity |].
  rewrite IH, (is_empty_append s _ Ht), andb_false_r. reflexivity.
Qed.

Lemma trim_left_spaces s :
  string_forallb is_space s = true -> trim_left s = "".
Proof.
  induction s as [| c s IH]; simpl; [reflexivity |].
  intros H. apply andb_true_iff in H as [Hc Hs]. now rewrite Hc, IH.
Qed.

Lemma trim_spaces s : string_forallb is_space s = true -> trim s = "".
Proof. intros H. unfold trim. now rewrite trim_left_spaces. Qed.

Lemma trim_right_no_leading_space s :
  match trim_right (trim_left s) with
  | String c _ => is_space c = false
  | EmptyString => True
  end.
Proof.
  induction s as [| c s IH]; simpl; [exact I |].
  destruct (is_space c) eqn:Hc; [exact IH |].
  simpl. rewrite Hc. simpl. exact Hc.
Qed.

Lemma trim_right_idem s : trim_right (trim_right s) = trim_right s.
Proof.
  induction s as [| c s IH]; simpl; [reflexivity |].
  destruct (is_space c && is_empty (trim_right s)) eqn:E; [reflexivity |].
  simpl. rewrite IH, E. reflexivity.
Qed.

Lemma trim_idem s : trim (trim s) = trim s.
Proof.
  unfold trim. pose proof (trim_right_no_leading_space s) as H.
  destruct (trim_right (trim_left s)) as [| c r] eqn:E; [reflexivity |].
  rewrite (trim_left_nonspace c r H), <- E. apply trim_right_idem.
Qed.

(** *** Replacing *)

Lemma replace_first_avoids a b s :
  avoids a s = true -> replace_first a b s = s.
Proof.
  induction s as [| c s IH]; simpl; [reflexivity |].
  intros H. apply andb_true_iff in H as [Hc Hs].
  apply negb_true_iff in Hc. now rewrite Hc, IH.
Qed.

Lemma replace_first_app a b s t :
  avoids a s = true -> replace_first a b (s ++ t) = s ++ replace_first a b t.
Proof.
  induction s as [| c s IH]; simpl; [reflexivity |].
  intros H. apply andb_true_iff in H as [Hc Hs].
  apply negb_true_iff in Hc. now rewrite Hc, IH.
Qed.

Lemma replace_crlf_avoids s : avoids "013" s = true -> replace_crlf s = s.
Proof.
  induction s as [| c s IH]; simpl; [reflexivity |].
  intros H. apply andb_true_iff in H as [Hc Hs].
  apply negb_true_iff in Hc. rewrite Hc. simpl. now rewrite IH.
Qed.

Lemma replace_cr_avoids s : avoids "013" s = true -> replace_cr s = s.
Proof.
  induction s as [| c s IH]; simpl; [reflexivity |].
  intros H. apply andb_true_iff in H as [Hc Hs].
  apply negb_true_iff in Hc. now rewrite Hc, IH.
Qed.

Lemma remove_spaces_app s t :
  remove_spaces (s ++ t) = remove_spaces s ++ remove_spaces t.
Proof.
  induction s as [| c s IH]; simpl; [reflexivity |].
  destruct (is_space c); simpl; now rewrite IH.
Qed.

Lemma remove_spaces_none s :
  string_forallb (fun c => negb (is_space c)) s = true -> remove_spaces s = s.
Proof.
  induction s as [| c s IH]; simpl; [reflexivity |].
  intros H. apply andb_true_iff in H as [Hc Hs].
  apply negb_true_iff in Hc. now rewrite Hc, IH.
Qed.

(** *** Splitting *)

Lemma starts_with_app p s : starts_with p (p ++ s) = true.
Proof.
  induction p as [| a p IH]; simpl; [reflexivity |].
  now rewrite Ascii.eqb_refl, IH.
Qed.

Lemma split_from_nonempty sep k cur s : split_from sep k cur s <> [].
Proof.
  revert k cur. induction s as [| c s IH]; intros k cur; simpl; [discriminate |].
  destruct k; [| apply IH].
  destruct (starts_with sep (String c s)); [discriminate | apply IH].
Qed.

(** The characters of a recognised separator are passed over. *)
Lemma split_from_skip sep p cur s :
  split_from sep (String.length p) cur (p ++ s) = split_from sep 0 cur s.
Proof.
  induction p as [| a p IH]; simpl; [| exact IH].
  destruct s; reflexivity.
Qed.

(** No separator starts in a stretch that avoids its first character. *)
Lemma split_from_avoids a sep cur s t :
  avoids a s = true ->
  split_from (String a sep) 0 cur (s ++ t)
  = split_from (String a sep) 0 (cur ++ s) t.
Proof.
  revert cur. induction s as [| c s IH]; intros cur H; simpl.
  - now rewrite append_nil_r.
  - simpl in H. apply andb_true_iff in H as [Hc Hs].
    apply negb_true_iff in Hc. rewrite Ascii.eqb_sym in Hc. rewrite Hc. simpl.
    rewrite IH by exact Hs. now rewrite append_assoc.
Qed.

Lemma split_from_sep a sep cur t :
  split_from (String a sep) 0 cur (String a sep ++ t)
  = cur :: split_from (String a sep) 0 "" t.
Proof.
  simpl. rewrite Ascii.eqb_refl, starts_with_app. simpl.
  now rewrite split_from_skip.
Qed.

Lemma split_piece a sep s t :
  avoids a s = true ->
  split (String a sep) (s ++ String a sep ++ t) = s :: split (String a sep) t.
Proof.
  intros H. unfold split. rewrite split_from_avoids by exact H.
  apply split_from_sep.
Qed.

Lemma split_last a sep s :
  avoids a s = true -> split (String a sep) s = [s].
Proof.
  intros H. unfold split.
  rewrite <- (append_nil_r s) at 1. rewrite split_from_avoids by exact H.
  reflexivity.
Qed.

(** A string that contains the separator splits in at least two pieces. *)
Lemma split_from_two a sep cur s t :
  exists t0 t1 rest,
    split_from (String a sep) 0 cur (s ++ String a sep ++ t) = t0 :: t1 :: rest.
Proof.
  revert cur. induction s as [| c s IH]; intros cur.
  - change ("" ++ String a sep ++ t) with (String a sep ++ t).
    rewrite split_from_sep.
    destruct (split_from (String a sep) 0 "" t) as [| t1 rest] eqn:E.
    + now apply split_from_nonempty in E.
    + now exists cur, t1, rest.
  - change (String c s ++ String a sep ++ t)
      with (String c (s ++ String a sep ++ t)).
    cbn [split_from].
    destruct (starts_with (String a sep) (String c (s ++ String a sep ++ t))).
    + destruct (split_from (String a sep) (Nat.pred (String.length (String a sep)))
                           "" (s ++ String a sep ++ t)) as [| t1 rest] eqn:E.
      * now apply split_from_nonempty in E.
      * now exists cur, t1, rest.
    + apply IH.
Qed.

(** *** Patterns *)

Lemma match_prefix_app p q s :
  match_prefix (p ++ q)%list s = true ->
  exists a b, s = a ++ b /\ matches_exactly p a = true
              /\ match_prefix q b = true.
Proof.
  revert s. induction p as [| k p IH]; intros s H.
  - exists "", s. auto.
  - destruct s as [| c s]; [discriminate |].
    simpl in H. apply andb_true_iff in H as [Hk H].
    destruct (IH s H) as (a & b & -> & Ha & Hb).
    exists (String c a), b. repeat split; [| exact Hb].
    unfold matches_exactly in *. simpl.
    apply andb_true_iff in Ha as [Ha1 Ha2].
    now rewrite Hk, Ha1, Ha2.
Qed.

Lemma re_search_position p s :
  re_search p s = true -> exists a b, s = a ++ b /\ match_prefix p b = true.
Proof.
  induction s as [| c s IH]; simpl; intros H.
  - rewrite orb_false_r in H. now exists "", "".
  - apply orb_true_iff in H as [H | H].
    + now exists "", (String c s).
    + destruct (IH H) as (a & b & -> & Hb). now exists (String c a), b.
Qed.

Lemma match_prefix_arrow s :
  match_prefix (arrow_re ++ timecode_re)%list s = true ->
  exists w1 w2 r, is_space w1 = true /\ is_space w2 = true
                  /\ s = String w1 ("-->" ++ String w2 r)
                  /\ match_prefix timecode_re r = true.
Proof.
  destruct s as [| w1 [| c1 [| c2 [| c3 [| w2 r]]]]];
    cbn [arrow_re app match_prefix]; intros H;
    rewrite ?andb_false_r in H; try discriminate.
  apply andb_true_iff in H as [Hw1 H]. apply andb_true_iff in H as [H1 H].
  apply andb_true_iff in H as [H2 H]. apply andb_true_iff in H as [H3 H].
  apply andb_true_iff in H as [Hw2 H].
  apply lit_eq in H1, H2, H3. subst.
  exists w1, w2, r. auto.
Qed.

(** A line on which the timing pattern is found has the arrow, one
    white-space character on each side of it, and a timecode before and
    after. *)
Lemma timing_line_shape line :
  re_search timing_re line = true ->
  exists pre t1 w1 w2 r,
    line = pre ++ t1 ++ String w1 ("-->" ++ String w2 r)
    /\ matches_exactly timecode_re t1 = true
    /\ is_space w1 = true /\ is_space w2 = true
    /\ match_prefix timecode_re r = true.
Proof.
  intros H. apply re_search_position in H as (pre & b & -> & H).
  apply match_prefix_app in H as (t1 & b' & -> & Ht1 & H).
  apply match_prefix_arrow in H as (w1 & w2 & r & Hw1 & Hw2 & -> & Hr).
  now exists pre, t1, w1, w2, r.
Qed.

Lemma timing_line_not_digits line :
  re_search timing_re line = true -> all_digits line = false.
Proof.
  intros H. apply timing_line_shape in H as (pre & t1 & w1 & w2 & r & -> & _).
  unfold all_digits. rewrite !string_forallb_app. simpl.
  now rewrite !andb_false_r.
Qed.

Lemma timing_line_split line :
  re_search timing_re line = true ->
  exists t0 t1 rest, split "-->" line = t0 :: t1 :: rest.
Proof.
  intros H. apply timing_line_shape in H as (pre & t1 & w1 & w2 & r & -> & _).
  unfold split.
  replace (pre ++ t1 ++ String w1 ("-->" ++ String w2 r))
    with ((pre ++ t1 ++ String w1 "") ++ "-->" ++ String w2 r).
  - apply split_from_two.
  - now rewrite !append_assoc.
Qed.

(** ** Numbers *)



Lemma add_nan_r x : Num.add x Num.NaN = Num.NaN.
Proof. destruct x; reflexivity. Qed.

Lemma SFcompare_antisym a b :
  SFcompare b a = option_map CompOpp (SFcompare a b).
Proof.
  destruct a as [sa | sa | | sa ma ea], b as [sb | sb | | sb mb eb];
    try destruct sa; try destruct sb; try reflexivity; simpl;
    rewrite (Z.compare_antisym ea eb);
    destruct (ea ?= eb); simpl; try reflexivity;
    rewrite (Pos.compare_cont_antisym ma mb Eq); simpl;
    try reflexivity; now rewrite CompOpp_involutive.
Qed.

(** Strictness of [>]: equal numbers are not one above the other. *)
Lemma gt_eq_false a b : Num.eq a b = true -> Num.gt a b = false.
Proof.
  unfold Num.eq, Num.gt, SFeqb, SFltb. rewrite (SFcompare_antisym a b).
  destruct (SFcompare a b) as [[] |]; simpl; congruence.
Qed.

Lemma lt_asym a b : Num.lt a b = true -> Num.gt a b = false.
Proof.
  unfold Num.lt, Num.gt, SFltb. rewrite (SFcompare_antisym a b).
  destruct (SFcompare a b) as [[] |]; simpl; congruence.
Qed.

Lemma of_decimal_integer m : 0 <= m -> Num.of_decimal m 0 = Num.of_Z m.
Proof.
  intros H. destruct m as [| p | p]; [reflexivity | | lia].
  unfold Num.of_decimal, Num.of_Z. simpl (0 <=? 0). cbv iota.
  now rewrite Z.pow_0_r, Z.mul_1_r.
Qed.

(** ** parseFloat on digit strings *)

Lemma span_digits_app ip r :
  string_forallb is_digit ip = true -> head_is_digit r = false ->
  span_digits (ip ++ r) = (ip, r).
Proof.
  intros Hip Hr. induction ip as [| c ip IH]; simpl.
  - destruct r as [| c r]; [reflexivity |]. simpl in *. now rewrite Hr.
  - simpl in Hip. apply andb_true_iff in Hip as [Hc Hip].
    now rewrite Hc, (IH Hip).
Qed.

Lemma span_digits_all ip :
  string_forallb is_digit ip = true -> span_digits ip = (ip, "").
Proof.
  intros H. rewrite <- (append_nil_r ip) at 1. now apply span_digits_app.
Qed.

Lemma digit_value_range c : is_digit c = true -> 0 <= digit_value c <= 9.
Proof.
  unfold is_digit, digit_value. intros H.
  apply andb_true_iff in H as [H1 H2].
  apply N.leb_le in H1, H2. lia.
Qed.

Lemma digits_value_nonneg s acc :
  string_forallb is_digit s = true -> 0 <= acc -> 0 <= digits_value acc s.
Proof.
  revert acc. induction s as [| c s IH]; intros acc H Hacc;
    cbn [digits_value]; [exact Hacc |].
  cbn [string_forallb] in H. apply andb_true_iff in H as [Hc Hs].
  apply IH; [exact Hs |]. pose proof (digit_value_range c Hc). lia.
Qed.

(** What [parseFloat] does up to the digits, when the text starts with
    one. *)
Lemma parseFloat_unsigned c s :
  is_digit c = true ->
  parseFloat (String c s)
  = let '(ip, r1) := span_digits (String c s) in
    let '(fp, r2) := read_fraction r1 in
    Num.of_decimal (digits_value 0 (ip ++ fp))
                   (exponent_part r2 - Z.of_nat (String.length fp)).
Proof.
  intros Hc. unfold parseFloat.
  rewrite (trim_left_nonspace c s (digit_not_space c Hc)).
  unfold read_sign.
  rewrite (digit_neq c "-" Hc eq_refl), (digit_neq c "+" Hc eq_refl).
  cbn [starts_with]. rewrite Ascii.eqb_sym, (digit_neq c "I" Hc eq_refl).
  cbn [andb span_digits]. rewrite Hc.
  destruct (span_digits s) as [d r]. cbn [is_empty andb].
  destruct (read_fraction r) as [fp r2]. reflexivity.
Qed.

Lemma parseFloat_integer ip :
  is_empty ip = false -> string_forallb is_digit ip = true ->
  parseFloat ip = Num.of_Z (digits_value 0 ip).
Proof.
  intros Hne Hd. destruct ip as [| c ip]; [discriminate |].
  pose proof Hd as Hd'. simpl in Hd'. apply andb_true_iff in Hd' as [Hc _].
  rewrite (parseFloat_unsigned c ip Hc), (span_digits_all _ Hd).
  cbn [read_fraction exponent_part String.length Z.of_nat Z.sub Z.opp Z.add].
  rewrite append_nil_r. apply of_decimal_integer.
  now apply digits_value_nonneg.
Qed.

Lemma parseFloat_decimal ip fp :
  is_empty ip = false -> string_forallb is_digit ip = true ->
  string_forallb is_digit fp = true ->
  parseFloat (ip ++ String "." fp)
  = Num.of_decimal (digits_value 0 (ip ++ fp)) (- Z.of_nat (String.length fp)).
Proof.
  intros Hne Hd Hf. destruct ip as [| c ip]; [discriminate |].
  pose proof Hd as Hd'. simpl in Hd'. apply andb_true_iff in Hd' as [Hc _].
  change (String c ip ++ String "." fp) with (String c (ip ++ String "." fp)).
  rewrite (parseFloat_unsigned c _ Hc).
  change (String c (ip ++ String "." fp)) with (String c ip ++ String "." fp).
  rewrite (span_digits_app (String c ip) (String "." fp) Hd eq_refl).
  cbn [read_fraction]. rewrite Ascii.eqb_refl, (span_digits_all _ Hf).
  reflexivity.
Qed.

(** ** parseTime on a token made of digit fields *)

Section Fields.

Variables hh mm ss ff : string.
Variable sep : ascii.
Hypothesis Hhh : string_forallb is_digit hh = true.
Hypothesis Hmm : string_forallb is_digit mm = true.
Hypothesis Hss : string_forallb is_digit ss = true.
Hypothesis Hff : string_forallb is_digit ff = true.
Hypothesis Nhh : is_empty hh = false.
Hypothesis Nmm : is_empty mm = false.
Hypothesis Nss : is_empty ss = false.
Hypothesis Hsep : sep = ","%char \/ sep = "."%char.

Let token := hh ++ ":" ++ mm ++ ":" ++ ss ++ String sep ff.

Lemma token_normalised :
  replace_first "," "." token = hh ++ ":" ++ mm ++ ":" ++ ss ++ String "." ff.
Proof.
  unfold token.
  rewrite (replace_first_app _ _ hh) by now apply digits_avoid.
  change (":" ++ mm ++ ":" ++ ss ++ String sep ff)
    with (String ":" (mm ++ ":" ++ ss ++ String sep ff)).
  cbn [replace_first]. change (Ascii.eqb ":" ",") with false. cbv iota.
  rewrite (replace_first_app _ _ mm) by now apply digits_avoid.
  change (":" ++ ss ++ String sep ff) with (String ":" (ss ++ String sep ff)).
  cbn [replace_first]. change (Ascii.eqb ":" ",") with false. cbv iota.
  rewrite (replace_first_app _ _ ss) by now apply digits_avoid.
  cbn [replace_first].
  destruct Hsep as [-> | ->].
  - reflexivity.
  - change (Ascii.eqb "." ",") with false. cbv iota.
    rewrite replace_first_avoids by now apply digits_avoid.
    reflexivity.
Qed.

Lemma token_parts :
  split ":" (replace_first "," "." token) = [hh; mm; ss ++ String "." ff].
Proof.
  rewrite token_normalised.
  rewrite (split_piece ":" "" hh) by now apply digits_avoid.
  rewrite (split_piece ":" "" mm) by now apply digits_avoid.
  rewrite split_last; [reflexivity |].
  rewrite avoids_app. cbn [avoids string_forallb].
  change (Ascii.eqb "." ":") with false.
  rewrite !digits_avoid by auto. reflexivity.
Qed.

Lemma parseTime_fields :
  parseTime (Some token)
  = Num.add
      (Num.add (Num.mul (Num.of_Z (digits_value 0 hh)) (Num.of_Z 3600))
               (Num.mul (Num.of_Z (digits_value 0 mm)) (Num.of_Z 60)))
      (Num.of_decimal (digits_value 0 (ss ++ ff))
                      (- Z.of_nat (String.length ff))).
Proof.
  unfold parseTime.
  assert (E : is_empty token = false).
  { unfold token. destruct hh; [discriminate | reflexivity]. }
  rewrite E, token_parts. cbn [element nth].
  rewrite (parseFloat_integer hh), (parseFloat_integer mm) by assumption.
  now rewrite (parseFloat_decimal ss ff).
Qed.

End Fields.

(** A token that matches the timecode pattern is made of such fields. *)
Lemma timecode_shape tok :
  matches_exactly timecode_re tok = true ->
  exists hh mm ss ff sep,
    tok = hh ++ ":" ++ mm ++ ":" ++ ss ++ String sep ff
    /\ (string_forallb is_digit hh = true /\ String.length hh = 2%nat)
    /\ (string_forallb is_digit mm = true /\ String.length mm = 2%nat)
    /\ (string_forallb is_digit ss = true /\ String.length ss = 2%nat)
    /\ (string_forallb is_digit ff = true /\ String.length ff = 3%nat)
    /\ (sep = ","%char \/ sep = "."%char)
    /\ hh = substring 0 2 tok /\ mm = substring 3 2 tok
    /\ ss = substring 6 2 tok /\ ff = substring 9 3 tok.
Proof.
  unfold matches_exactly. intros H. apply andb_true_iff in H as [H L].
  destruct tok as [| h1 [| h2 [| c1 [| m1 [| m2 [| c2 [| s1 [| s2 [| p
    [| f1 [| f2 [| f3 [| x tok]]]]]]]]]]]]]; try discriminate.
  cbn [timecode_re match_prefix] in H.
  repeat (apply andb_true_iff in H; destruct H as [?H H]).
  repeat match goal with
         | K : lit _ _ = true |- _ => apply lit_eq in K; subst
         end.
  exists (String h1 (String h2 "")), (String m1 (String m2 "")),
    (String s1 (String s2 "")), (String f1 (String f2 (String f3 ""))), p.
  cbn [string_forallb String.length].
  repeat match goal with
         | K : is_digit _ = true |- _ => rewrite K; clear K
         end.
  repeat split; auto using comma_or_dot_cases.
Qed.

Lemma parseTime_timecode tok :
  matches_exactly timecode_re tok = true ->
  parseTime (Some tok) = timecode_seconds tok.
Proof.
  intros H.
  destruct (timecode_shape tok H)
    as (hh & mm & ss & ff & sep & E & [Hh Lh] & [Hm Lm] & [Hs Ls] & [Hf Lf]
        & Hsep & Eh & Em & Es & Ef).
  unfold timecode_seconds, field. rewrite <- Eh, <- Em, <- Es, <- Ef, E.
  assert (N : forall s, String.length s = 2%nat -> is_empty s = false)
    by (intros [| ? ?]; [discriminate | reflexivity]).
  rewrite parseTime_fields by auto.
  rewrite Lf. do 2 f_equal.
  destruct ss as [| a [| b [| ? ?]]]; try discriminate.
  destruct ff as [| x [| y [| z [| ? ?]]]]; try discriminate.
  cbn [append digits_value]. lia.
Qed.

(** ** One iteration of the parser loop *)

Lemma trim_right_nonspace s :
  string_forallb (fun c => negb (is_space c)) s = true -> trim_right s = s.
Proof.
  induction s as [| c s IH]; simpl; [reflexivity |].
  intros H. apply andb_true_iff in H as [Hc Hs].
  apply negb_true_iff in Hc. now rewrite Hc, IH.
Qed.

Lemma trim_nonspace s :
  string_forallb (fun c => negb (is_space c)) s = true -> trim s = s.
Proof.
  intros H. unfold trim. destruct s as [| c s]; [reflexivity |].
  pose proof H as H'. simpl in H'. apply andb_true_iff in H' as [Hc _].
  apply negb_true_iff in Hc. rewrite (trim_left_nonspace c s Hc).
  now apply trim_right_nonspace.
Qed.

Lemma digits_nonspace s :
  string_forallb is_digit s = true ->
  string_forallb (fun c => negb (is_space c)) s = true.
Proof.
  apply string_forallb_impl. intros c Hc. now rewrite (digit_not_space c Hc).
Qed.

Lemma all_digits_not_timing line :
  all_digits line = true -> re_search timing_re line = false.
Proof.
  intros H. destruct (re_search timing_re line) eqn:E; [| reflexivity].
  apply timing_line_not_digits in E. congruence.
Qed.

Lemma all_digits_not_empty line : all_digits line = true -> is_empty line = false.
Proof.
  unfold all_digits. intros H. apply andb_true_iff in H as [H _].
  now apply negb_true_iff in H.
Qed.

Lemma step_trim raw st : step raw st = step (trim raw) st.
Proof. unfold step. now rewrite trim_idem. Qed.

Lemma step_index raw st :
  all_digits (trim raw) = true -> currentSub st = None ->
  step raw st = Normal st.
Proof. intros H E. unfold step. now rewrite H, E. Qed.

Lemma step_timing raw st :
  re_search timing_re (trim raw) = true ->
  exists t0 t1 rest,
    split "-->" (trim raw) = t0 :: t1 :: rest
    /\ step raw st
       = Normal (mkState (subtitles st)
                   (Some (mkCue (parseTime (Some (remove_spaces t0)))
                                (parseTime (Some (remove_spaces t1))) ""))).
Proof.
  intros H. destruct (timing_line_split _ H) as (t0 & t1 & rest & E).
  exists t0, t1, rest. split; [exact E |].
  unfold step. now rewrite (timing_line_not_digits _ H), H, E.
Qed.

Lemma step_blank raw st :
  is_empty (trim raw) = true ->
  step raw st
  = Normal match currentSub st with
           | Some c => mkState (subtitles st ++ [c])%list None
           | None => st
           end.
Proof.
  intros H. apply is_empty_true in H. unfold step. rewrite H.
  now destruct (currentSub st).
Qed.

Lemma step_text raw st c :
  is_empty (trim raw) = false -> re_search timing_re (trim raw) = false ->
  currentSub st = Some c ->
  step raw st = Normal (mkState (subtitles st) (Some (append_line c (trim raw)))).
Proof.
  intros H1 H2 E. unfold step. rewrite E, H1, H2. cbn [is_null].
  now rewrite andb_false_r.
Qed.

Lemma step_stray raw st :
  re_search timing_re (trim raw) = false -> currentSub st = None ->
  step raw st = Normal st.
Proof.
  intros H E. unfold step. rewrite H, E.
  destruct (all_digits (trim raw)); [reflexivity |].
  now destruct (is_empty (trim raw)).
Qed.

Lemma step_total raw st : exists st', step raw st = Normal st'.
Proof.
  destruct (re_search timing_re (trim raw)) eqn:T.
  - destruct (step_timing raw st T) as (t0 & t1 & rest & _ & E). eauto.
  - destruct (currentSub st) as [c |] eqn:C.
    + destruct (is_empty (trim raw)) eqn:B.
      * rewrite (step_blank raw st B). eauto.
      * rewrite (step_text raw st c B T C). eauto.
    + rewrite (step_stray raw st T C). eauto.
Qed.

(** ** The whole loop *)

Lemma scan_app l1 l2 st : scan (l1 ++ l2)%list st = bind (scan l1 st) (scan l2).
Proof.
  revert st. induction l1 as [| l l1 IH]; intros st; simpl; [reflexivity |].
  destruct (step l st) as [st' | e]; simpl; [apply IH | reflexivity].
Qed.

Lemma scan_total lines st : exists st', scan lines st = Normal st'.
Proof.
  revert st. induction lines as [| l lines IH]; intros st; simpl; [eauto |].
  destruct (step_total l st) as [st' ->]. apply IH.
Qed.

Lemma parseSRT_total rawData : exists cues, parseSRT rawData = Normal cues.
Proof.
  unfold parseSRT.
  destruct (scan_total (lines_of rawData) (mkState [] None)) as [st ->].
  simpl. eauto.
Qed.

Section Invariant.

Variable P : Cue -> Prop.
Hypothesis P_append : forall c l, P c -> P (append_line c l).

Lemma step_invariant raw st st' :
  (forall t0 t1 rest,
      re_search timing_re (trim raw) = true ->
      split "-->" (trim raw) = t0 :: t1 :: rest ->
      P (mkCue (parseTime (Some (remove_spaces t0)))
               (parseTime (Some (remove_spaces t1))) "")) ->
  state_all P st -> step raw st = Normal st' -> state_all P st'.
Proof.
  intros Hnew [Hs Hc] E.
  destruct (re_search timing_re (trim raw)) eqn:T.
  - destruct (step_timing raw st T) as (t0 & t1 & rest & Esp & E').
    rewrite E' in E. injection E as <-. split; [exact Hs |].
    cbn [currentSub]. now apply (Hnew t0 t1 rest).
  - destruct (currentSub st) as [c |] eqn:C.
    + destruct (is_empty (trim raw)) eqn:B.
      * rewrite (step_blank raw st B), C in E. injection E as <-.
        split; [| exact I]. cbn [subtitles].
        apply Forall_app. split; [exact Hs | now constructor].
      * rewrite (step_text raw st c B T C) in E. injection E as <-.
        split; [exact Hs |]. cbn [currentSub]. now apply P_append.
    + rewrite (step_stray raw st T C) in E. injection E as <-.
      split; [exact Hs |]. now rewrite C.
Qed.

Lemma scan_invariant lines st st' :
  (forall raw t0 t1 rest,
      In raw lines ->
      re_search timing_re (trim raw) = true ->
      split "-->" (trim raw) = t0 :: t1 :: rest ->
      P (mkCue (parseTime (Some (remove_spaces t0)))
               (parseTime (Some (remove_spaces t1))) "")) ->
  state_all P st -> scan lines st = Normal st' -> state_all P st'.
Proof.
  revert st. induction lines as [| l lines IH]; intros st Hnew Hst E.
  - simpl in E. now injection E as <-.
  - simpl in E. destruct (step l st) as [st1 | e] eqn:E1; [| discriminate].
    simpl in E. apply (IH st1); [| | exact E].
    + intros raw t0 t1 rest Hin. apply Hnew. now right.
    + apply (step_invariant l st st1); [| exact Hst | exact E1].
      intros t0 t1 rest. apply Hnew. now left.
Qed.

Lemma parseSRT_invariant rawData cues :
  (forall raw t0 t1 rest,
      In raw (lines_of rawData) ->
      re_search timing_re (trim raw) = true ->
      split "-->" (trim raw) = t0 :: t1 :: rest ->
      P (mkCue (parseTime (Some (remove_spaces t0)))
               (parseTime (Some (remove_spaces t1))) "")) ->
  parseSRT rawData = Normal cues -> Forall P cues.
Proof.
  intros Hnew E. unfold parseSRT in E.
  destruct (scan (lines_of rawData) (mkState [] None)) as [st | e] eqn:Es;
    [| discriminate].
  simpl in E. injection E as <-.
  assert (H : state_all P st).
  { apply (scan_invariant _ _ _ Hnew) in Es; [exact Es |].
    split; [constructor | exact I]. }
  destruct H as [Hs Hc]. unfold finish.
  destruct (currentSub st) as [c |]; [| exact Hs].
  apply Forall_app. split; [exact Hs | now constructor].
Qed.

End Invariant.

(** ** Timing lines written with one white-space character on each side
       of the arrow *)

Lemma timecode_char_not_space c : timecode_char c = true -> is_space c = false.
Proof. ascii_cases c. Qed.

Lemma timecode_char_neq c x :
  timecode_char c = true -> timecode_char x = false -> Ascii.eqb c x = false.
Proof.
  intros Hc Hx. destruct (Ascii.eqb_spec c x); [subst; congruence | reflexivity].
Qed.

Lemma matches_exactly_forall (q : ascii -> bool) p s :
  Forall (fun k : char_class => forall c, k c = true -> q c = true) p ->
  matches_exactly p s = true -> string_forallb q s = true.
Proof.
  unfold matches_exactly. intros Hp. revert s.
  induction Hp as [| k p Hk _ IH]; intros s H.
  - destruct s; [reflexivity |]. now rewrite andb_false_r in H.
  - destruct s as [| c s]; [discriminate |].
    cbn [match_prefix String.length List.length Nat.eqb] in H.
    apply andb_true_iff in H as [H L]. apply andb_true_iff in H as [Hc H].
    cbn [string_forallb]. rewrite (Hk c Hc), IH; [reflexivity |].
    now rewrite H, L.
Qed.

Lemma timecode_chars tok :
  matches_exactly timecode_re tok = true ->
  string_forallb timecode_char tok = true.
Proof.
  apply matches_exactly_forall. unfold timecode_re, timecode_char.
  repeat constructor; unfold lit, comma_or_dot; intros c H;
    try rewrite H; try (apply orb_true_iff in H as [-> | ->]);
    rewrite ?orb_true_r; reflexivity.
Qed.

Lemma timecode_nonspace tok :
  matches_exactly timecode_re tok = true ->
  string_forallb (fun c => negb (is_space c)) tok = true.
Proof.
  intros H. apply (string_forallb_impl timecode_char); [| now apply timecode_chars].
  intros c Hc. now rewrite (timecode_char_not_space c Hc).
Qed.

Lemma timecode_avoids a tok :
  timecode_char a = false -> matches_exactly timecode_re tok = true ->
  avoids a tok = true.
Proof.
  intros Ha H. apply (string_forallb_impl timecode_char); [| now apply timecode_chars].
  intros c Hc. now rewrite (timecode_char_neq c a Hc Ha).
Qed.

Lemma timecode_not_empty tok :
  matches_exactly timecode_re tok = true -> is_empty tok = false.
Proof. destruct tok; [discriminate | reflexivity]. Qed.

Lemma match_prefix_intro p q a b :
  matches_exactly p a = true ->
  match_prefix (p ++ q)%list (a ++ b) = match_prefix q b.
Proof.
  unfold matches_exactly. revert a. induction p as [| k p IH]; intros a H.
  - destruct a; [reflexivity |]. now rewrite andb_false_r in H.
  - destruct a as [| c a]; [discriminate |].
    cbn [match_prefix String.length List.length Nat.eqb] in H.
    apply andb_true_iff in H as [H L]. apply andb_true_iff in H as [Hc H].
    cbn [app append match_prefix]. rewrite Hc, IH; [reflexivity |].
    now rewrite H, L.
Qed.

Lemma match_prefix_exact p a : matches_exactly p a = true -> match_prefix p a = true.
Proof. unfold matches_exactly. intros H. now apply andb_true_iff in H. Qed.

Lemma re_search_here p s : match_prefix p s = true -> re_search p s = true.
Proof. intros H. destruct s; simpl in *; now rewrite H. Qed.

Section ExactTimingLine.

Variables t1 t2 : string.
Variables w1 w2 : ascii.
Hypothesis Ht1 : matches_exactly timecode_re t1 = true.
Hypothesis Ht2 : matches_exactly timecode_re t2 = true.
Hypothesis Hw1 : is_space w1 = true.
Hypothesis Hw2 : is_space w2 = true.

Let line : string := arrow_line t1 w1 w2 t2.

Lemma arrow_line_trimmed : trim line = line.
Proof.
  unfold trim, line, arrow_line.
  pose proof (timecode_nonspace t1 Ht1) as N1.
  pose proof (timecode_nonspace t2 Ht2) as N2.
  assert (L : trim_left (t1 ++ String w1 ("-->" ++ String w2 t2))
              = t1 ++ String w1 ("-->" ++ String w2 t2)).
  { destruct t1 as [| c r]; [discriminate |].
    cbn [string_forallb] in N1. apply andb_true_iff in N1 as [Hc _].
    apply negb_true_iff in Hc. cbn [append]. now apply trim_left_nonspace. }
  rewrite L.
  replace (t1 ++ String w1 ("-->" ++ String w2 t2))
    with ((t1 ++ String w1 ("-->" ++ String w2 "")) ++ t2)
    by (rewrite append_assoc; reflexivity).
  rewrite trim_right_app; rewrite (trim_right_nonspace t2 N2);
    [reflexivity | now apply timecode_not_empty].
Qed.

Lemma arrow_line_matches : re_search timing_re line = true.
Proof.
  apply re_search_here. unfold timing_re, line, arrow_line.
  rewrite (match_prefix_intro _ _ _ _ Ht1).
  cbn [arrow_re app append match_prefix]. unfold lit at 1 2 3.
  rewrite Hw1, Hw2. cbn [Ascii.eqb Bool.eqb andb].
  now apply match_prefix_exact.
Qed.

Lemma arrow_line_split :
  split "-->" line = [t1 ++ String w1 ""; String w2 t2].
Proof.
  unfold line, arrow_line.
  replace (t1 ++ String w1 ("-->" ++ String w2 t2))
    with ((t1 ++ String w1 "") ++ "-->" ++ String w2 t2)
    by (rewrite append_assoc; reflexivity).
  rewrite (split_piece "-" "->").
  - rewrite split_last; [reflexivity |].
    cbn [avoids string_forallb]. rewrite (space_neq w2 "-" Hw2 eq_refl).
    now apply (timecode_avoids "-").
  - rewrite avoids_app. rewrite (timecode_avoids "-" t1 eq_refl Ht1).
    cbn [avoids string_forallb]. now rewrite (space_neq w1 "-" Hw1 eq_refl).
Qed.

Lemma arrow_line_tokens :
  remove_spaces (t1 ++ String w1 "") = t1 /\ remove_spaces (String w2 t2) = t2.
Proof.
  rewrite remove_spaces_app. cbn [remove_spaces]. rewrite Hw1, Hw2.
  rewrite !remove_spaces_none by now apply timecode_nonspace.
  now rewrite append_nil_r.
Qed.

Lemma step_arrow_line raw st :
  trim raw = line ->
  step raw st
  = Normal (mkState (subtitles st)
              (Some (mkCue (timecode_seconds t1) (timecode_seconds t2) ""))).
Proof.
  intros E.
  assert (T : re_search timing_re (trim raw) = true)
    by (rewrite E; apply arrow_line_matches).
  destruct (step_timing raw st T) as (t0 & t1' & rest & Es & ->).
  rewrite E, arrow_line_split in Es. injection Es as <- <- _.
  destruct arrow_line_tokens as [-> ->].
  now rewrite !parseTime_timecode.
Qed.

End ExactTimingLine.

(** ** Timing lines with any white space around the arrow *)

Lemma string_snoc_cases s : s = "" \/ exists s' c, s = s' ++ String c "".
Proof.
  induction s as [| a s IH]; [now left | right].
  destruct IH as [-> | (s' & c & ->)].
  - now exists "", a.
  - now exists (String a s'), c.
Qed.

Lemma snoc_inj s c s' c' :
  s ++ String c "" = s' ++ String c' "" -> s = s' /\ c = c'.
Proof.
  revert s'. induction s as [| a s IH]; intros [| a' s'] H; cbn [append] in H.
  - now injection H.
  - injection H as _ H. now destruct s'.
  - injection H as _ H. now destruct s.
  - injection H as -> H. destruct (IH _ H) as [-> ->]. now split.
Qed.

Lemma count_char_app a s t :
  count_char a (s ++ t) = (count_char a s + count_char a t)%nat.
Proof.
  induction s as [| c s IH]; [reflexivity |].
  cbn [append count_char]. rewrite IH. lia.
Qed.

Lemma count_char_avoids a s : avoids a s = true <-> count_char a s = 0%nat.
Proof.
  induction s as [| c s IH]; [now split |].
  cbn [avoids string_forallb count_char]. fold (avoids a s).
  destruct (Ascii.eqb c a); cbn [negb andb]; [split; [discriminate | lia] |].
  exact IH.
Qed.

(** The text before the first occurrence of a character, and the text
    after it, are determined. *)
Lemma first_occurrence a x1 y1 x2 y2 :
  avoids a x1 = true -> avoids a x2 = true ->
  x1 ++ String a y1 = x2 ++ String a y2 -> x1 = x2 /\ y1 = y2.
Proof.
  revert x2. induction x1 as [| c x1 IH]; intros [| c' x2] H1 H2 E;
    cbn [append] in E.
  - now injection E.
  - injection E as <- _. cbn [avoids string_forallb] in H2.
    now rewrite Ascii.eqb_refl in H2.
  - injection E as -> _. cbn [avoids string_forallb] in H1.
    now rewrite Ascii.eqb_refl in H1.
  - injection E as -> E. cbn [avoids string_forallb] in H1, H2.
    apply andb_true_iff in H1 as [_ H1]. apply andb_true_iff in H2 as [_ H2].
    destruct (IH _ H1 H2 E) as [-> ->]. now split.
Qed.

Lemma spaces_avoid a s :
  is_space a = false -> string_forallb is_space s = true -> avoids a s = true.
Proof.
  intros Ha. apply string_forallb_impl.
  intros c Hc. now rewrite (space_neq c a Hc Ha).
Qed.

Lemma timecode_first tok :
  match_prefix timecode_re tok = true ->
  exists d r, tok = String d r /\ is_digit d = true.
Proof.
  destruct tok as [| d r]; [discriminate |].
  cbn [timecode_re match_prefix]. intros H.
  apply andb_true_iff in H as [Hd _]. now exists d, r.
Qed.

Lemma timecode_last tok :
  matches_exactly timecode_re tok = true ->
  exists r d, tok = r ++ String d "" /\ is_digit d = true.
Proof.
  intros H.
  destruct (timecode_shape tok H)
    as (hh & mm & ss & ff & sep & -> & _ & _ & _ & [Hf Lf] & _).
  destruct ff as [| x [| y [| z [| ? ?]]]]; try discriminate.
  cbn [string_forallb] in Hf. rewrite !andb_true_iff in Hf.
  exists (hh ++ ":" ++ mm ++ ":" ++ ss ++ String sep (String x (String y ""))), z.
  split; [| tauto]. now rewrite !append_assoc.
Qed.

Section SpacedArrowLine.

Variables t1 t2 ws1 ws2 : string.
Hypothesis Ht1 : matches_exactly timecode_re t1 = true.
Hypothesis Ht2 : matches_exactly timecode_re t2 = true.
Hypothesis Hws1 : string_forallb is_space ws1 = true.
Hypothesis Hws2 : string_forallb is_space ws2 = true.

Lemma spaced_arrow_line_dashes :
  count_char "-" (spaced_arrow_line t1 ws1 ws2 t2) = 2%nat.
Proof.
  unfold spaced_arrow_line. rewrite !count_char_app.
  rewrite (proj1 (count_char_avoids "-" t1) (timecode_avoids "-" t1 eq_refl Ht1)).
  rewrite (proj1 (count_char_avoids "-" t2) (timecode_avoids "-" t2 eq_refl Ht2)).
  rewrite (proj1 (count_char_avoids "-" ws1) (spaces_avoid "-" ws1 eq_refl Hws1)).
  rewrite (proj1 (count_char_avoids "-" ws2) (spaces_avoid "-" ws2 eq_refl Hws2)).
  reflexivity.
Qed.

Lemma spaced_arrow_line_one_each :
  re_search timing_re (spaced_arrow_line t1 ws1 ws2 t2) = true ->
  String.length ws1 = 1%nat /\ String.length ws2 = 1%nat.
Proof.
  intros H.
  destruct (timing_line_shape _ H)
    as (pre & u1 & a & b & r & E & Hu1 & Ha & Hb & Hr).
  pose proof spaced_arrow_line_dashes as C. rewrite E in C.
  rewrite !count_char_app in C. cbn [count_char] in C.
  rewrite !count_char_app in C. cbn [count_char] in C.
  change (Ascii.eqb "-" "-") with true in C.
  rewrite (space_neq a "-" Ha eq_refl), (space_neq b "-" Hb eq_refl) in C.
  change (Ascii.eqb ">" "-") with false in C. cbv iota in C.
  assert (Hpre : avoids "-" pre = true) by (apply count_char_avoids; lia).
  clear C.
  assert (E' : (t1 ++ ws1) ++ String "-" ("->" ++ ws2 ++ t2)
               = (pre ++ u1 ++ String a "") ++ String "-" ("->" ++ String b r)).
  { unfold spaced_arrow_line in E. rewrite !append_assoc. exact E. }
  apply first_occurrence in E' as [Ex Ey].
  - cbn [append] in Ey. injection Ey as Ey.
    destruct (timecode_first r Hr) as (d & r' & -> & Hd).
    destruct (timecode_first t2 (match_prefix_exact _ _ Ht2)) as (d2 & r2 & E2 & Hd2).
    split.
    + destruct (string_snoc_cases ws1) as [-> | (ws1' & c & ->)].
      * rewrite append_nil_r in Ex.
        destruct (timecode_last t1 Ht1) as (r1 & d1 & E1 & Hd1).
        rewrite E1, <- append_assoc in Ex. apply snoc_inj in Ex as [_ <-].
        apply digit_not_space in Hd1. congruence.
      * rewrite <- !append_assoc in Ex. apply snoc_inj in Ex as [Ex _].
        destruct (string_snoc_cases ws1') as [-> | (ws1'' & c' & ->)];
          [reflexivity |].
        destruct (timecode_last u1 Hu1) as (r1 & d1 & E1 & Hd1).
        rewrite E1, <- !append_assoc in Ex. apply snoc_inj in Ex as [_ ->].
        rewrite !string_forallb_app in Hws1. cbn [string_forallb] in Hws1.
        rewrite !andb_true_iff in Hws1.
        apply digit_not_space in Hd1. destruct Hws1 as [[_ [Hs _]] _].
        congruence.
    + destruct ws2 as [| w [| w' ws2']]; [| reflexivity |].
      * cbn [append] in Ey. rewrite E2 in Ey. injection Ey as -> _.
        apply digit_not_space in Hd2. congruence.
      * cbn [append] in Ey. injection Ey as _ <- _.
        cbn [string_forallb] in Hws2. rewrite !andb_true_iff in Hws2.
        apply digit_not_space in Hd. destruct Hws2 as [_ [Hs _]]. congruence.
  - rewrite avoids_app, (timecode_avoids "-" t1 eq_refl Ht1).
    now apply spaces_avoid.
  - rewrite !avoids_app, Hpre, (timecode_avoids "-" u1 eq_refl Hu1).
    cbn [avoids string_forallb]. now rewrite (space_neq a "-" Ha eq_refl).
Qed.

End SpacedArrowLine.

(** ** Text lines of a cue *)

Lemma join_head_app sep a b r : join sep ((a ++ b) :: r) = a ++ join sep (b :: r).
Proof. destruct r; cbn [join]; [reflexivity | now rewrite append_assoc]. Qed.

Lemma fold_append_line_times ls c :
  start (fold_left append_line ls c) = start c
  /\ end_ (fold_left append_line ls c) = end_ c.
Proof.
  revert c. induction ls as [| l ls IH]; intros c; [now split |].
  cbn [fold_left]. destruct (IH (append_line c l)) as [-> ->]. now split.
Qed.

Lemma fold_append_line_text ls c :
  is_empty (text c) = false ->
  text (fold_left append_line ls c) = join CR (text c :: ls).
Proof.
  revert c. induction ls as [| l ls IH]; intros c Hc; [reflexivity |].
  cbn [fold_left]. rewrite IH.
  - cbn [append_line text]. rewrite Hc.
    rewrite join_head_app. destruct ls; reflexivity.
  - cbn [append_line text]. rewrite Hc. destruct (text c); [discriminate | reflexivity].
Qed.

Lemma fold_append_line_fresh ls c :
  text c = "" -> Forall (fun l => is_empty l = false) ls ->
  text (fold_left append_line ls c) = join CR ls.
Proof.
  intros Hc Hls. destruct Hls as [| l ls Hl Hls]; [exact Hc |].
  cbn [fold_left]. rewrite fold_append_line_text.
  - cbn [append_line text]. now rewrite Hc.
  - cbn [append_line text]. now rewrite Hc.
Qed.

Lemma scan_text_lines ls subs c :
  forallb is_text_line ls = true ->
  scan ls (mkState subs (Some c))
  = Normal (mkState subs (Some (fold_left append_line (map trim ls) c))).
Proof.
  revert c. induction ls as [| l ls IH]; intros c H; [reflexivity |].
  cbn [forallb] in H. apply andb_true_iff in H as [Hl Hls].
  unfold is_text_line in Hl. apply andb_true_iff in Hl as [B T].
  apply negb_true_iff in B, T.
  cbn [scan]. rewrite (step_text l (mkState subs (Some c)) c B T eq_refl).
  cbn [bind subtitles].
  now rewrite IH.
Qed.

Lemma text_lines_not_empty ls :
  forallb is_text_line ls = true ->
  Forall (fun l => is_empty l = false) (map trim ls).
Proof.
  induction ls as [| l ls IH]; intros H; [constructor |].
  cbn [forallb] in H. apply andb_true_iff in H as [Hl Hls].
  unfold is_text_line in Hl. apply andb_true_iff in Hl as [B _].
  apply negb_true_iff in B. constructor; auto.
Qed.

(** ** Documents made of lines *)

Lemma replace_crlf_app l r :
  avoids "013" l = true -> replace_crlf (l ++ r) = l ++ replace_crlf r.
Proof.
  induction l as [| c l IH]; intros H; [reflexivity |].
  cbn [avoids string_forallb] in H. apply andb_true_iff in H as [Hc Hl].
  apply negb_true_iff in Hc. cbn [append replace_crlf]. rewrite Hc.
  cbn [andb]. now rewrite (IH Hl).
Qed.

Lemma replace_cr_app l r :
  avoids "013" l = true -> replace_cr (l ++ r) = l ++ replace_cr r.
Proof.
  induction l as [| c l IH]; intros H; [reflexivity |].
  cbn [avoids string_forallb] in H. apply andb_true_iff in H as [Hc Hl].
  apply negb_true_iff in Hc. cbn [append replace_cr]. now rewrite Hc, (IH Hl).
Qed.

(** Whatever the line ending, the first line of a document is what comes
    before the first ending.  After a bare carriage return the rest must
    not start with a line feed, or the two would read as one ending. *)
Lemma lines_of_cons e l rest :
  no_line_break l = true ->
  (e = ending_CR -> starts_with LF rest = false) ->
  lines_of (l ++ ending_string e ++ rest) = l :: lines_of rest.
Proof.
  intros Hl Hrest. unfold no_line_break in Hl.
  apply andb_true_iff in Hl as [Hcr Hlf].
  unfold lines_of. rewrite (replace_crlf_app l _ Hcr).
  assert (E : replace_cr (replace_crlf (ending_string e ++ rest))
              = LF ++ replace_cr (replace_crlf rest)).
  { destruct e; cbn [ending_string CR LF append replace_crlf].
    - reflexivity.
    - reflexivity.
    - fold LF. rewrite (Hrest eq_refl). reflexivity. }
  rewrite (replace_cr_app l _ Hcr), E.
  unfold LF. now rewrite (split_piece "010" "" l _ Hlf).
Qed.

Lemma starts_with_avoids a s :
  avoids a s = true -> starts_with (String a "") s = false.
Proof.
  destruct s as [| c s]; [reflexivity |].
  cbn [avoids string_forallb starts_with]. intros H.
  apply andb_true_iff in H as [Hc _]. apply negb_true_iff in Hc.
  now rewrite Ascii.eqb_sym, Hc.
Qed.

Lemma no_line_break_LF ls :
  forallb no_line_break ls = true -> forallb (avoids "010") ls = true.
Proof.
  induction ls as [| l ls IH]; intros H; [reflexivity |].
  cbn [forallb] in *. apply andb_true_iff in H as [Hl Hls].
  unfold no_line_break in Hl. apply andb_true_iff in Hl as [_ ->]. now apply IH.
Qed.

Lemma unlines_CR_avoids_LF ls :
  forallb (avoids "010") ls = true -> avoids "010" (unlines ending_CR ls) = true.
Proof.
  induction ls as [| l ls IH]; intros H; [reflexivity |].
  cbn [forallb] in H. apply andb_true_iff in H as [Hl Hls].
  cbn [unlines ending_string]. rewrite !avoids_app, Hl, (IH Hls). reflexivity.
Qed.

Lemma join_CR_avoids_LF ls :
  forallb (avoids "010") ls = true -> avoids "010" (join CR ls) = true.
Proof.
  induction ls as [| l ls IH]; intros H; [reflexivity |].
  cbn [forallb] in H. apply andb_true_iff in H as [Hl Hls].
  destruct ls as [| l' ls]; [exact Hl |].
  change (join CR (l :: l' :: ls)) with (l ++ CR ++ join CR (l' :: ls)).
  rewrite !avoids_app, Hl, (IH Hls). reflexivity.
Qed.

Lemma lines_of_unlines e ls :
  forallb no_line_break ls = true ->
  lines_of (unlines e ls) = (ls ++ [""])%list.
Proof.
  induction ls as [| l ls IH]; intros H; [reflexivity |].
  cbn [forallb] in H. apply andb_true_iff in H as [Hl Hls].
  cbn [unlines app]. rewrite (lines_of_cons e l _ Hl), (IH Hls); [reflexivity |].
  intros ->. apply (starts_with_avoids "010"), unlines_CR_avoids_LF.
  now apply no_line_break_LF.
Qed.

Lemma lines_of_line l : no_line_break l = true -> lines_of l = [l].
Proof.
  unfold no_line_break. intros H. apply andb_true_iff in H as [Hcr Hlf].
  unfold lines_of.
  rewrite (replace_crlf_avoids l Hcr), (replace_cr_avoids l Hcr).
  now apply split_last.
Qed.

Lemma lines_of_join e ls :
  forallb no_line_break ls = true -> has_lines ls = true ->
  lines_of (join (ending_string e) ls) = ls.
Proof.
  induction ls as [| l ls IH]; intros H N; [discriminate |].
  cbn [forallb] in H. apply andb_true_iff in H as [Hl Hls].
  destruct ls as [| l' ls].
  - cbn [join]. now apply lines_of_line.
  - change (join (ending_string e) (l :: l' :: ls))
      with (l ++ ending_string e ++ join (ending_string e) (l' :: ls)).
    rewrite (lines_of_cons e l _ Hl), (IH Hls eq_refl); [reflexivity |].
    intros ->. apply (starts_with_avoids "010"), join_CR_avoids_LF.
    now apply no_line_break_LF.
Qed.

(** ** Blocks *)

Section Block.

Variable b : block.
Hypothesis wf : well_formed b = true.

Lemma wf_parts :
  all_digits (index_line b) = true
  /\ matches_exactly timecode_re (start_code b) = true
  /\ matches_exactly timecode_re (end_code b) = true
  /\ has_lines (text_lines b) = true
  /\ forallb is_text_line (text_lines b) = true
  /\ forallb no_line_break (text_lines b) = true.
Proof.
  pose proof wf as H. unfold well_formed in H.
  apply andb_true_iff in H as [H Ht]. apply andb_true_iff in H as [H Hn].
  apply andb_true_iff in H as [H He]. apply andb_true_iff in H as [Hi Hs].
  repeat split; try assumption.
  - clear - Ht. induction (text_lines b) as [| l ls IH]; [reflexivity |].
    cbn [forallb] in *. apply andb_true_iff in Ht as [Hl Hls].
    apply andb_true_iff in Hl as [-> _]. now apply IH.
  - clear - Ht. induction (text_lines b) as [| l ls IH]; [reflexivity |].
    cbn [forallb] in *. apply andb_true_iff in Ht as [Hl Hls].
    apply andb_true_iff in Hl as [_ ->]. now apply IH.
Qed.

Lemma index_line_digits : string_forallb is_digit (index_line b) = true.
Proof.
  destruct wf_parts as (H & _). unfold all_digits in H.
  now apply andb_true_iff in H.
Qed.

Lemma timing_line_avoids a :
  timecode_char a = false -> Ascii.eqb " " a = false ->
  Ascii.eqb "-" a = false -> Ascii.eqb ">" a = false ->
  avoids a (timing_line b) = true.
Proof.
  intros Ha Hs H1 H2. destruct wf_parts as (_ & Hs1 & He1 & _).
  unfold timing_line, arrow_line. rewrite avoids_app.
  rewrite (timecode_avoids a _ Ha Hs1). cbn [append avoids string_forallb].
  rewrite H1, H2, Hs.
  now apply (timecode_avoids a).
Qed.

Lemma block_open_lines_unbroken :
  forallb no_line_break (block_open_lines b) = true.
Proof.
  destruct wf_parts as (_ & _ & _ & _ & _ & Ht).
  unfold block_open_lines. cbn [forallb]. rewrite Ht, andb_true_r.
  unfold no_line_break.
  rewrite (digits_avoid "013" _ eq_refl index_line_digits).
  rewrite (digits_avoid "010" _ eq_refl index_line_digits).
  rewrite (timing_line_avoids "013"), (timing_line_avoids "010");
    reflexivity.
Qed.

Lemma block_lines_unbroken : forallb no_line_break (block_lines b) = true.
Proof.
  unfold block_lines. rewrite forallb_app, block_open_lines_unbroken.
  reflexivity.
Qed.

Lemma scan_block_open subs :
  scan (block_open_lines b) (mkState subs None)
  = Normal (mkState subs (Some (block_cue b))).
Proof.
  destruct wf_parts as (Hi & Hs & He & _ & Ht & _).
  unfold block_open_lines. cbn [scan].
  rewrite step_index;
    [| now rewrite (trim_nonspace _ (digits_nonspace _ index_line_digits))
     | reflexivity].
  cbn [bind].
  rewrite (step_arrow_line (start_code b) (end_code b) " " " " Hs He
             eq_refl eq_refl)
    by (apply arrow_line_trimmed; auto).
  cbn [bind subtitles]. rewrite (scan_text_lines _ _ _ Ht).
  do 3 f_equal.
  set (c0 := mkCue (timecode_seconds (start_code b))
                   (timecode_seconds (end_code b)) "").
  destruct (fold_append_line_times (map trim (text_lines b)) c0) as [Es Ee].
  pose proof (fold_append_line_fresh (map trim (text_lines b)) c0 eq_refl
                (text_lines_not_empty _ Ht)) as Et.
  destruct (fold_left append_line (map trim (text_lines b)) c0) as [s e t].
  cbn [start end_ text] in *. subst. reflexivity.
Qed.

Lemma scan_block subs :
  scan (block_lines b) (mkState subs None)
  = Normal (mkState (subs ++ [block_cue b])%list None).
Proof.
  unfold block_lines. rewrite scan_app, scan_block_open. cbn [bind scan].
  now rewrite step_blank.
Qed.

End Block.

Lemma blocks_unbroken bs :
  forallb well_formed bs = true ->
  forallb no_line_break (flat_map block_lines bs) = true.
Proof.
  induction bs as [| b bs IH]; intros H; [reflexivity |].
  cbn [forallb] in H. apply andb_true_iff in H as [Hb Hbs].
  cbn [flat_map]. rewrite forallb_app, (block_lines_unbroken b Hb). now apply IH.
Qed.

Lemma scan_blocks bs subs :
  forallb well_formed bs = true ->
  scan (flat_map block_lines bs) (mkState subs None)
  = Normal (mkState (subs ++ map block_cue bs)%list None).
Proof.
  revert subs. induction bs as [| b bs IH]; intros subs H.
  - cbn. now rewrite app_nil_r.
  - cbn [forallb] in H. apply andb_true_iff in H as [Hb Hbs].
    cbn [flat_map map]. rewrite scan_app, (scan_block b Hb). cbn [bind].
    rewrite (IH _ Hbs). now rewrite <- app_assoc.
Qed.

(** ** The keyframe loop *)

Lemma nextStart_spec subs i :
  (i < List.length subs)%nat -> nextStart subs i = next_start_of subs i.
Proof.
  intros Hi. unfold nextStart, next_start_of.
  replace (i + 1)%nat with (S i) by lia.
  destruct (Nat.ltb_spec i (List.length subs - 1)) as [L | L].
  - destruct (nth_error subs (S i)) eqn:E; [reflexivity |].
    apply nth_error_None in E. lia.
  - assert (E : nth_error subs (S i) = None) by (apply nth_error_None; lia).
    now rewrite E.
Qed.

Lemma cue_events_expected subs fd i s :
  nth_error subs i = Some s ->
  cue_events subs fd i s = expected_events subs fd i.
Proof.
  intros E. unfold cue_events, expected_events, gap_after. rewrite E.
  rewrite nextStart_spec by (apply nth_error_Some; congruence).
  now destruct (Num.gt _ fd).
Qed.

Lemma build_loop_spec subs fd n i done :
  (i + n = List.length subs)%nat ->
  build_loop subs fd n i done
  = (done ++ flat_map (expected_events subs fd) (seq i n))%list.
Proof.
  revert i done. induction n as [| n IH]; intros i done H.
  - cbn. now rewrite app_nil_r.
  - cbn [build_loop seq flat_map].
    destruct (nth_error subs i) as [s |] eqn:E.
    + rewrite IH by lia. rewrite (cue_events_expected _ _ _ _ E).
      now rewrite <- app_assoc.
    + apply nth_error_None in E. lia.
Qed.

Lemma build_spec subs fd :
  build subs fd
  = flat_map (expected_events subs fd) (seq 0 (List.length subs)).
Proof. unfold build. now rewrite build_loop_spec. Qed.

Lemma expected_events_at subs g i s :
  nth_error subs i = Some s ->
  expected_events subs g i
  = if Num.gt (gap_after subs i s) g
    then [show_event s; clear_event s] else [show_event s].
Proof. intros E. unfold expected_events. now rewrite E. Qed.

(** ** The handler *)

Lemma onClick_parsed h subs :
  activeItem_is_comp h = true -> one_text_layer_selected h = true ->
  (10 <= String.length (srtInput_text h))%nat ->
  parseSRT (srtInput_text h) = Normal subs ->
  onClick h
  = ([beginUndoGroup]
     ++ (if modeRadio1_value h
         then duplicate_track
              :: repeat removeKey (numKeys h)
              ++ map (fun e => setValueAtTime (time e) (ev_text e))
                     (build subs (frameDuration h))
         else layers_from 0 subs)
     ++ [hide_template; endUndoGroup])%list.
Proof.
  intros Hc Hl Hn Hp. unfold onClick. rewrite Hc, Hl, Hp. cbn [negb].
  destruct (Nat.ltb_spec (String.length (srtInput_text h)) 10); [lia |].
  reflexivity.
Qed.

Lemma existsb_repeat_false {A} (p : A -> bool) (x : A) n :
  p x = false -> existsb p (repeat x n) = false.
Proof.
  intros H. induction n as [| n IH]; [reflexivity |].
  cbn [repeat existsb]. now rewrite H, IH.
Qed.

(** ** Rounding to the nearest number

    What the rounding of the library computes on positive numbers with a
    mantissa of 53 bits: the nearest multiple of a power of two, ties to
    even.  It is monotone, and the sum of two numbers is their exact sum,
    rounded. *)

(** *** Binary digits *)

Lemma digits2_pos_bounds p :
  2 ^ (Zpos (digits2_pos p) - 1) <= Zpos p < 2 ^ Zpos (digits2_pos p).
Proof.
  induction p as [p IH | p IH |]; cbn [digits2_pos].
  - rewrite Pos2Z.inj_succ, (Pos2Z.inj_xI p).
    replace (Z.succ (Zpos (digits2_pos p)) - 1)
      with (Z.succ (Zpos (digits2_pos p) - 1)) by lia.
    rewrite !Z.pow_succ_r by lia.
    set (a := 2 ^ (Zpos (digits2_pos p) - 1)) in *.
    set (b := 2 ^ Zpos (digits2_pos p)) in *. clearbody a b. lia.
  - rewrite Pos2Z.inj_succ, (Pos2Z.inj_xO p).
    replace (Z.succ (Zpos (digits2_pos p)) - 1)
      with (Z.succ (Zpos (digits2_pos p) - 1)) by lia.
    rewrite !Z.pow_succ_r by lia.
    set (a := 2 ^ (Zpos (digits2_pos p) - 1)) in *.
    set (b := 2 ^ Zpos (digits2_pos p)) in *. clearbody a b. lia.
  - cbn. lia.
Qed.

Lemma Zdigits2_bounds m :
  0 < m -> 2 ^ (Zdigits2 m - 1) <= m < 2 ^ Zdigits2 m.
Proof.
  destruct m as [| p | p]; try lia. intros _. apply digits2_pos_bounds.
Qed.

Lemma Zdigits2_pos m : 0 < m -> 1 <= Zdigits2 m.
Proof. destruct m; cbn; lia. Qed.

Lemma Zdigits2_unique m d :
  2 ^ (d - 1) <= m < 2 ^ d -> 1 <= d -> Zdigits2 m = d.
Proof.
  intros H Hd.
  assert (Hm : 0 < m) by (pose proof (Z.pow_pos_nonneg 2 (d - 1)); lia).
  pose proof (Zdigits2_bounds m Hm) as B.
  pose proof (Zdigits2_pos m Hm) as D.
  destruct (Z.lt_trichotomy (Zdigits2 m) d) as [L | [E | G]]; [| exact E |].
  - assert (2 ^ Zdigits2 m <= 2 ^ (d - 1)) by (apply Z.pow_le_mono_r; lia). lia.
  - assert (2 ^ d <= 2 ^ (Zdigits2 m - 1)) by (apply Z.pow_le_mono_r; lia). lia.
Qed.

Lemma Zdigits2_mono a b : 0 < a -> a <= b -> Zdigits2 a <= Zdigits2 b.
Proof.
  intros Ha Hab.
  pose proof (Zdigits2_bounds a Ha) as A.
  pose proof (Zdigits2_bounds b ltac:(lia)) as B.
  pose proof (Zdigits2_pos a Ha).
  destruct (Z.le_gt_cases (Zdigits2 a) (Zdigits2 b)) as [L | G]; [exact L |].
  assert (2 ^ Zdigits2 b <= 2 ^ (Zdigits2 a - 1)) by (apply Z.pow_le_mono_r; lia).
  lia.
Qed.

Lemma Zdigits2_upper m d : 0 <= m -> 0 <= d -> m < 2 ^ d -> Zdigits2 m <= d.
Proof.
  intros Hm Hd H. destruct (Z.le_gt_cases m 0) as [L | G].
  - assert (m = 0) as -> by lia. exact Hd.
  - pose proof (Zdigits2_bounds m G) as B.
    destruct (Z.le_gt_cases (Zdigits2 m) d) as [L' | G']; [exact L' |].
    assert (2 ^ d <= 2 ^ (Zdigits2 m - 1)) by (apply Z.pow_le_mono_r; lia).
    lia.
Qed.

(** The quotient [P / Q] has [d] bits exactly when [P] lies between
    [2^(d-1) Q] and [2^d Q]. *)
Lemma digits_quotient P Q d :
  0 < Q -> 1 <= d -> 2 ^ (d - 1) * Q <= P < 2 ^ d * Q ->
  Zdigits2 (P / Q) = d.
Proof.
  intros HQ Hd [L U]. apply Zdigits2_unique; [| exact Hd]. split.
  - apply Z.div_le_lower_bound; lia.
  - apply Z.div_lt_upper_bound; lia.
Qed.

Lemma quotient_bounds P Q :
  0 < Q -> 0 < P / Q ->
  2 ^ (Zdigits2 (P / Q) - 1) * Q <= P < 2 ^ Zdigits2 (P / Q) * Q.
Proof.
  intros HQ Hq. pose proof (Zdigits2_bounds _ Hq) as [L U].
  pose proof (Z.div_mod P Q ltac:(lia)) as E.
  pose proof (Z.mod_pos_bound P Q HQ) as B.
  split; nia.
Qed.

(** *** Shifting right *)

Ltac bool_cases :=
  repeat match goal with
    | |- context [?a <=? ?b] => destruct (Z.leb_spec a b)
    | |- context [?a <? ?b] => destruct (Z.ltb_spec a b)
    | |- context [?a =? ?b] => destruct (Z.eqb_spec a b)
    end.

Lemma half_xI p : Zpos p~1 / 2 = Zpos p /\ Zpos p~1 mod 2 = 1.
Proof.
  change (Zpos p~1) with (2 * Zpos p + 1). split.
  - symmetry. apply Z.div_unique with 1; lia.
  - symmetry. apply Z.mod_unique with (Zpos p); lia.
Qed.

Lemma half_xO p : Zpos p~0 / 2 = Zpos p /\ Zpos p~0 mod 2 = 0.
Proof.
  change (Zpos p~0) with (2 * Zpos p). split.
  - symmetry. apply Z.div_unique with 0; lia.
  - symmetry. apply Z.mod_unique with (Zpos p); lia.
Qed.

(** One step of the shift halves the number that the record stands for. *)
Lemma shr_1_cut P Q : 0 <= P -> 0 < Q -> shr_1 (cut P Q) = cut P (2 * Q).
Proof.
  intros HP HQ. unfold cut.
  pose proof (Z.div_mod P Q ltac:(lia)) as E.
  pose proof (Z.mod_pos_bound P Q HQ) as B.
  assert (Hq : 0 <= P / Q) by (apply Z.div_pos; lia).
  set (q := P / Q) in *. set (r := P mod Q) in *.
  assert (D : P / (2 * Q) = q / 2 /\ P mod (2 * Q) = r + Q * (q mod 2)).
  { pose proof (Z.div_mod q 2 ltac:(lia)).
    pose proof (Z.mod_pos_bound q 2 ltac:(lia)).
    split; symmetry.
    - apply Z.div_unique with (r + Q * (q mod 2)); [left |]; nia.
    - apply Z.mod_unique with (q / 2); [left |]; nia. }
  destruct D as [D1 D2]. rewrite D1, D2. clearbody q r. clear E D1 D2.
  destruct q as [| [p | p |] |]; try lia; cbn [shr_1].
  - change (0 / 2) with 0. change (0 mod 2) with 0.
    f_equal; bool_cases; cbn; lia || reflexivity.
  - destruct (half_xI p) as [-> ->]. f_equal; bool_cases; cbn; lia || reflexivity.
  - destruct (half_xO p) as [-> ->]. f_equal; bool_cases; cbn; lia || reflexivity.
  - change (1 / 2) with 0. change (1 mod 2) with 1.
    f_equal; bool_cases; cbn; lia || reflexivity.
Qed.

Lemma iter_shr_cut p :
  forall P Q, 0 <= P -> 0 < Q ->
    iter_pos shr_1 p (cut P Q) = cut P (Q * 2 ^ Zpos p).
Proof.
  induction p as [p IH | p IH |]; intros P Q HP HQ; cbn [iter_pos].
  - assert (0 < 2 ^ Zpos p) by (apply Z.pow_pos_nonneg; lia).
    rewrite shr_1_cut, !IH by nia. f_equal.
    replace (Zpos p~1) with (Zpos p + Zpos p + 1) by lia.
    rewrite !Z.pow_add_r by lia. ring.
  - assert (0 < 2 ^ Zpos p) by (apply Z.pow_pos_nonneg; lia).
    rewrite !IH by nia. f_equal.
    replace (Zpos p~0) with (Zpos p + Zpos p) by lia.
    rewrite !Z.pow_add_r by lia. ring.
  - rewrite shr_1_cut by lia. f_equal. change (2 ^ 1) with 2. ring.
Qed.

Lemma shr_cut P Q e n :
  0 <= P -> 0 < Q -> 0 <= n ->
  shr (cut P Q) e n = (cut P (Q * 2 ^ n), e + n).
Proof.
  intros HP HQ Hn. destruct n as [| p | p]; try lia; cbn [shr].
  - now rewrite Z.mul_1_r, Z.add_0_r.
  - now rewrite iter_shr_cut.
Qed.

Lemma record_of_cut P Q :
  shr_record_of_loc (P / Q) (loc_of_shr_record (cut P Q)) = cut P Q.
Proof.
  unfold cut.
  destruct (Q <=? 2 * (P mod Q)),
    (negb (P mod Q =? 0) && negb (2 * (P mod Q) =? Q)); reflexivity.
Qed.

(** *** The nearest integer *)

Lemma nearest_eq P Q :
  0 < Q ->
  nearest P Q
  = if 2 * (P mod Q) <? Q then P / Q
    else if 2 * (P mod Q) =? Q
         then (if Z.even (P / Q) then P / Q else P / Q + 1)
         else P / Q + 1.
Proof.
  intros HQ. pose proof (Z.mod_pos_bound P Q HQ) as B.
  unfold nearest, cut. cbn [shr_m loc_of_shr_record].
  bool_cases; cbn; try lia; reflexivity.
Qed.

Lemma nearest_bounds P Q : 0 < Q -> P / Q <= nearest P Q <= P / Q + 1.
Proof.
  intros HQ. rewrite nearest_eq by exact HQ.
  bool_cases; try destruct (Z.even (P / Q)); lia.
Qed.

Lemma nearest_mono P1 P2 Q :
  0 < Q -> P1 <= P2 -> nearest P1 Q <= nearest P2 Q.
Proof.
  intros HQ H.
  pose proof (nearest_bounds P1 Q HQ). pose proof (nearest_bounds P2 Q HQ).
  pose proof (Z.div_le_mono P1 P2 Q HQ H) as Hq.
  destruct (Z.eq_dec (P1 / Q) (P2 / Q)) as [E | N]; [| lia].
  pose proof (Z.div_mod P1 Q ltac:(lia)). pose proof (Z.div_mod P2 Q ltac:(lia)).
  assert (P1 mod Q <= P2 mod Q) by nia.
  rewrite !nearest_eq by exact HQ. rewrite E.
  bool_cases; try destruct (Z.even (P2 / Q)); lia.
Qed.

Lemma nearest_exact K Q : 0 < Q -> nearest (K * Q) Q = K.
Proof.
  intros HQ. rewrite nearest_eq by exact HQ.
  rewrite Z.mod_mul, Z.div_mul by lia.
  bool_cases; lia.
Qed.

Lemma nearest_lower K P Q : 0 < Q -> K * Q <= P -> K <= nearest P Q.
Proof.
  intros HQ H. rewrite <- (nearest_exact K Q HQ). now apply nearest_mono.
Qed.

Lemma nearest_upper K P Q : 0 < Q -> P <= K * Q -> nearest P Q <= K.
Proof.
  intros HQ H. rewrite <- (nearest_exact K Q HQ). now apply nearest_mono.
Qed.

Lemma nearest_scale c P Q :
  0 < c -> 0 < Q -> nearest (c * P) (c * Q) = nearest P Q.
Proof.
  intros Hc HQ. rewrite !nearest_eq by nia.
  rewrite Z.mul_mod_distr_l, Z.div_mul_cancel_l by lia.
  pose proof (Z.mod_pos_bound P Q HQ).
  bool_cases; try reflexivity; nia.
Qed.

(** *** Rounding *)

Lemma fexp_normal z : -1074 <= z - 53 -> fexp Num.prec Num.emax z = z - 53.
Proof. unfold fexp, emin, Num.prec, Num.emax. lia. Qed.

Lemma quotient_pos P Q :
  0 <= P -> 0 < Q -> 53 <= Zdigits2 (P / Q) -> 0 < P / Q.
Proof.
  intros HP HQ Hd. pose proof (Z.div_pos P Q HP HQ).
  destruct (P / Q); cbn in Hd; lia.
Qed.

Lemma pack_normal M E :
  2 ^ 52 <= M < 2 ^ 53 -> -1074 <= E <= 971 ->
  pack M E = S754_finite false (Z.to_pos M) E.
Proof.
  intros HM HE. unfold pack, shr_fexp.
  rewrite (Zdigits2_unique M 53) by (change (53 - 1) with 52; lia).
  rewrite fexp_normal by lia.
  replace (53 + E - 53 - E) with 0 by lia. cbn [shr shr_record_of_loc shr_m].
  destruct M as [| m | m]; try lia.
  unfold Num.emax, Num.prec.
  destruct (Z.leb_spec E (1024 - 53)); [reflexivity | lia].
Qed.

Lemma pack_carry E :
  -1074 <= E < 971 ->
  pack (2 ^ 53) E = S754_finite false (Z.to_pos (2 ^ 52)) (E + 1).
Proof.
  intros HE. unfold pack, shr_fexp.
  change (Zdigits2 (2 ^ 53)) with 54.
  rewrite fexp_normal by lia.
  replace (54 + E - 53 - E) with 1 by lia.
  change (2 ^ 53) with 9007199254740992.
  cbn [shr shr_record_of_loc shr_m iter_pos shr_1].
  unfold Num.emax, Num.prec.
  destruct (Z.leb_spec (E + 1) (1024 - 53)); [reflexivity | lia].
Qed.

(** What the rounding of the library computes. *)
Lemma round_aux_rounded P Q e :
  0 <= P -> 0 < Q -> 53 <= Zdigits2 (P / Q) -> -1074 <= e ->
  binary_round_aux Num.prec Num.emax false (P / Q) e
    (loc_of_shr_record (cut P Q))
  = rounded P Q e.
Proof.
  intros HP HQ Hd He. unfold binary_round_aux, rounded.
  unfold shr_fexp at 1. rewrite record_of_cut, fexp_normal by lia.
  replace (Zdigits2 (P / Q) + e - 53 - e) with (Zdigits2 (P / Q) - 53) by lia.
  rewrite shr_cut by lia. reflexivity.
Qed.

Lemma rounded_cases P Q e :
  0 <= P -> 0 < Q -> 53 <= Zdigits2 (P / Q) ->
  -1074 <= e -> e + Zdigits2 (P / Q) <= 1000 ->
  2 ^ 52 <= nearest P (Q * 2 ^ (Zdigits2 (P / Q) - 53)) <= 2 ^ 53
  /\ rounded P Q e
     = if nearest P (Q * 2 ^ (Zdigits2 (P / Q) - 53)) <? 2 ^ 53
       then S754_finite false
              (Z.to_pos (nearest P (Q * 2 ^ (Zdigits2 (P / Q) - 53))))
              (e + (Zdigits2 (P / Q) - 53))
       else S754_finite false (Z.to_pos (2 ^ 52))
              (e + (Zdigits2 (P / Q) - 53) + 1).
Proof.
  intros HP HQ Hd He Hu. unfold rounded.
  assert (Hq : 0 < P / Q) by (apply quotient_pos; lia).
  pose proof (quotient_bounds P Q HQ Hq) as [L U].
  set (d := Zdigits2 (P / Q)) in *. clearbody d.
  assert (Hn : 0 < 2 ^ (d - 53)) by (apply Z.pow_pos_nonneg; lia).
  assert (E1 : 2 ^ (d - 1) = 2 ^ 52 * 2 ^ (d - 53))
    by (rewrite <- Z.pow_add_r by lia; f_equal; lia).
  assert (E2 : 2 ^ d = 2 ^ 53 * 2 ^ (d - 53))
    by (rewrite <- Z.pow_add_r by lia; f_equal; lia).
  assert (B : 2 ^ 52 <= nearest P (Q * 2 ^ (d - 53)) <= 2 ^ 53).
  { split.
    - apply nearest_lower; [nia |]. rewrite E1 in L. nia.
    - apply nearest_upper; [nia |]. rewrite E2 in U. nia. }
  split; [exact B |].
  destruct (Z.ltb_spec (nearest P (Q * 2 ^ (d - 53))) (2 ^ 53)) as [Lt | Ge].
  - apply pack_normal; lia.
  - replace (nearest P (Q * 2 ^ (d - 53))) with (2 ^ 53) by lia.
    apply pack_carry. lia.
Qed.

Lemma rounded_normal P Q e :
  0 <= P -> 0 < Q -> 53 <= Zdigits2 (P / Q) ->
  -1074 <= e -> e + Zdigits2 (P / Q) <= 1000 ->
  normal (rounded P Q e) = true.
Proof.
  intros HP HQ Hd He Hu.
  destruct (rounded_cases P Q e HP HQ Hd He Hu) as [B ->].
  destruct (Z.ltb_spec (nearest P (Q * 2 ^ (Zdigits2 (P / Q) - 53))) (2 ^ 53)).
  - cbn [normal]. rewrite Z2Pos.id by lia.
    rewrite (Zdigits2_unique _ 53) by (change (53 - 1) with 52; lia).
    bool_cases; reflexivity || lia.
  - cbn [normal]. change (Zdigits2 (Zpos (Z.to_pos (2 ^ 52)))) with 53.
    bool_cases; reflexivity || lia.
Qed.

(** Scaling numerator and exponent together changes nothing. *)
Lemma rounded_scale j P Q e :
  0 <= j -> 0 <= P -> 0 < Q -> 53 <= Zdigits2 (P / Q) ->
  rounded (2 ^ j * P) Q (e - j) = rounded P Q e.
Proof.
  intros Hj HP HQ Hd. unfold rounded.
  assert (Hq : 0 < P / Q) by (apply quotient_pos; lia).
  pose proof (quotient_bounds P Q HQ Hq) as [L U].
  assert (Hp : 0 < 2 ^ j) by (apply Z.pow_pos_nonneg; lia).
  assert (D : Zdigits2 (2 ^ j * P / Q) = Zdigits2 (P / Q) + j).
  { set (d := Zdigits2 (P / Q)) in *. clearbody d.
    apply digits_quotient; [exact HQ | lia |].
    replace (d + j - 1) with (j + (d - 1)) by lia.
    replace (d + j) with (j + d) by lia.
    rewrite !Z.pow_add_r by lia. split; nia. }
  rewrite D. set (d := Zdigits2 (P / Q)) in *. clearbody d.
  replace (d + j - 53) with (j + (d - 53)) by lia.
  rewrite Z.pow_add_r by lia.
  replace (Q * (2 ^ j * 2 ^ (d - 53))) with (2 ^ j * (Q * 2 ^ (d - 53))) by ring.
  assert (0 < 2 ^ (d - 53)) by (apply Z.pow_pos_nonneg; lia).
  rewrite nearest_scale by nia. f_equal. lia.
Qed.

(** *** Order *)

Lemma normal_inv x :
  normal x = true ->
  exists m e,
    x = S754_finite false m e
    /\ 2 ^ 52 <= Zpos m < 2 ^ 53 /\ -1074 <= e <= 970.
Proof.
  destruct x as [| | | [] m e]; try discriminate. cbn [normal].
  intros H. apply andb_prop in H as [H He2]. apply andb_prop in H as [Hd He1].
  exists m, e. split; [reflexivity |].
  apply Z.eqb_eq in Hd. pose proof (Zdigits2_bounds (Zpos m) ltac:(lia)) as B.
  rewrite Hd in B. change (53 - 1) with 52 in B. lia.
Qed.

Lemma leb_key x y :
  normal x = true -> normal y = true -> SFleb x y = (key x <=? key y).
Proof.
  intros Hx Hy.
  destruct (normal_inv x Hx) as (mx & ex & -> & Bx & Ex).
  destruct (normal_inv y Hy) as (my & ey & -> & By & Ey).
  unfold SFleb, SFcompare, key.
  change (Pos.compare_cont Eq mx my) with (Pos.compare mx my).
  change (2 ^ 53) with 9007199254740992 in *.
  change (2 ^ 52) with 4503599627370496 in *.
  destruct (Z.compare_spec ex ey); [destruct (Pos.compare_spec mx my) | |];
    bool_cases; try reflexivity; lia.
Qed.

Lemma scaled_nonneg k x : 0 <= scaled k x.
Proof.
  destruct x as [| | | [] m e]; cbn [scaled]; try lia;
    pose proof (Z.pow_nonneg 2 (e + k)); nia.
Qed.

(** Between normal numbers the order of the keys is that of the values. *)
Lemma scaled_le k x y :
  normal x = true -> normal y = true -> key x <= key y ->
  scaled k x <= scaled k y.
Proof.
  intros Hx Hy.
  destruct (normal_inv x Hx) as (mx & ex & -> & Bx & Ex).
  destruct (normal_inv y Hy) as (my & ey & -> & By & Ey).
  unfold key, scaled. intros H.
  change (2 ^ 53) with 9007199254740992 in *.
  change (2 ^ 52) with 4503599627370496 in *.
  destruct (Z.lt_trichotomy ex ey) as [L | [E | G]]; [| | lia].
  - destruct (Z.le_gt_cases 0 (ex + k)) as [Hk | Hk].
    + replace (ey + k) with (ex + k + (ey - ex)) by lia.
      rewrite (Z.pow_add_r 2 (ex + k) (ey - ex)) by lia.
      assert (2 ^ 1 <= 2 ^ (ey - ex)) by (apply Z.pow_le_mono_r; lia).
      assert (0 < 2 ^ (ex + k)) by (apply Z.pow_pos_nonneg; lia).
      change (2 ^ 1) with 2 in *.
      set (a := 2 ^ (ex + k)) in *. set (b := 2 ^ (ey - ex)) in *.
      clearbody a b.
      assert (Zpos mx * a <= 9007199254740992 * a) by nia.
      assert (9007199254740992 * a <= 4503599627370496 * (a * b)) by nia.
      assert (0 <= a * b) by nia.
      assert (4503599627370496 * (a * b) <= Zpos my * (a * b)) by nia.
      lia.
    + rewrite (Z.pow_neg_r 2 (ex + k)) by lia.
      pose proof (Z.pow_nonneg 2 (ey + k)). nia.
  - subst ey. pose proof (Z.pow_nonneg 2 (ex + k)). nia.
Qed.

Lemma rounded_key P Q e :
  0 <= P -> 0 < Q -> 53 <= Zdigits2 (P / Q) ->
  -1074 <= e -> e + Zdigits2 (P / Q) <= 1000 ->
  key (rounded P Q e)
  = (e + (Zdigits2 (P / Q) - 53)) * 2 ^ 53
    + nearest P (Q * 2 ^ (Zdigits2 (P / Q) - 53))
    + (if nearest P (Q * 2 ^ (Zdigits2 (P / Q) - 53)) <? 2 ^ 53
       then 0 else 2 ^ 52).
Proof.
  intros HP HQ Hd He Hu.
  destruct (rounded_cases P Q e HP HQ Hd He Hu) as [B ->].
  change (2 ^ 53) with 9007199254740992 in *.
  change (2 ^ 52) with 4503599627370496 in *.
  destruct (Z.ltb_spec (nearest P (Q * 2 ^ (Zdigits2 (P / Q) - 53)))
              9007199254740992); cbn [key].
  - rewrite Z2Pos.id by lia. change (2 ^ 53) with 9007199254740992. lia.
  - change (2 ^ 53) with 9007199254740992.
    change (Zpos (Z.to_pos 4503599627370496)) with 4503599627370496. lia.
Qed.

(** Rounding is monotone. *)
Lemma rounded_mono P1 P2 Q e :
  0 <= P1 <= P2 -> 0 < Q -> 53 <= Zdigits2 (P1 / Q) ->
  -1074 <= e -> e + Zdigits2 (P2 / Q) <= 1000 ->
  key (rounded P1 Q e) <= key (rounded P2 Q e).
Proof.
  intros HP HQ Hd He Hu.
  assert (Hq1 : 0 < P1 / Q) by (apply quotient_pos; lia).
  assert (Hq : P1 / Q <= P2 / Q) by (apply Z.div_le_mono; lia).
  pose proof (Zdigits2_mono _ _ Hq1 Hq) as Hdd.
  rewrite !rounded_key by lia.
  destruct (rounded_cases P1 Q e) as [B1 _]; try lia.
  destruct (rounded_cases P2 Q e) as [B2 _]; try lia.
  destruct (Z.eq_dec (Zdigits2 (P1 / Q)) (Zdigits2 (P2 / Q))) as [E | N].
  - rewrite E in *.
    assert (0 < 2 ^ (Zdigits2 (P2 / Q) - 53)) by (apply Z.pow_pos_nonneg; lia).
    pose proof (nearest_mono P1 P2 (Q * 2 ^ (Zdigits2 (P2 / Q) - 53))
                  ltac:(nia) ltac:(lia)) as M.
    set (M1 := nearest P1 _) in *. set (M2 := nearest P2 _) in *.
    clearbody M1 M2.
    change (2 ^ 53) with 9007199254740992 in *.
    change (2 ^ 52) with 4503599627370496 in *.
    bool_cases; lia.
  - set (M1 := nearest P1 _) in *. set (M2 := nearest P2 _) in *.
    clearbody M1 M2.
    change (2 ^ 53) with 9007199254740992 in *.
    change (2 ^ 52) with 4503599627370496 in *.
    bool_cases; lia.
Qed.

(** *** The operations of the library *)

Lemma cut_whole P : cut P 1 = Build_shr_record P false false.
Proof.
  unfold cut. now rewrite Z.mod_1_r, Z.div_1_r.
Qed.

Lemma normalize_rounded S e j :
  0 < S -> 53 <= Zdigits2 S -> -1074 <= e -> 0 <= j ->
  binary_normalize Num.prec Num.emax S e false = rounded (2 ^ j * S) 1 (e - j).
Proof.
  intros HS Hd He Hj.
  rewrite rounded_scale by (rewrite ?Z.div_1_r; lia).
  rewrite <- round_aux_rounded by (rewrite ?Z.div_1_r; lia).
  rewrite cut_whole, Z.div_1_r. cbn [loc_of_shr_record].
  destruct S as [| m | m]; try lia.
  unfold binary_normalize, binary_round.
  change (Zpos (digits2_pos m)) with (Zdigits2 (Zpos m)).
  rewrite fexp_normal by lia. unfold shl_align.
  destruct (Zdigits2 (Zpos m) + e - 53 - e) eqn:D; try reflexivity. lia.
Qed.

Lemma iter_xO m d : Zpos (Pos.iter xO m d) = Zpos m * 2 ^ Zpos d.
Proof.
  induction d as [| d IH] using Pos.peano_ind.
  - cbn [Pos.iter]. rewrite Pos2Z.inj_xO. change (2 ^ 1) with 2. lia.
  - rewrite Pos.iter_succ, Pos2Z.inj_xO, IH, Pos2Z.inj_succ, Z.pow_succ_r by lia.
    ring.
Qed.

Lemma shl_align_fst m e e' :
  e' <= e -> Zpos (fst (shl_align m e e')) = Zpos m * 2 ^ (e - e').
Proof.
  intros H. unfold shl_align. destruct (e' - e) as [| d | d] eqn:D; try lia.
  - replace (e - e') with 0 by lia. cbn [fst]. change (2 ^ 0) with 1. lia.
  - cbn [fst]. rewrite iter_xO. f_equal. f_equal. lia.
Qed.

(** The sum of two normal numbers is their exact sum, rounded. *)
Lemma add_rounded k x y mx ex my ey :
  x = S754_finite false mx ex -> y = S754_finite false my ey ->
  normal x = true -> normal y = true -> - k <= ex -> - k <= ey ->
  Num.add x y = rounded (scaled k x + scaled k y) 1 (- k).
Proof.
  intros -> -> Hx Hy Kx Ky.
  destruct (normal_inv _ Hx) as (mx' & ex' & E & Bx & Ex). injection E as <- <-.
  destruct (normal_inv _ Hy) as (my' & ey' & E & By & Ey). injection E as <- <-.
  unfold Num.add, SFadd. cbn [cond_Zopp scaled].
  rewrite !shl_align_fst by lia.
  set (ez := Z.min ex ey).
  assert (Hx0 : 0 < 2 ^ (ex - ez)) by (apply Z.pow_pos_nonneg; lia).
  assert (Hy0 : 0 < 2 ^ (ey - ez)) by (apply Z.pow_pos_nonneg; lia).
  assert (Hone : 2 ^ (ex - ez) = 1 \/ 2 ^ (ey - ez) = 1).
  { destruct (Z.le_ge_cases ex ey); [left | right];
      (replace (_ - ez) with 0 by lia); reflexivity. }
  rewrite (normalize_rounded _ ez (ez + k)); try lia.
  - f_equal; [| lia].
    replace (ex + k) with (ez + k + (ex - ez)) by lia.
    replace (ey + k) with (ez + k + (ey - ez)) by lia.
    rewrite !(Z.pow_add_r 2 (ez + k)) by lia. ring.
  - change 53 with (Zdigits2 (2 ^ 52)).
    apply Zdigits2_mono; [reflexivity |].
    set (a := 2 ^ (ex - ez)) in *. set (b := 2 ^ (ey - ez)) in *.
    clearbody a b. change (2 ^ 52) with 4503599627370496 in *.
    change (2 ^ 53) with 9007199254740992 in *. nia.
Qed.

Lemma div_eucl_eq a b : Z.div_eucl a b = (a / b, a mod b).
Proof. unfold Z.div, Z.modulo. now destruct (Z.div_eucl a b). Qed.

Lemma location_of_remainder P :
  new_location 1000 (P mod 1000) = loc_of_shr_record (cut P 1000).
Proof.
  unfold new_location. change (Z.even 1000) with true. cbv iota.
  unfold new_location_even, cut. cbn [loc_of_shr_record].
  pose proof (Z.mod_pos_bound P 1000 ltac:(lia)).
  destruct (Z.compare_spec (2 * (P mod 1000)) 1000); bool_cases;
    try reflexivity; lia.
Qed.

(** A number of thousandths is the quotient by 1000, rounded. *)
Lemma thousandths_rounded X :
  0 < X < 2 ^ 62 ->
  Num.of_decimal X (-3) = rounded (2 ^ 63 * X) 1000 (-63).
Proof.
  intros HX. destruct X as [| p | p]; try lia.
  unfold Num.of_decimal. change (0 <=? -3) with false. cbv iota.
  unfold SFdiv_core_binary.
  change (10 ^ (- -3)) with 1000. change (Zdigits2 1000) with 10.
  pose proof (Zdigits2_bounds (Zpos p) ltac:(lia)) as B.
  pose proof (Zdigits2_pos (Zpos p) ltac:(lia)) as D1.
  assert (D2 : Zdigits2 (Zpos p) <= 62) by (apply Zdigits2_upper; lia).
  set (d := Zdigits2 (Zpos p)) in *. clearbody d.
  rewrite fexp_normal by lia.
  replace (Z.min (d + 0 - (10 + 0) - 53) (0 - 0)) with (d - 63) by lia.
  replace (0 - 0 - (d - 63)) with (63 - d) by lia.
  destruct (63 - d) as [| s | s] eqn:Es; try lia.
  rewrite Z.shiftl_mul_pow2 by lia. rewrite div_eucl_eq, location_of_remainder.
  assert (Hs : 0 < 2 ^ Zpos s) by (apply Z.pow_pos_nonneg; lia).
  assert (Hm : 2 ^ 62 <= Zpos p * 2 ^ Zpos s < 2 ^ 63).
  { replace 62 with ((d - 1) + Zpos s) by lia.
    replace 63 with (d + Zpos s) by lia.
    rewrite !Z.pow_add_r by lia. nia. }
  assert (Hq : 53 <= Zdigits2 (Zpos p * 2 ^ Zpos s / 1000)).
  { change 53 with (Zdigits2 (2 ^ 52)).
    apply Zdigits2_mono; [reflexivity |].
    apply Z.div_le_lower_bound; [lia |].
    change (2 ^ 62) with 4611686018427387904 in Hm.
    change (2 ^ 52) with 4503599627370496. lia. }
  rewrite round_aux_rounded by lia.
  rewrite <- (rounded_scale d) by lia.
  f_equal; [| lia].
  replace 63 with (d + Zpos s) by lia. rewrite Z.pow_add_r by lia. ring.
Qed.

(** ** Timecodes in order *)

Lemma rounded_exact k m e :
  normal (S754_finite false m e) = true -> - k <= e ->
  rounded (scaled k (S754_finite false m e)) 1 (- k) = S754_finite false m e.
Proof.
  intros Hn Hk.
  destruct (normal_inv _ Hn) as (m' & e' & E & B & He). injection E as <- <-.
  assert (D : Zdigits2 (Zpos m) = 53)
    by (apply Zdigits2_unique; [change (53 - 1) with 52 |]; lia).
  cbn [scaled]. rewrite Z.mul_comm.
  replace (- k) with (e - (e + k)) by lia.
  rewrite rounded_scale by (rewrite ?Z.div_1_r; lia).
  unfold rounded. rewrite Z.div_1_r, D. change (53 - 53) with 0.
  change (1 * 2 ^ 0) with 1. rewrite Z.add_0_r.
  rewrite <- (Z.mul_1_r (Zpos m)) at 1. rewrite nearest_exact by lia.
  rewrite pack_normal by lia. reflexivity.
Qed.

Lemma fine_cases x :
  fine x = true ->
  (x = Num.zero /\ scaled 64 x = 0)
  \/ (exists m e, x = S754_finite false m e /\ normal x = true
                  /\ -64 <= e <= 0
                  /\ 2 ^ 52 <= scaled 64 x < 2 ^ 117).
Proof.
  destruct x as [[] | | | [] m e]; try discriminate; intros H.
  - left. split; reflexivity.
  - right. cbn [fine] in H.
    apply andb_prop in H as [H H2]. apply andb_prop in H as [Hn H1].
    apply Z.leb_le in H1, H2. exists m, e.
    repeat split; try assumption; try lia.
    + destruct (normal_inv _ Hn) as (m' & e' & E & B & He).
      injection E as <- <-. cbn [scaled].
      assert (1 <= 2 ^ (e + 64)) by (apply (Z.pow_le_mono_r 2 0); lia).
      change (2 ^ 52) with 4503599627370496 in *. nia.
    + destruct (normal_inv _ Hn) as (m' & e' & E & B & He).
      injection E as <- <-. cbn [scaled].
      assert (2 ^ (e + 64) <= 2 ^ 64) by (apply Z.pow_le_mono_r; lia).
      assert (0 < 2 ^ (e + 64)) by (apply Z.pow_pos_nonneg; lia).
      change (2 ^ 117) with (2 ^ 53 * 2 ^ 64).
      set (a := 2 ^ (e + 64)) in *. clearbody a.
      change (2 ^ 53) with 9007199254740992 in *.
      change (2 ^ 64) with 18446744073709551616 in *. nia.
Qed.

(** The sum of two such numbers is their exact sum, rounded. *)
Lemma fine_sum a y :
  fine a = true -> fine y = true ->
  (scaled 64 a + scaled 64 y = 0 /\ Num.add a y = Num.zero)
  \/ (2 ^ 52 <= scaled 64 a + scaled 64 y < 2 ^ 118
      /\ Num.add a y = rounded (scaled 64 a + scaled 64 y) 1 (-64)).
Proof.
  intros Ha Hy.
  destruct (fine_cases a Ha) as [[-> Sa] | (ma & ea & -> & Na & Ea & Ba)];
    destruct (fine_cases y Hy) as [[-> Sy] | (my & ey & -> & Ny & Ey & By)].
  - left. split; reflexivity.
  - right. rewrite Sa, Z.add_0_l. split.
    + change (2 ^ 118) with (2 * 2 ^ 117). lia.
    + rewrite (rounded_exact 64) by (assumption || lia). reflexivity.
  - right. rewrite Sy, Z.add_0_r. split.
    + change (2 ^ 118) with (2 * 2 ^ 117). lia.
    + rewrite (rounded_exact 64) by (assumption || lia). reflexivity.
  - right. split.
    + change (2 ^ 118) with (2 * 2 ^ 117). lia.
    + apply (add_rounded 64 _ _ ma ea my ey); auto; lia.
Qed.

Lemma le_zero_rounded P :
  2 ^ 52 <= P < 2 ^ 118 -> Num.le Num.zero (rounded P 1 (-64)) = true.
Proof.
  intros H.
  assert (D : 53 <= Zdigits2 (P / 1) <= 118).
  { rewrite Z.div_1_r. split.
    - change 53 with (Zdigits2 (2 ^ 52)). apply Zdigits2_mono; [reflexivity | lia].
    - apply Zdigits2_upper; lia. }
  pose proof (rounded_normal P 1 (-64) ltac:(lia) ltac:(lia) ltac:(lia)
                ltac:(lia) ltac:(lia)) as N.
  destruct (normal_inv _ N) as (m & e & -> & _). reflexivity.
Qed.

(** Addition is monotone in the exact sum. *)
Lemma fine_sum_le a1 y1 a2 y2 :
  fine a1 = true -> fine y1 = true -> fine a2 = true -> fine y2 = true ->
  scaled 64 a1 + scaled 64 y1 <= scaled 64 a2 + scaled 64 y2 ->
  Num.le (Num.add a1 y1) (Num.add a2 y2) = true.
Proof.
  intros Ha1 Hy1 Ha2 Hy2 H.
  destruct (fine_sum a1 y1 Ha1 Hy1) as [[Z1 ->] | [B1 ->]];
    destruct (fine_sum a2 y2 Ha2 Hy2) as [[Z2 ->] | [B2 ->]].
  - reflexivity.
  - now apply le_zero_rounded.
  - change (2 ^ 52) with 4503599627370496 in B1. lia.
  - set (P1 := scaled 64 a1 + scaled 64 y1) in *.
    set (P2 := scaled 64 a2 + scaled 64 y2) in *. clearbody P1 P2.
    assert (D1 : 53 <= Zdigits2 (P1 / 1) <= 118).
    { rewrite Z.div_1_r. split.
      - change 53 with (Zdigits2 (2 ^ 52)).
        apply Zdigits2_mono; [reflexivity | lia].
      - apply Zdigits2_upper; lia. }
    assert (D2 : 53 <= Zdigits2 (P2 / 1) <= 118).
    { rewrite Z.div_1_r. split.
      - change 53 with (Zdigits2 (2 ^ 52)).
        apply Zdigits2_mono; [reflexivity | lia].
      - apply Zdigits2_upper; lia. }
    unfold Num.le. rewrite leb_key by (apply rounded_normal; lia).
    apply Z.leb_le. apply rounded_mono; lia.
Qed.

(** *** The seconds *)

Lemma thousandths_quotient X :
  0 < X < 100000 -> 53 <= Zdigits2 (2 ^ 63 * X / 1000) <= 80.
Proof.
  intros H. split.
  - change 53 with (Zdigits2 (2 ^ 52)). apply Zdigits2_mono; [reflexivity |].
    apply Z.div_le_lower_bound; [lia |].
    change (2 ^ 63) with 9223372036854775808.
    change (2 ^ 52) with 4503599627370496. lia.
  - apply Zdigits2_upper; [apply Z.div_pos; lia | lia |].
    apply Z.div_lt_upper_bound; [lia |].
    change (2 ^ 63) with 9223372036854775808.
    change (2 ^ 80) with 1208925819614629174706176. lia.
Qed.

Lemma thousandths_normal X :
  0 < X < 100000 ->
  Num.of_decimal X (-3) = rounded (2 ^ 63 * X) 1000 (-63)
  /\ normal (rounded (2 ^ 63 * X) 1000 (-63)) = true.
Proof.
  intros H. pose proof (thousandths_quotient X H) as D. split.
  - apply thousandths_rounded. change (2 ^ 62) with 4611686018427387904. lia.
  - apply rounded_normal; lia.
Qed.

Lemma thousandths_fine X : 0 <= X < 100000 -> fine (Num.of_decimal X (-3)) = true.
Proof.
  intros H. destruct (Z.eq_dec X 0) as [-> | N]; [reflexivity |].
  destruct (thousandths_normal X ltac:(lia)) as [-> Hn].
  pose proof (thousandths_quotient X ltac:(lia)) as D.
  destruct (rounded_cases (2 ^ 63 * X) 1000 (-63)) as [B E]; try lia.
  rewrite E in *.
  destruct (_ <? _); cbn [fine]; rewrite Hn; bool_cases; reflexivity || lia.
Qed.

Lemma thousandths_mono X1 X2 :
  0 <= X1 <= X2 -> X2 < 100000 ->
  scaled 64 (Num.of_decimal X1 (-3)) <= scaled 64 (Num.of_decimal X2 (-3)).
Proof.
  intros H1 H2. destruct (Z.eq_dec X1 0) as [-> | N].
  - apply scaled_nonneg.
  - destruct (thousandths_normal X1 ltac:(lia)) as [-> N1].
    destruct (thousandths_normal X2 ltac:(lia)) as [-> N2].
    pose proof (thousandths_quotient X1 ltac:(lia)).
    pose proof (thousandths_quotient X2 ltac:(lia)).
    apply scaled_le; [exact N1 | exact N2 |].
    apply rounded_mono; try lia.
Qed.

(** *** The hours and the minutes *)

Lemma whole_minutes_table :
  forallb
    (fun h =>
       forallb
         (fun m =>
            let a := Num.add (Num.mul (Num.of_Z h) (Num.of_Z 3600))
                             (Num.mul (Num.of_Z m) (Num.of_Z 60)) in
            fine a && (scaled 64 a =? (h * 3600 + m * 60) * 2 ^ 64))
         (map Z.of_nat (seq 0 100)))
    (map Z.of_nat (seq 0 100))
  = true.
Proof. vm_compute. reflexivity. Qed.

Lemma below_100 h : 0 <= h < 100 -> In h (map Z.of_nat (seq 0 100)).
Proof.
  intros H. apply in_map_iff. exists (Z.to_nat h). split; [lia |].
  apply in_seq. lia.
Qed.

Lemma whole_minutes h m :
  0 <= h < 100 -> 0 <= m < 100 ->
  fine (Num.add (Num.mul (Num.of_Z h) (Num.of_Z 3600))
                (Num.mul (Num.of_Z m) (Num.of_Z 60))) = true
  /\ scaled 64 (Num.add (Num.mul (Num.of_Z h) (Num.of_Z 3600))
                        (Num.mul (Num.of_Z m) (Num.of_Z 60)))
     = (h * 3600 + m * 60) * 2 ^ 64.
Proof.
  intros Hh Hm. pose proof whole_minutes_table as T.
  rewrite forallb_forall in T. specialize (T h (below_100 h Hh)).
  rewrite forallb_forall in T. specialize (T m (below_100 m Hm)).
  cbv zeta in T. apply andb_prop in T as [F S]. apply Z.eqb_eq in S.
  split; assumption.
Qed.

(** *** Two timecodes *)

Lemma two_digits s :
  string_forallb is_digit s = true -> String.length s = 2%nat ->
  0 <= digits_value 0 s < 100.
Proof.
  destruct s as [| a [| b [| ? ?]]]; try discriminate. intros H _.
  cbn [string_forallb] in H. apply andb_prop in H as [Ha H].
  apply andb_prop in H as [Hb _].
  pose proof (digit_value_range a Ha). pose proof (digit_value_range b Hb).
  cbn [digits_value]. lia.
Qed.

Lemma three_digits s :
  string_forallb is_digit s = true -> String.length s = 3%nat ->
  0 <= digits_value 0 s < 1000.
Proof.
  destruct s as [| a [| b [| c [| ? ?]]]]; try discriminate. intros H _.
  cbn [string_forallb] in H. apply andb_prop in H as [Ha H].
  apply andb_prop in H as [Hb H]. apply andb_prop in H as [Hc _].
  pose proof (digit_value_range a Ha). pose proof (digit_value_range b Hb).
  pose proof (digit_value_range c Hc).
  cbn [digits_value]. lia.
Qed.

Lemma timecode_fields tok :
  matches_exactly timecode_re tok = true ->
  0 <= field tok 0 2 < 100 /\ 0 <= field tok 3 2 < 100
  /\ 0 <= field tok 6 2 < 100 /\ 0 <= field tok 9 3 < 1000.
Proof.
  intros H.
  destruct (timecode_shape tok H)
    as (hh & mm & ss & ff & sep & E & [Hh Lh] & [Hm Lm] & [Hs Ls] & [Hf Lf]
        & Hsep & Eh & Em & Es & Ef).
  unfold field. rewrite <- Eh, <- Em, <- Es, <- Ef.
  auto using two_digits, three_digits.
Qed.

(** Of two timecodes with seconds below 60, the one that is not later
    gives the number that is not greater. *)
Lemma timecode_seconds_le t1 t2 :
  matches_exactly timecode_re t1 = true ->
  matches_exactly timecode_re t2 = true ->
  seconds_below_60 t1 = true -> seconds_below_60 t2 = true ->
  milliseconds t1 <= milliseconds t2 ->
  Num.le (timecode_seconds t1) (timecode_seconds t2) = true.
Proof.
  intros M1 M2 S1 S2 H.
  destruct (timecode_fields t1 M1) as (Hh1 & Hm1 & Hs1 & Hf1).
  destruct (timecode_fields t2 M2) as (Hh2 & Hm2 & Hs2 & Hf2).
  unfold seconds_below_60 in S1, S2. apply Z.ltb_lt in S1, S2.
  unfold milliseconds in H. unfold timecode_seconds.
  destruct (whole_minutes _ _ Hh1 Hm1) as [Fa1 Ea1].
  destruct (whole_minutes _ _ Hh2 Hm2) as [Fa2 Ea2].
  set (X1 := field t1 6 2 * 1000 + field t1 9 3) in *.
  set (X2 := field t2 6 2 * 1000 + field t2 9 3) in *.
  assert (B1 : 0 <= X1 < 60000) by (unfold X1; lia).
  assert (B2 : 0 <= X2 < 60000) by (unfold X2; lia).
  apply fine_sum_le; try assumption; try (apply thousandths_fine; lia).
  rewrite Ea1, Ea2.
  assert (S60 : scaled 64 (Num.of_decimal 60000 (-3)) = 60 * 2 ^ 64)
    by (vm_compute; reflexivity).
  pose proof (thousandths_mono X1 60000 ltac:(lia) ltac:(lia)) as U1.
  rewrite S60 in U1.
  pose proof (scaled_nonneg 64 (Num.of_decimal X2 (-3))) as L2.
  destruct (Z.lt_trichotomy (field t1 0 2 * 3600 + field t1 3 2 * 60)
              (field t2 0 2 * 3600 + field t2 3 2 * 60)) as [L | [E | G]].
  - change (2 ^ 64) with 18446744073709551616 in *. lia.
  - rewrite E.
    pose proof (thousandths_mono X1 X2 ltac:(unfold X1, X2 in *; lia)
                  ltac:(lia)).
    lia.
  - unfold X1, X2 in *. lia.
Qed.

(** *** Timing lines *)

Lemma exact_timing_line line :
  matches_exactly timing_re line = true ->
  exists w1 w2,
    line = arrow_line (start_token line) w1 w2 (end_token line)
    /\ matches_exactly timecode_re (start_token line) = true
    /\ matches_exactly timecode_re (end_token line) = true
    /\ is_space w1 = true /\ is_space w2 = true.
Proof.
  intros H. unfold matches_exactly in H.
  apply andb_prop in H as [Hp Hl]. apply Nat.eqb_eq in Hl.
  unfold timing_re in Hp.
  apply match_prefix_app in Hp as (a & b & -> & Ha & Hb).
  apply match_prefix_arrow in Hb as (w1 & w2 & r & Hw1 & Hw2 & -> & Hr).
  pose proof Ha as La. unfold matches_exactly in La.
  apply andb_prop in La as [_ La]. apply Nat.eqb_eq in La. cbn in La.
  destruct a as [| a1 [| a2 [| a3 [| a4 [| a5 [| a6 [| a7 [| a8 [| a9
    [| a10 [| a11 [| a12 [| ? ?]]]]]]]]]]]]]; try discriminate.
  cbn in Hl.
  destruct r as [| r1 [| r2 [| r3 [| r4 [| r5 [| r6 [| r7 [| r8 [| r9
    [| r10 [| r11 [| r12 [| ? ?]]]]]]]]]]]]]; try discriminate.
  exists w1, w2.
  change (start_token _) with (String a1 (String a2 (String a3 (String a4
    (String a5 (String a6 (String a7 (String a8 (String a9 (String a10
    (String a11 (String a12 "")))))))))))).
  change (end_token _) with (String r1 (String r2 (String r3 (String r4
    (String r5 (String r6 (String r7 (String r8 (String r9 (String r10
    (String r11 (String r12 "")))))))))))).
  repeat split; try assumption.
  unfold matches_exactly. now rewrite Hr.
Qed.

(** The two times that the parser reads on such a line are in order. *)
Lemma ordered_line_times line t0 t1 rest :
  ordered_timing_line line = true ->
  split "-->" line = t0 :: t1 :: rest ->
  Num.le (parseTime (Some (remove_spaces t0)))
         (parseTime (Some (remove_spaces t1))) = true.
Proof.
  unfold ordered_timing_line. intros H Es.
  apply andb_prop in H as [H Hms]. apply andb_prop in H as [H S2].
  apply andb_prop in H as [Hm S1]. apply Z.leb_le in Hms.
  destruct (exact_timing_line line Hm) as (w1 & w2 & E & M1 & M2 & Hw1 & Hw2).
  rewrite E in Es.
  rewrite (arrow_line_split _ _ _ _ M1 M2 Hw1 Hw2) in Es.
  injection Es as <- <- _.
  destruct (arrow_line_tokens _ _ _ _ M1 M2 Hw1 Hw2) as [-> ->].
  rewrite !parseTime_timecode by assumption.
  now apply timecode_seconds_le.
Qed.

(** * The claims *)




(** C2 (as stated, refuted).  With a gap of half a second and a minimal
    gap of a tenth, the loop makes four calls, not three: the last cue is
    cleared too.  With adjacent cues it makes three calls, not two. *)
Lemma build_clears_last_cue :
  build cues_gap tenth
  = [mkEvent (Num.of_Z 1) "a"; mkEvent (Num.of_Z 2) "";
     mkEvent (Num.of_decimal 25 (-1)) "b"; mkEvent (Num.of_Z 4) ""]
  /\ build cues_gap tenth
     <> [mkEvent (Num.of_Z 1) "a"; mkEvent (Num.of_Z 2) "";
         mkEvent (Num.of_decimal 25 (-1)) "b"]
  /\ build cues_adjacent tenth
     <> [mkEvent (Num.of_Z 1) "a"; mkEvent (Num.of_Z 2) "b"].
Proof.
  repeat split; vm_compute; (reflexivity || discriminate).
Qed.

(** C2 (amended).  For the cues 1-2 "a" and 2.5-4 "b" with a minimal gap
    of 0.1 the events are 1 "a", 2 "", 2.5 "b" and 4 "".  For the cues
    1-2 "a" and 2-3 "b" with any positive minimal gap below 99996 the
    events are 1 "a", 2 "b" and 3 "": no clear event between the cues,
    and one after the last cue, whose next start is the constant 99999. *)
Theorem build_examples :
  build cues_gap tenth
  = [mkEvent (Num.of_Z 1) "a"; mkEvent (Num.of_Z 2) "";
     mkEvent (Num.of_decimal 25 (-1)) "b"; mkEvent (Num.of_Z 4) ""]
  /\ forall minGap,
       Num.lt Num.zero minGap = true ->
       Num.lt minGap (Num.of_Z 99996) = true ->
       build cues_adjacent minGap
       = [mkEvent (Num.of_Z 1) "a"; mkEvent (Num.of_Z 2) "b";
          mkEvent (Num.of_Z 3) ""].
Proof.
  split; [vm_compute; reflexivity |].
  intros g Hpos Hsmall. rewrite build_spec.
  change (seq 0 (List.length cues_adjacent)) with [0%nat; 1%nat].
  cbn [flat_map].
  rewrite (expected_events_at cues_adjacent g 0
             (mkCue (Num.of_Z 1) (Num.of_Z 2) "a") eq_refl).
  rewrite (expected_events_at cues_adjacent g 1
             (mkCue (Num.of_Z 2) (Num.of_Z 3) "b") eq_refl).
  change (gap_after cues_adjacent 0 (mkCue (Num.of_Z 1) (Num.of_Z 2) "a"))
    with Num.zero.
  change (gap_after cues_adjacent 1 (mkCue (Num.of_Z 2) (Num.of_Z 3) "b"))
    with (Num.of_Z 99996).
  rewrite (lt_asym _ _ Hpos).
  unfold Num.gt. unfold Num.lt in Hsmall. rewrite Hsmall. reflexivity.
Qed.

Lemma build_examples_witness :
  build cues_adjacent tenth
  = [mkEvent (Num.of_Z 1) "a"; mkEvent (Num.of_Z 2) "b";
     mkEvent (Num.of_Z 3) ""].
Proof.
  apply (proj2 build_examples tenth); reflexivity.
Defined.

(** C3 (as stated, refuted).  The text "hello world" passes the length
    test and has no cue; the handler reports nothing: it duplicates the
    template, removes the keys, adds none and hides the template. *)
Lemma no_cues_is_silent :
  parseSRT (srtInput_text host_no_cues) = Normal []
  /\ onClick host_no_cues
     = [beginUndoGroup; duplicate_track; removeKey; removeKey;
        hide_template; endUndoGroup]
  /\ existsb is_alert (onClick host_no_cues) = false.
Proof. repeat split; vm_compute; reflexivity. Qed.

(** C3 (amended).  When the parse yields no cue, nothing is reported: the
    handler makes no [alert] call; in the single-layer mode it duplicates
    the template, removes the keys of the copy and sets none, in the other
    mode it creates no layer; it then hides the template. *)
Theorem no_cues_no_report h :
  activeItem_is_comp h = true -> one_text_layer_selected h = true ->
  (10 <= String.length (srtInput_text h))%nat ->
  parseSRT (srtInput_text h) = Normal [] ->
  onClick h
  = ([beginUndoGroup]
     ++ (if modeRadio1_value h
         then duplicate_track :: repeat removeKey (numKeys h)
         else [])
     ++ [hide_template; endUndoGroup])%list
  /\ existsb is_alert (onClick h) = false
  /\ existsb is_setValueAtTime (onClick h) = false
  /\ existsb is_duplicate_layer (onClick h) = false.
Proof.
  intros Hc Hl Hn Hp.
  assert (E : onClick h
              = ([beginUndoGroup]
                 ++ (if modeRadio1_value h
                     then duplicate_track :: repeat removeKey (numKeys h)
                     else [])
                 ++ [hide_template; endUndoGroup])%list).
  { rewrite (onClick_parsed h [] Hc Hl Hn Hp).
    change (build [] (frameDuration h)) with (@nil TimelineEvent).
    cbn [map layers_from]. now rewrite app_nil_r. }
  split; [exact E |]. rewrite E.
  destruct (modeRadio1_value h); [| repeat split; reflexivity].
  rewrite !existsb_app. cbn [existsb].
  rewrite !existsb_repeat_false by reflexivity.
  repeat split; reflexivity.
Qed.

Lemma no_cues_no_report_witness :
  existsb is_alert (onClick host_no_cues) = false.
Proof.
  apply (no_cues_no_report host_no_cues); try reflexivity.
  vm_compute. lia.
Defined.

(** C4.  The calls of the loop are, cue after cue, the show event of the
    cue, followed by its clear event if and only if the next start (the
    start of the following cue, 99999 after the last) minus the end of the
    cue is greater than the minimal gap; the comparison is strict: when
    that difference equals the minimal gap there is no clear event. *)
Theorem build_clear_iff subs minGap :
  exists segments : list (list TimelineEvent),
    build subs minGap = List.concat segments
    /\ List.length segments = List.length subs
    /\ forall i s,
         nth_error subs i = Some s ->
         exists segment,
           nth_error segments i = Some segment
           /\ (segment = [show_event s; clear_event s]
               \/ segment = [show_event s])
           /\ (segment = [show_event s; clear_event s]
               <-> Num.gt (gap_after subs i s) minGap = true)
           /\ (Num.eq (gap_after subs i s) minGap = true ->
               segment = [show_event s]).
Proof.
  exists (map (expected_events subs minGap) (seq 0 (List.length subs))).
  split; [| split].
  - rewrite build_spec. apply flat_map_concat_map.
  - now rewrite length_map, length_seq.
  - intros i s E.
    assert (Hi : (i < List.length subs)%nat)
      by (apply nth_error_Some; congruence).
    exists (expected_events subs minGap i). split.
    + rewrite nth_error_map, nth_error_seq.
      destruct (Nat.ltb_spec i (List.length subs)); [reflexivity | lia].
    + rewrite (expected_events_at _ _ _ _ E). repeat split.
      * destruct (Num.gt _ minGap); auto.
      * destruct (Num.gt _ minGap); [reflexivity | discriminate].
      * now intros ->.
      * intros H. now rewrite (gt_eq_false _ _ H).
Qed.

Lemma build_clear_iff_witness :
  exists segments,
    build cues_gap (Num.of_decimal 5 (-1)) = List.concat segments
    /\ nth_error segments 0 = Some [mkEvent (Num.of_Z 1) "a"].
Proof.
  destruct (build_clear_iff cues_gap (Num.of_decimal 5 (-1)))
    as (segments & E & _ & H).
  destruct (H 0%nat (mkCue (Num.of_Z 1) (Num.of_Z 2) "a") eq_refl)
    as (segment & Hn & _ & _ & Heq).
  exists segments. split; [exact E |].
  rewrite Hn. f_equal. apply Heq. reflexivity.
Defined.

(** C5.  For a token [HH:MM:SS,mmm] or [HH:MM:SS.mmm], [parseTime]
    returns [H*3600 + M*60 + S.mmm] in floating-point arithmetic, [S.mmm]
    being the number nearest to [(1000 S + mmm) / 1000]; it returns
    3723.456 for "01:02:03,456" and 0 for "00:00:00,000", for the empty
    string and for a missing argument. *)
Theorem parseTime_spec :
  (forall tok,
      matches_exactly timecode_re tok = true ->
      parseTime (Some tok) = timecode_seconds tok)
  /\ parseTime (Some "01:02:03,456") = Num.of_decimal 3723456 (-3)
  /\ parseTime (Some "00:00:00,000") = Num.zero
  /\ parseTime (Some "") = Num.zero
  /\ parseTime None = Num.zero.
Proof.
  split; [exact parseTime_timecode |].
  repeat split; vm_compute; reflexivity.
Qed.

Lemma parseTime_spec_witness :
  parseTime (Some "12:34:56.789") = timecode_seconds "12:34:56.789".
Proof.
  apply (proj1 parseTime_spec "12:34:56.789"). reflexivity.
Defined.

(** C6 (as stated, refuted).  A timing line whose second timecode is the
    earlier one gives a cue with [start] 5 and [end] 1.  A line whose two
    timecodes write the same instant, the first one with 61 seconds, gives
    a cue whose [start] is the greater number: 61.029 against
    60 + 1.029.  A line with a character before two timecodes that are in
    order gives a cue with NaN as [start], and NaN is not [<=] 2; with an
    exponent after them it gives a cue that ends at 2e-9. *)
Lemma reversed_cue_is_kept :
  parseSRT doc_reversed = Normal [mkCue (Num.of_Z 5) (Num.of_Z 1) "x"]
  /\ Num.le (Num.of_Z 5) (Num.of_Z 1) = false
  /\ parseSRT doc_sixty_one
     = Normal [mkCue (Num.of_decimal 61029 (-3))
                     (Num.add (Num.of_Z 60) (Num.of_decimal 1029 (-3))) "x"]
  /\ milliseconds "00:00:61,029" = milliseconds "00:01:01,029"
  /\ Num.le (Num.of_decimal 61029 (-3))
            (Num.add (Num.of_Z 60) (Num.of_decimal 1029 (-3))) = false
  /\ parseSRT doc_prefixed = Normal [mkCue Num.NaN (Num.of_Z 2) "x"]
  /\ Num.le Num.NaN (Num.of_Z 2) = false
  /\ parseSRT doc_suffixed
     = Normal [mkCue (Num.of_Z 1) (Num.of_decimal 2 (-9)) "x"]
  /\ Num.le (Num.of_Z 1) (Num.of_decimal 2 (-9)) = false.
Proof. repeat split; vm_compute; reflexivity. Qed.

(** C6 (amended).  Every cue produced by the parse satisfies
    [start <= end] when every line of the input on which the timing
    pattern is found is, once trimmed, exactly a timecode, one white-space
    character, the arrow, one white-space character and a timecode, with
    the seconds of both timecodes below 60 and the first timecode, counted
    in milliseconds, not later than the second. *)
Theorem ordered_lines_give_ordered_cues rawData :
  timing_lines_in_order rawData = true ->
  exists cues,
    parseSRT rawData = Normal cues
    /\ Forall (fun c => Num.le (start c) (end_ c) = true) cues.
Proof.
  intros H. destruct (parseSRT_total rawData) as [cues E].
  exists cues. split; [exact E |]. revert E. apply parseSRT_invariant.
  - intros c l Hc. exact Hc.
  - intros raw t0 t1 rest Hin T Es. cbn [start end_].
    unfold timing_lines_in_order in H. rewrite forallb_forall in H.
    specialize (H raw Hin). rewrite T in H. cbn [negb orb] in H.
    now apply (ordered_line_times (trim raw) t0 t1 rest).
Qed.

Lemma ordered_lines_give_ordered_cues_witness :
  exists cues,
    parseSRT doc_in_order = Normal cues
    /\ Forall (fun c => Num.le (start c) (end_ c) = true) cues.
Proof.
  apply (ordered_lines_give_ordered_cues doc_in_order). reflexivity.
Defined.

(** C7 (as stated, refuted).  With no white space around the arrow, or
    with two spaces on each side, the timing pattern is not found: the
    line starts no cue. *)
Lemma arrow_needs_one_space :
  re_search timing_re (trim "00:00:01,000-->00:00:02,000") = false
  /\ step "00:00:01,000-->00:00:02,000" (mkState [] None)
     = Normal (mkState [] None)
  /\ re_search timing_re (trim "00:00:01,000  -->  00:00:02,000") = false
  /\ step "00:00:01,000  -->  00:00:02,000" (mkState [] None)
     = Normal (mkState [] None).
Proof. repeat split; vm_compute; reflexivity. Qed.

(** C7 (amended).  A line that, once trimmed, is [HH:MM:SS[,.]mmm],
    white space, the arrow, white space and [HH:MM:SS[,.]mmm] is a timing
    line if and only if there is exactly one white-space character on each
    side of the arrow; it then starts a new cue in progress with the two
    times and an empty text, whatever the cue in progress before. *)
Theorem timing_line_one_space raw t1 t2 ws1 ws2 st :
  matches_exactly timecode_re t1 = true ->
  matches_exactly timecode_re t2 = true ->
  string_forallb is_space ws1 = true ->
  string_forallb is_space ws2 = true ->
  trim raw = spaced_arrow_line t1 ws1 ws2 t2 ->
  (re_search timing_re (trim raw) = true
   <-> String.length ws1 = 1%nat /\ String.length ws2 = 1%nat)
  /\ (String.length ws1 = 1%nat -> String.length ws2 = 1%nat ->
      step raw st
      = Normal (mkState (subtitles st)
                  (Some (mkCue (timecode_seconds t1) (timecode_seconds t2)
                               "")))).
Proof.
  intros H1 H2 Hs1 Hs2 E.
  assert (One : String.length ws1 = 1%nat -> String.length ws2 = 1%nat ->
                exists w1 w2, is_space w1 = true /\ is_space w2 = true
                              /\ trim raw = arrow_line t1 w1 w2 t2).
  { intros L1 L2.
    destruct ws1 as [| w1 [| ? ?]]; try discriminate.
    destruct ws2 as [| w2 [| ? ?]]; try discriminate.
    cbn [string_forallb] in Hs1, Hs2. rewrite andb_true_r in Hs1, Hs2.
    exists w1, w2. now rewrite E. }
  split; [split |].
  - rewrite E. now apply spaced_arrow_line_one_each.
  - intros [L1 L2]. destruct (One L1 L2) as (w1 & w2 & Hw1 & Hw2 & ->).
    now apply arrow_line_matches.
  - intros L1 L2. destruct (One L1 L2) as (w1 & w2 & Hw1 & Hw2 & E').
    now apply (step_arrow_line t1 t2 w1 w2).
Qed.

Lemma timing_line_one_space_witness :
  step "  00:00:01,000 --> 00:00:02.500 " (mkState [] None)
  = Normal (mkState []
              (Some (mkCue (timecode_seconds "00:00:01,000")
                           (timecode_seconds "00:00:02.500") ""))).
Proof.
  apply (timing_line_one_space "  00:00:01,000 --> 00:00:02.500 "
           "00:00:01,000" "00:00:02.500" " " " " (mkState [] None));
    reflexivity.
Defined.

(** C8.  A document made of well-formed blocks, each an index line, a
    timing line, text lines and a blank line, parses to one cue per block,
    in the order of the blocks, with the times of the timing line and the
    trimmed text lines joined with a carriage return as text; the index
    line is in no text.  The last block gives its cue also when its blank
    line is missing, with or without a final line ending.  This holds
    with each of the three line endings. *)
Theorem parse_blocks e bs :
  forallb well_formed bs = true ->
  parseSRT (unlines e (flat_map block_lines bs)) = Normal (map block_cue bs)
  /\ forall b,
       well_formed b = true ->
       parseSRT (unlines e (flat_map block_lines bs ++ block_open_lines b))
       = Normal (map block_cue (bs ++ [b]))
       /\ parseSRT (join (ending_string e)
                         (flat_map block_lines bs ++ block_open_lines b))
          = Normal (map block_cue (bs ++ [b])).
Proof.
  intros H. split; [| intros b Hb; split].
  - unfold parseSRT.
    rewrite (lines_of_unlines e _ (blocks_unbroken bs H)).
    rewrite scan_app, (scan_blocks bs [] H). cbn [bind scan app].
    rewrite step_blank by reflexivity. reflexivity.
  - unfold parseSRT. rewrite lines_of_unlines.
    + rewrite !scan_app, (scan_blocks bs [] H). cbn [bind app].
      rewrite (scan_block_open b Hb). cbn [bind scan].
      rewrite step_blank by reflexivity. cbn [bind currentSub subtitles finish].
      now rewrite map_app.
    + rewrite forallb_app, (blocks_unbroken bs H).
      now apply block_open_lines_unbroken.
  - unfold parseSRT. rewrite lines_of_join.
    + rewrite scan_app, (scan_blocks bs [] H). cbn [bind app].
      rewrite (scan_block_open b Hb). cbn [bind currentSub subtitles finish].
      now rewrite map_app.
    + rewrite forallb_app, (blocks_unbroken bs H).
      now apply block_open_lines_unbroken.
    + unfold block_open_lines. now destruct (flat_map block_lines bs).
Qed.

Lemma parse_blocks_witness :
  parseSRT (unlines ending_CRLF (flat_map block_lines [block_one; block_two]))
  = Normal [block_cue block_one; block_cue block_two]
  /\ parseSRT (join LF (flat_map block_lines [block_one]
                        ++ block_open_lines block_two))
     = Normal [block_cue block_one; block_cue block_two].
Proof.
  split.
  - apply (proj1 (parse_blocks ending_CRLF [block_one; block_two] eq_refl)).
  - apply (proj2 (parse_blocks ending_LF [block_one] eq_refl) block_two eq_refl).
Defined.

(** C9.  A line made of digits only is appended to the text of the cue in
    progress when there is one, and is dropped as an index line otherwise. *)
Theorem digits_line_is_text line st :
  all_digits line = true ->
  (forall c,
      currentSub st = Some c ->
      step line st = Normal (mkState (subtitles st) (Some (append_line c line))))
  /\ (currentSub st = None -> step line st = Normal st).
Proof.
  intros H.
  assert (D : string_forallb is_digit line = true)
    by (unfold all_digits in H; now apply andb_true_iff in H).
  assert (E : trim line = line) by (apply trim_nonspace; now apply digits_nonspace).
  split.
  - intros c C. rewrite <- E at 2. apply step_text; rewrite ?E; auto.
    + now apply all_digits_not_empty.
    + now apply all_digits_not_timing.
  - intros C. apply step_index; rewrite ?E; auto.
Qed.

Lemma digits_line_is_text_witness :
  step "123" (mkState [] (Some (mkCue Num.zero (Num.of_Z 1) "one")))
  = Normal (mkState [] (Some (mkCue Num.zero (Num.of_Z 1)
                                    ("one" ++ CR ++ "123")))).
Proof.
  exact (proj1 (digits_line_is_text "123"
                  (mkState [] (Some (mkCue Num.zero (Num.of_Z 1) "one")))
                  eq_refl)
               (mkCue Num.zero (Num.of_Z 1) "one") eq_refl).
Defined.

(** C10.  A line is classified by what is left of it once leading and
    trailing white space is removed; a line of white space only is a blank
    line, which ends the cue in progress; and the text lines that follow a
    timing line give the cue, as text, their trimmed forms joined with a
    carriage return, nothing before the first. *)
Theorem lines_trimmed_and_joined :
  (forall raw st, step raw st = step (trim raw) st)
  /\ (forall raw st,
         string_forallb is_space raw = true ->
         step raw st
         = Normal match currentSub st with
                  | Some c => mkState (subtitles st ++ [c])%list None
                  | None => st
                  end)
  /\ (forall ls subs c,
         text c = "" -> forallb is_text_line ls = true ->
         scan ls (mkState subs (Some c))
         = Normal (mkState subs
                     (Some (mkCue (start c) (end_ c)
                                  (join CR (map trim ls)))))).
Proof.
  split; [exact step_trim |]. split.
  - intros raw st H. apply step_blank. now rewrite trim_spaces.
  - intros ls subs c Hc H. rewrite (scan_text_lines _ _ _ H). do 3 f_equal.
    destruct (fold_append_line_times (map trim ls) c) as [Es Ee].
    pose proof (fold_append_line_fresh (map trim ls) c Hc
                  (text_lines_not_empty _ H)) as Et.
    destruct (fold_left append_line (map trim ls) c) as [s e t].
    cbn [start end_ text] in *. now subst.
Qed.

Lemma lines_trimmed_and_joined_witness :
  step "   " (mkState [] (Some (mkCue Num.zero (Num.of_Z 1) "one")))
  = Normal (mkState [mkCue Num.zero (Num.of_Z 1) "one"] None)
  /\ scan ["  la la "; "42"; "end"]
          (mkState [] (Some (mkCue Num.zero (Num.of_Z 1) "")))
     = Normal (mkState []
                 (Some (mkCue Num.zero (Num.of_Z 1)
                              ("la la" ++ CR ++ "42" ++ CR ++ "end")))).
Proof.
  destruct lines_trimmed_and_joined as (_ & Hblank & Htext). split.
  - apply (Hblank "   " (mkState [] (Some (mkCue Num.zero (Num.of_Z 1) "one")))).
    reflexivity.
  - apply (Htext ["  la la "; "42"; "end"] []
                 (mkCue Num.zero (Num.of_Z 1) "")); reflexivity.
Defined.

(** * Further properties of the code *)

(** ** The four ways of an iteration *)

Lemma step_cases raw st :
  (re_search timing_re (trim raw) = true
   /\ exists s e, step raw st = Normal (mkState (subtitles st) (Some (mkCue s e ""))))
  \/ (re_search timing_re (trim raw) = false
      /\ exists c, currentSub st = Some c /\ is_empty (trim raw) = true
                   /\ step raw st = Normal (mkState (subtitles st ++ [c])%list None))
  \/ (re_search timing_re (trim raw) = false
      /\ exists c, currentSub st = Some c /\ is_empty (trim raw) = false
                   /\ step raw st
                      = Normal (mkState (subtitles st)
                                  (Some (append_line c (trim raw)))))
  \/ (re_search timing_re (trim raw) = false
      /\ currentSub st = None /\ step raw st = Normal st).
Proof.
  destruct (re_search timing_re (trim raw)) eqn:T.
  - left. split; [reflexivity |].
    destruct (step_timing raw st T) as (t0 & t1 & rest & _ & E). eauto.
  - right. destruct (currentSub st) as [c |] eqn:C.
    + destruct (is_empty (trim raw)) eqn:B.
      * left. split; [reflexivity |]. exists c.
        rewrite (step_blank raw st B), C. auto.
      * right. left. split; [reflexivity |]. exists c.
        rewrite (step_text raw st c B T C). auto.
    + right. right. rewrite (step_stray raw st T C). auto.
Qed.

(** ** Cues and timing lines *)

Lemma scan_no_timing lines subs :
  timing_lines lines = [] ->
  scan lines (mkState subs None) = Normal (mkState subs None).
Proof.
  induction lines as [| l lines IH]; intros H; [reflexivity |].
  unfold timing_lines in H. cbn [filter] in H.
  destruct (re_search timing_re (trim l)) eqn:T; [discriminate |].
  cbn [scan]. rewrite (step_stray l (mkState subs None) T eq_refl).
  cbn [bind]. now apply IH.
Qed.

Lemma step_held raw st st' :
  step raw st = Normal st' ->
  (held st' <= held st + List.length (timing_lines [raw]))%nat
  /\ (0 < held st -> 0 < held st')%nat
  /\ (re_search timing_re (trim raw) = true -> 0 < held st')%nat.
Proof.
  intros E. unfold timing_lines, held. cbn [filter].
  destruct (step_cases raw st)
    as [[T (s & e & E')] | [[T (c & C & B & E')] | [[T (c & C & B & E')]
       | [T [C E']]]]];
    rewrite E' in E; injection E as <-; rewrite T; cbn [subtitles currentSub];
    rewrite ?C; rewrite ?length_app; cbn [List.length];
    repeat split; try discriminate; try lia.
Qed.

Lemma scan_held lines st st' :
  scan lines st = Normal st' ->
  (held st' <= held st + List.length (timing_lines lines))%nat
  /\ (0 < held st -> 0 < held st')%nat
  /\ (timing_lines lines <> [] -> 0 < held st')%nat.
Proof.
  revert st. induction lines as [| l lines IH]; intros st E.
  - cbn in E. injection E as <-. cbn. repeat split; try lia. congruence.
  - cbn [scan] in E. destruct (step l st) as [st1 | x] eqn:E1; [| discriminate].
    cbn [bind] in E. destruct (IH _ E) as (B1 & B2 & B3).
    destruct (step_held _ _ _ E1) as (A1 & A2 & A3).
    unfold timing_lines in *. cbn [filter] in *.
    destruct (re_search timing_re (trim l)) eqn:T; cbn [List.length] in *.
    + repeat split; try lia; intros _; apply B2; now apply A3.
    + repeat split; try lia; intros H; now apply B3.
Qed.

Lemma finish_length st : List.length (finish st) = held st.
Proof.
  unfold finish, held. destruct (currentSub st); rewrite ?length_app; cbn; lia.
Qed.

(** X1.  The parse returns no cue exactly when no line of the input is a
    timing line, and it never returns more cues than there are timing
    lines: a cue comes from a timing line, and a timing line met while a
    cue is in progress replaces that cue. *)
Theorem cues_bounded_by_timing_lines rawData cues :
  parseSRT rawData = Normal cues ->
  (cues = [] <-> timing_lines (lines_of rawData) = [])
  /\ (List.length cues <= List.length (timing_lines (lines_of rawData)))%nat.
Proof.
  unfold parseSRT. intros E.
  destruct (scan (lines_of rawData) (mkState [] None)) as [st | x] eqn:Es;
    [| discriminate].
  cbn [bind] in E. injection E as <-.
  destruct (scan_held _ _ _ Es) as (B1 & _ & B3). cbn in B1.
  rewrite <- finish_length in B1, B3. split; [split |]; [| | exact B1].
  - intros H. destruct (timing_lines (lines_of rawData)) eqn:T; [reflexivity |].
    rewrite H in B3. cbn in B3. assert (0 < 0)%nat by (apply B3; discriminate). lia.
  - intros H. rewrite H in B1. cbn in B1. destruct (finish st); [reflexivity |].
    cbn in B1. lia.
Qed.

Lemma cues_bounded_by_timing_lines_witness :
  (List.length [mkCue (Num.of_Z 3) (Num.of_Z 4) "kept"]
   <= List.length (timing_lines (lines_of doc_two_timing_lines)))%nat.
Proof.
  apply (cues_bounded_by_timing_lines doc_two_timing_lines).
  vm_compute. reflexivity.
Defined.

(** ** Lengths *)

Lemma string_length_app a b :
  String.length (a ++ b) = (String.length a + String.length b)%nat.
Proof. induction a as [| x a IH]; cbn; [reflexivity | now rewrite IH]. Qed.

Lemma match_prefix_length p s :
  match_prefix p s = true -> (List.length p <= String.length s)%nat.
Proof.
  revert s. induction p as [| k p IH]; intros s H; [cbn; lia |].
  destruct s as [| c s]; [discriminate |].
  cbn [match_prefix] in H. apply andb_true_iff in H as [_ H].
  specialize (IH _ H). cbn. lia.
Qed.

Lemma re_search_length p s :
  re_search p s = true -> (List.length p <= String.length s)%nat.
Proof.
  intros H. apply re_search_position in H as (a & b & -> & H).
  apply match_prefix_length in H. rewrite string_length_app. lia.
Qed.

Lemma trim_left_length s : (String.length (trim_left s) <= String.length s)%nat.
Proof.
  induction s as [| c s IH]; cbn [trim_left]; [lia |].
  destruct (is_space c); cbn [String.length]; lia.
Qed.

Lemma trim_right_length s : (String.length (trim_right s) <= String.length s)%nat.
Proof.
  induction s as [| c s IH]; cbn [trim_right]; [lia |].
  destruct (is_space c && is_empty (trim_right s)); cbn [String.length]; lia.
Qed.

Lemma trim_length s : (String.length (trim s) <= String.length s)%nat.
Proof.
  unfold trim. pose proof (trim_right_length (trim_left s)).
  pose proof (trim_left_length s). lia.
Qed.

Lemma replace_crlf_length s :
  (String.length (replace_crlf s) <= String.length s)%nat.
Proof.
  induction s as [| c s IH]; cbn [replace_crlf]; [lia |].
  destruct (Ascii.eqb c "013" && starts_with (String "010" "") s);
    cbn [String.length]; lia.
Qed.

Lemma replace_cr_length s : String.length (replace_cr s) = String.length s.
Proof. induction s as [| c s IH]; cbn; [reflexivity | now rewrite IH]. Qed.

Lemma split_from_length sep k cur s :
  Forall (fun piece =>
            (String.length piece <= String.length cur + String.length s)%nat)
         (split_from sep k cur s).
Proof.
  revert k cur. induction s as [| c s IH]; intros k cur; cbn [split_from].
  - constructor; [cbn; lia | constructor].
  - assert (W : forall k' cur',
               (String.length cur' <= String.length cur + 1)%nat ->
               Forall (fun piece =>
                         (String.length piece
                          <= String.length cur + String.length (String c s))%nat)
                      (split_from sep k' cur' s)).
    { intros k' cur' L. eapply Forall_impl; [| apply IH].
      cbn [String.length]. intros piece. cbn beta. lia. }
    destruct k as [| k]; [| apply W; lia].
    destruct (starts_with sep (String c s)).
    + constructor; [cbn; lia | apply W; cbn; lia].
    + apply W. rewrite string_length_app. cbn. lia.
Qed.

Lemma lines_of_length rawData :
  Forall (fun l => (String.length l <= String.length rawData)%nat)
         (lines_of rawData).
Proof.
  unfold lines_of, split. eapply Forall_impl; [| apply split_from_length].
  intros l. cbn beta. rewrite replace_cr_length.
  pose proof (replace_crlf_length rawData). cbn [String.length]. lia.
Qed.

Lemma filter_none {A} (f : A -> bool) l :
  Forall (fun x => f x = false) l -> filter f l = [].
Proof.
  induction 1 as [| x l Hx _ IH]; [reflexivity |]. cbn. now rewrite Hx.
Qed.

Lemma short_input_no_timing_line rawData :
  (String.length rawData < 29)%nat -> timing_lines (lines_of rawData) = [].
Proof.
  intros L. unfold timing_lines. apply filter_none.
  eapply Forall_impl; [| apply lines_of_length].
  intros l Hl. cbn beta in *.
  destruct (re_search timing_re (trim l)) eqn:T; [| reflexivity].
  apply re_search_length in T. pose proof (trim_length l).
  change (List.length timing_re) with 29%nat in T. lia.
Qed.

Lemma parseSRT_no_timing_line rawData :
  timing_lines (lines_of rawData) = [] -> parseSRT rawData = Normal [].
Proof.
  intros H. unfold parseSRT. now rewrite (scan_no_timing _ [] H).
Qed.

(** X2.  An input shorter than 29 characters, the length of the shortest
    timing line, has no cue.  So the inputs that the handler turns down as
    too short (fewer than 10 characters) never hold a cue. *)
Theorem short_input_has_no_cue rawData :
  (String.length rawData < 29)%nat -> parseSRT rawData = Normal [].
Proof.
  intros L. now apply parseSRT_no_timing_line, short_input_no_timing_line.
Qed.

Lemma short_input_has_no_cue_witness :
  parseSRT "00:00:01,000 --> 00:00:02,00" = Normal [].
Proof.
  apply (short_input_has_no_cue "00:00:01,000 --> 00:00:02,00"). vm_compute. lia.
Defined.

(** ** What the lines and the texts are made of *)

Lemma avoids_trim_left a s : avoids a s = true -> avoids a (trim_left s) = true.
Proof.
  induction s as [| c s IH]; intros H; [reflexivity |].
  cbn [trim_left]. destruct (is_space c); [| exact H].
  cbn [avoids string_forallb] in H. apply andb_true_iff in H as [_ H].
  now apply IH.
Qed.

Lemma avoids_trim_right a s : avoids a s = true -> avoids a (trim_right s) = true.
Proof.
  induction s as [| c s IH]; intros H; [reflexivity |].
  cbn [avoids string_forallb] in H. apply andb_true_iff in H as [Hc H].
  cbn [trim_right]. destruct (is_space c && is_empty (trim_right s));
    [reflexivity |].
  cbn [avoids string_forallb]. rewrite Hc. now apply IH.
Qed.

Lemma avoids_trim a s : avoids a s = true -> avoids a (trim s) = true.
Proof. intros H. now apply avoids_trim_right, avoids_trim_left. Qed.

(** The pieces of a split on one character do not hold that character. *)
Lemma split_from_char_avoids a k cur s :
  avoids a cur = true ->
  Forall (fun piece => avoids a piece = true)
         (split_from (String a "") k cur s).
Proof.
  revert k cur. induction s as [| c s IH]; intros k cur H; cbn [split_from].
  - now repeat constructor.
  - destruct k as [| k]; [| now apply IH].
    cbn [starts_with]. rewrite andb_true_r.
    destruct (Ascii.eqb a c) eqn:E.
    + constructor; [exact H | now apply IH].
    + apply IH. rewrite avoids_app, H. cbn [avoids string_forallb].
      now rewrite Ascii.eqb_sym, E.
Qed.

Lemma lines_of_no_line_feed rawData :
  Forall (fun l => avoids "010" l = true) (lines_of rawData).
Proof. unfold lines_of, split. now apply split_from_char_avoids. Qed.

Lemma trim_right_trim raw : trim_right (trim raw) = trim raw.
Proof. unfold trim. apply trim_right_idem. Qed.

Lemma tidy_empty : tidy "".
Proof. now split. Qed.

Lemma tidy_append_line c raw :
  avoids "010" raw = true -> is_empty (trim raw) = false ->
  tidy (text c) -> tidy (text (append_line c (trim raw))).
Proof.
  intros Hlf Hne [Ht Ha]. cbn [append_line text].
  pose proof (avoids_trim "010" raw Hlf) as Hl.
  pose proof (trim_right_trim raw) as Rl. pose proof (trim_idem raw) as Il.
  set (l := trim raw) in *. clearbody l.
  destruct (text c) as [| c0 r] eqn:E.
  - cbn [is_empty append]. now split.
  - cbn [is_empty]. split.
    + assert (Hc0 : is_space c0 = false).
      { pose proof (trim_right_no_leading_space (String c0 r)) as H.
        fold (trim (String c0 r)) in H. now rewrite Ht in H. }
      unfold trim. cbn [append]. rewrite (trim_left_nonspace c0 _ Hc0).
      change (String c0 (r ++ String "013" l))
        with (String c0 r ++ String "013" l).
      assert (R : trim_right (String "013" l) = String "013" l).
      { cbn [trim_right]. rewrite Rl, Hne, andb_false_r. reflexivity. }
      rewrite trim_right_app; rewrite R; reflexivity.
    + rewrite !avoids_app, Ha, Hl. reflexivity.
Qed.

Section LineInvariant.

Variable ok : string -> Prop.
Variable P : Cue -> Prop.
Hypothesis P_new : forall s e, P (mkCue s e "").
Hypothesis P_text :
  forall c raw, ok raw -> is_empty (trim raw) = false -> P c ->
                P (append_line c (trim raw)).

Lemma scan_line_invariant lines st st' :
  Forall ok lines -> state_all P st -> scan lines st = Normal st' ->
  state_all P st'.
Proof.
  intros Hok. revert st. induction Hok as [| l lines Hl _ IH]; intros st Hst E.
  - cbn in E. now injection E as <-.
  - cbn [scan] in E. destruct (step l st) as [st1 | x] eqn:E1; [| discriminate].
    cbn [bind] in E. apply (IH st1); [| exact E]. clear E IH.
    destruct Hst as [Hs Hc].
    destruct (step_cases l st)
      as [[T (s & e & E')] | [[T (c & C & B & E')] | [[T (c & C & B & E')]
         | [T [C E']]]]];
      rewrite E' in E1; injection E1 as <-.
    + split; [exact Hs | apply P_new].
    + rewrite C in Hc. split; [| exact I]. cbn [subtitles].
      apply Forall_app. split; [exact Hs | now constructor].
    + rewrite C in Hc. split; [exact Hs |]. cbn [currentSub]. now apply P_text.
    + now split.
Qed.

Lemma parseSRT_line_invariant rawData cues :
  Forall ok (lines_of rawData) ->
  parseSRT rawData = Normal cues -> Forall P cues.
Proof.
  intros Hok E. unfold parseSRT in E.
  destruct (scan (lines_of rawData) (mkState [] None)) as [st | x] eqn:Es;
    [| discriminate].
  cbn [bind] in E. injection E as <-.
  assert (H : state_all P st).
  { apply (scan_line_invariant _ _ _ Hok) in Es; [exact Es |].
    split; [constructor | exact I]. }
  destruct H as [Hs Hc]. unfold finish.
  destruct (currentSub st) as [c |]; [| exact Hs].
  apply Forall_app. split; [exact Hs | now constructor].
Qed.

End LineInvariant.

(** X3.  The text of every cue that the parse returns has no white space
    at its beginning or at its end and holds no line feed: its lines are
    trimmed and a carriage return is all that separates them. *)
Theorem cue_texts_are_tidy rawData cues :
  parseSRT rawData = Normal cues -> Forall (fun c => tidy (text c)) cues.
Proof.
  apply (parseSRT_line_invariant (fun l => avoids "010" l = true)).
  - intros s e. apply tidy_empty.
  - intros c raw Hraw Hne Hc. now apply tidy_append_line.
  - apply lines_of_no_line_feed.
Qed.

Lemma cue_texts_are_tidy_witness :
  Forall (fun c => tidy (text c))
         [mkCue (Num.of_Z 5) (Num.of_Z 1) "x"].
Proof.
  apply (cue_texts_are_tidy doc_reversed). vm_compute. reflexivity.
Defined.

(** ** Documents put together *)

Lemma split_from_char_app a cur s t :
  split_from (String a "") 0 cur (s ++ String a t)
  = (split_from (String a "") 0 cur s ++ split (String a "") t)%list.
Proof.
  revert cur. induction s as [| c s IH]; intros cur.
  - cbn [append split_from starts_with]. rewrite Ascii.eqb_refl. reflexivity.
  - cbn [append split_from starts_with]. rewrite !andb_true_r.
    destruct (Ascii.eqb a c); cbn [String.length Nat.pred]; now rewrite IH.
Qed.

Lemma replace_cr_append s t : replace_cr (s ++ t) = replace_cr s ++ replace_cr t.
Proof.
  induction s as [| c s IH]; [reflexivity |]. cbn [append replace_cr].
  now rewrite IH.
Qed.

(** A character other than a carriage return ends what [replace_crlf]
    looks at. *)
Lemma replace_crlf_cut x c r :
  Ascii.eqb c "013" = false ->
  replace_crlf (x ++ String c r) = replace_crlf (x ++ String c "") ++ replace_crlf r.
Proof.
  intros Hc. induction x as [| y x IH].
  - cbn [append replace_crlf]. rewrite Hc. reflexivity.
  - cbn [append replace_crlf].
    assert (E : starts_with (String "010" "") (x ++ String c r)
                = starts_with (String "010" "") (x ++ String c "")).
    { destruct x; reflexivity. }
    rewrite E. destruct (Ascii.eqb y "013" && _); rewrite IH; reflexivity.
Qed.

Lemma replace_crlf_after_CR x : replace_crlf (x ++ CR) = replace_crlf x ++ CR.
Proof.
  induction x as [| y x IH]; [reflexivity |].
  cbn [append replace_crlf].
  assert (E : starts_with (String "010" "") (x ++ CR)
              = starts_with (String "010" "") x).
  { destruct x; reflexivity. }
  rewrite E. destruct (Ascii.eqb y "013" && _); rewrite IH; reflexivity.
Qed.

Lemma replace_crlf_at_CRLF x r :
  replace_crlf (x ++ CR ++ LF ++ r) = replace_crlf x ++ LF ++ replace_crlf r.
Proof.
  induction x as [| y x IH]; [reflexivity |].
  cbn [append replace_crlf].
  assert (E : starts_with (String "010" "") (x ++ CR ++ LF ++ r)
              = starts_with (String "010" "") x).
  { destruct x; reflexivity. }
  rewrite E. destruct (Ascii.eqb y "013" && _); rewrite IH; reflexivity.
Qed.

(** The lines of [a], a line feed and [b]: those of [a], less the empty
    last one when [a] ends with a carriage return, then those of [b]. *)
Lemma lines_of_app a b :
  exists front,
    (lines_of a = front \/ lines_of a = (front ++ [""])%list)
    /\ lines_of (a ++ LF ++ b) = (front ++ lines_of b)%list.
Proof.
  unfold lines_of, split.
  destruct (string_snoc_cases a) as [-> | (x & c & ->)].
  - exists [""]. split; [now left | reflexivity].
  - destruct (Ascii.eqb_spec c "013") as [-> | Hc].
    + exists (split_from (String "010" "") 0 "" (replace_cr (replace_crlf x))).
      split.
      * right. fold CR. rewrite replace_crlf_after_CR, replace_cr_append.
        change (replace_cr CR) with (String "010" "").
        now rewrite split_from_char_app.
      * rewrite append_assoc. fold CR. rewrite replace_crlf_at_CRLF.
        rewrite replace_cr_append. unfold LF at 1. cbn [append replace_cr].
        change (Ascii.eqb "010" "013") with false. cbv iota.
        now rewrite split_from_char_app.
    + apply Ascii.eqb_neq in Hc.
      exists (split_from (String "010" "") 0 ""
                (replace_cr (replace_crlf (x ++ String c "")))).
      split; [now left |].
      rewrite append_assoc. cbn [append]. unfold LF.
      rewrite (replace_crlf_cut x c _ Hc). cbn [append replace_crlf].
      change (Ascii.eqb "010" "013" && _) with false. cbv iota.
      rewrite replace_cr_append. cbn [replace_cr].
      change (Ascii.eqb "010" "013") with false. cbv iota.
      now rewrite split_from_char_app.
Qed.

(** The finished cues are only added to: what is before them plays no
    part. *)
Lemma step_after_cues pre raw st :
  step raw (after_cues pre st)
  = bind (step raw st) (fun st' => Normal (after_cues pre st')).
Proof.
  destruct st as [subs cur]. unfold step, after_cues.
  cbn [subtitles currentSub].
  destruct (all_digits (trim raw) && is_null cur); [reflexivity |].
  destruct (re_search timing_re (trim raw)).
  - destruct (split "-->" (trim raw)) as [| t0 [| t1 rest]]; reflexivity.
  - destruct (is_empty (trim raw)); destruct cur;
      cbn [bind subtitles currentSub]; rewrite <- ?app_assoc; reflexivity.
Qed.

Lemma scan_after_cues pre lines st :
  scan lines (after_cues pre st)
  = bind (scan lines st) (fun st' => Normal (after_cues pre st')).
Proof.
  revert st. induction lines as [| l lines IH]; intros st; [reflexivity |].
  cbn [scan]. rewrite step_after_cues.
  destruct (step l st) as [st1 | x]; cbn [bind]; [apply IH | reflexivity].
Qed.

Lemma finish_after_cues pre st :
  finish (after_cues pre st) = (pre ++ finish st)%list.
Proof.
  unfold finish, after_cues. cbn [subtitles currentSub].
  destruct (currentSub st); now rewrite ?app_assoc.
Qed.

Lemma step_blank_finish st :
  step "" st = Normal (mkState (finish st) None).
Proof.
  rewrite step_blank by reflexivity. unfold finish.
  destruct st as [subs [c |]]; reflexivity.
Qed.

Lemma cues_of_lines_compose l1 l2 c1 c2 :
  cues_of_lines l1 = Normal c1 -> cues_of_lines l2 = Normal c2 ->
  cues_of_lines (l1 ++ "" :: l2) = Normal (c1 ++ c2)%list.
Proof.
  unfold cues_of_lines. intros E1 E2. rewrite scan_app.
  destruct (scan l1 (mkState [] None)) as [st1 | x]; [| discriminate].
  cbn [bind scan] in *. injection E1 as <-. rewrite step_blank_finish.
  cbn [bind].
  replace (mkState (finish st1) None)
    with (after_cues (finish st1) (mkState [] None))
    by (unfold after_cues; cbn; now rewrite app_nil_r).
  rewrite scan_after_cues.
  destruct (scan l2 (mkState [] None)) as [st2 | x]; [| discriminate].
  cbn [bind] in *. injection E2 as <-. now rewrite finish_after_cues.
Qed.

Lemma cues_of_lines_blank_end l : cues_of_lines (l ++ [""]) = cues_of_lines l.
Proof.
  unfold cues_of_lines. rewrite scan_app.
  destruct (scan l (mkState [] None)) as [st | x]; [| reflexivity].
  cbn [bind scan]. rewrite step_blank_finish. reflexivity.
Qed.

Lemma cues_of_lines_front l1 l2 :
  timing_lines l1 = [] -> cues_of_lines (l1 ++ l2) = cues_of_lines l2.
Proof.
  intros H. unfold cues_of_lines. now rewrite scan_app, (scan_no_timing l1 [] H).
Qed.

Lemma lines_of_LF_head b : lines_of (LF ++ b) = "" :: lines_of b.
Proof. reflexivity. Qed.

Lemma parseSRT_lines rawData : parseSRT rawData = cues_of_lines (lines_of rawData).
Proof. reflexivity. Qed.

(** X4.  Two transcripts put one after the other with an empty line
    between them parse to the cues of the first followed by the cues of
    the second, whatever the two transcripts are. *)
Theorem parse_of_two_transcripts d1 d2 c1 c2 :
  parseSRT d1 = Normal c1 -> parseSRT d2 = Normal c2 ->
  parseSRT (d1 ++ LF ++ LF ++ d2) = Normal (c1 ++ c2)%list.
Proof.
  rewrite !parseSRT_lines. intros E1 E2.
  destruct (lines_of_app d1 (LF ++ d2)) as (front & [F | F] & ->).
  - rewrite lines_of_LF_head. rewrite F in E1.
    now apply cues_of_lines_compose.
  - rewrite lines_of_LF_head. rewrite F, cues_of_lines_blank_end in E1.
    now apply cues_of_lines_compose.
Qed.

Lemma parse_of_two_transcripts_witness :
  parseSRT (doc_first ++ LF ++ LF ++ doc_second)
  = Normal ([mkCue (Num.of_Z 1) (Num.of_Z 2) "one"]
            ++ [mkCue (Num.of_Z 3) (Num.of_Z 4) "two"])%list.
Proof.
  apply (parse_of_two_transcripts doc_first doc_second); vm_compute; reflexivity.
Defined.

(** X5.  A line feed added at the end of a transcript changes nothing to
    the cues. *)
Theorem final_line_feed_is_harmless rawData :
  parseSRT (rawData ++ LF) = parseSRT rawData.
Proof.
  rewrite !parseSRT_lines.
  destruct (lines_of_app rawData "") as (front & [F | F] & E).
  - change (rawData ++ LF ++ "") with (rawData ++ LF) in E.
    rewrite E, F. apply cues_of_lines_blank_end.
  - change (rawData ++ LF ++ "") with (rawData ++ LF) in E.
    now rewrite E, F.
Qed.

Lemma timing_lines_app l1 l2 :
  timing_lines (l1 ++ l2) = (timing_lines l1 ++ timing_lines l2)%list.
Proof. apply filter_app. Qed.

(** X6.  What comes before the first timing line is dropped: lines with
    no timing line among them, put before a transcript, change nothing to
    its cues. *)
Theorem text_before_first_timing_line_is_dropped front rawData :
  timing_lines (lines_of front) = [] ->
  parseSRT (front ++ LF ++ rawData) = parseSRT rawData.
Proof.
  intros H. rewrite !parseSRT_lines.
  destruct (lines_of_app front rawData) as (ls & [F | F] & ->);
    rewrite F in H; apply cues_of_lines_front; [exact H |].
  rewrite timing_lines_app in H. now apply app_eq_nil in H.
Qed.

Lemma text_before_first_timing_line_is_dropped_witness :
  parseSRT (("WEBVTT" ++ LF ++ "a title") ++ LF ++ doc_second)
  = parseSRT doc_second.
Proof.
  apply (text_before_first_timing_line_is_dropped
           ("WEBVTT" ++ LF ++ "a title") doc_second).
  vm_compute. reflexivity.
Defined.

(** X7.  The three line endings are read alike: the same lines, ended by
    line feeds, by carriage returns or by both, give the same cues. *)
Theorem line_endings_read_alike e1 e2 ls :
  forallb no_line_break ls = true ->
  lines_of (unlines e1 ls) = (ls ++ [""])%list
  /\ parseSRT (unlines e1 ls) = parseSRT (unlines e2 ls).
Proof.
  intros H. split; [now apply lines_of_unlines |].
  now rewrite !parseSRT_lines, !lines_of_unlines.
Qed.

Lemma line_endings_read_alike_witness :
  parseSRT (unlines ending_CR ["7"; "00:00:03,000 --> 00:00:04,000"; "two"])
  = parseSRT (unlines ending_CRLF ["7"; "00:00:03,000 --> 00:00:04,000"; "two"]).
Proof.
  apply (line_endings_read_alike ending_CR ending_CRLF
           ["7"; "00:00:03,000 --> 00:00:04,000"; "two"]).
  reflexivity.
Defined.

(** ** A block that lacks its blank line *)

Lemma scan_block_body b st :
  well_formed b = true ->
  scan (timing_line b :: text_lines b) st
  = Normal (mkState (subtitles st) (Some (block_cue b))).
Proof.
  intros wf. destruct (wf_parts b wf) as (Hi & Hs & He & _ & Ht & _).
  cbn [scan].
  rewrite (step_arrow_line (start_code b) (end_code b) " " " " Hs He
             eq_refl eq_refl)
    by (apply arrow_line_trimmed; auto).
  cbn [bind]. rewrite (scan_text_lines _ _ _ Ht). do 3 f_equal.
  set (c0 := mkCue (timecode_seconds (start_code b))
                   (timecode_seconds (end_code b)) "").
  destruct (fold_append_line_times (map trim (text_lines b)) c0) as [Es Ee].
  pose proof (fold_append_line_fresh (map trim (text_lines b)) c0 eq_refl
                (text_lines_not_empty _ Ht)) as Et.
  destruct (fold_left append_line (map trim (text_lines b)) c0) as [s e t].
  cbn [start end_ text] in *. subst. reflexivity.
Qed.

(** A block after a cue left in progress: the index line goes to the text
    of that cue, and the timing line then replaces the cue. *)
Lemma scan_block_after_open b subs c :
  well_formed b = true ->
  scan (block_lines b) (mkState subs (Some c))
  = Normal (mkState (subs ++ [block_cue b])%list None).
Proof.
  intros wf. destruct (wf_parts b wf) as (Hi & _).
  assert (E : trim (index_line b) = index_line b)
    by (apply trim_nonspace, digits_nonspace, index_line_digits; exact wf).
  unfold block_lines, block_open_lines.
  change ((index_line b :: timing_line b :: text_lines b) ++ [""])%list
    with (index_line b :: (timing_line b :: text_lines b) ++ [""])%list.
  cbn [scan].
  rewrite (step_text (index_line b) (mkState subs (Some c)) c);
    [| rewrite E; now apply all_digits_not_empty
     | rewrite E; now apply all_digits_not_timing
     | reflexivity].
  cbn [bind subtitles]. rewrite scan_app, (scan_block_body b _ wf).
  cbn [bind scan subtitles]. now rewrite step_blank.
Qed.

(** X8.  A block whose blank line is missing and that another block
    follows is lost: its cue is not returned, and the cues of the other
    blocks are. *)
Theorem unfinished_block_is_dropped e bs b1 b2 rest :
  forallb well_formed bs = true -> well_formed b1 = true ->
  forallb well_formed (b2 :: rest) = true ->
  parseSRT (unlines e (flat_map block_lines bs ++ block_open_lines b1
                       ++ flat_map block_lines (b2 :: rest)))
  = Normal (map block_cue (bs ++ b2 :: rest)).
Proof.
  intros Hbs Hb1 H2. pose proof H2 as H2'. cbn [forallb] in H2'.
  apply andb_true_iff in H2' as [Hb2 Hrest].
  unfold parseSRT. rewrite lines_of_unlines.
  - rewrite !scan_app, (scan_blocks bs [] Hbs). cbn [bind app].
    rewrite scan_app, (scan_block_open b1 Hb1). cbn [bind flat_map].
    rewrite scan_app, (scan_block_after_open b2 _ _ Hb2). cbn [bind].
    rewrite (scan_blocks rest _ Hrest). cbn [bind scan].
    rewrite step_blank by reflexivity. cbn [bind currentSub subtitles finish].
    now rewrite map_app, <- app_assoc.
  - rewrite !forallb_app, (blocks_unbroken bs Hbs),
      (block_open_lines_unbroken b1 Hb1), (blocks_unbroken _ H2).
    reflexivity.
Qed.

Lemma unfinished_block_is_dropped_witness :
  parseSRT (unlines ending_LF (flat_map block_lines []
                               ++ block_open_lines block_one
                               ++ flat_map block_lines [block_two]))
  = Normal [block_cue block_two].
Proof.
  apply (unfinished_block_is_dropped ending_LF [] block_one block_two []);
    reflexivity.
Defined.

(** ** More on parseTime *)

Section MoreFields.

Variables hh mm ss ff : string.
Hypothesis Hhh : string_forallb is_digit hh = true.
Hypothesis Hmm : string_forallb is_digit mm = true.
Hypothesis Hss : string_forallb is_digit ss = true.
Hypothesis Hff : string_forallb is_digit ff = true.
Hypothesis Nhh : is_empty hh = false.
Hypothesis Nmm : is_empty mm = false.
Hypothesis Nss : is_empty ss = false.

Lemma parseTime_whole_seconds :
  parseTime (Some (hh ++ ":" ++ mm ++ ":" ++ ss))
  = Num.add
      (Num.add (Num.mul (Num.of_Z (digits_value 0 hh)) (Num.of_Z 3600))
               (Num.mul (Num.of_Z (digits_value 0 mm)) (Num.of_Z 60)))
      (Num.of_Z (digits_value 0 ss)).
Proof.
  unfold parseTime.
  assert (E : is_empty (hh ++ ":" ++ mm ++ ":" ++ ss) = false)
    by (destruct hh; [discriminate | reflexivity]).
  rewrite E. rewrite replace_first_avoids.
  - rewrite (split_piece ":" "" hh) by now apply digits_avoid.
    rewrite (split_piece ":" "" mm) by now apply digits_avoid.
    rewrite split_last by now apply digits_avoid.
    cbn [element nth]. now rewrite !parseFloat_integer.
  - rewrite !avoids_app. cbn [avoids string_forallb].
    change (Ascii.eqb ":" ",") with false. fold (avoids "," mm) (avoids "," ss).
    rewrite !digits_avoid by auto. reflexivity.
Qed.

Variable sep : ascii.
Hypothesis Hsep : sep = ","%char \/ sep = "."%char.

Lemma extended_token_normalised extra :
  exists extra',
    replace_first "," "."
      ((hh ++ ":" ++ mm ++ ":" ++ ss ++ String sep ff) ++ ":" ++ extra)
    = hh ++ ":" ++ mm ++ ":" ++ (ss ++ String "." ff) ++ ":" ++ extra'.
Proof.
  exists (if Ascii.eqb sep "," then extra else replace_first "," "." extra).
  rewrite !append_assoc.
  rewrite (replace_first_app _ _ hh) by now apply digits_avoid.
  change (":" ++ mm ++ ":" ++ ss ++ String sep ff ++ ":" ++ extra)
    with (String ":" (mm ++ ":" ++ ss ++ String sep ff ++ ":" ++ extra)).
  cbn [replace_first]. change (Ascii.eqb ":" ",") with false. cbv iota.
  rewrite (replace_first_app _ _ mm) by now apply digits_avoid.
  change (":" ++ ss ++ String sep ff ++ ":" ++ extra)
    with (String ":" (ss ++ String sep ff ++ ":" ++ extra)).
  cbn [replace_first]. change (Ascii.eqb ":" ",") with false. cbv iota.
  rewrite (replace_first_app _ _ ss) by now apply digits_avoid.
  cbn [append replace_first].
  destruct Hsep as [-> | ->].
  - reflexivity.
  - change (Ascii.eqb "." ",") with false. cbv iota.
    rewrite (replace_first_app _ _ ff) by now apply digits_avoid.
    cbn [replace_first]. change (Ascii.eqb ":" ",") with false. reflexivity.
Qed.

Lemma parseTime_extended extra :
  parseTime (Some ((hh ++ ":" ++ mm ++ ":" ++ ss ++ String sep ff)
                   ++ ":" ++ extra))
  = parseTime (Some (hh ++ ":" ++ mm ++ ":" ++ ss ++ String sep ff)).
Proof.
  rewrite (parseTime_fields hh mm ss ff sep) by assumption.
  unfold parseTime.
  assert (E : is_empty ((hh ++ ":" ++ mm ++ ":" ++ ss ++ String sep ff)
                        ++ ":" ++ extra) = false)
    by (destruct hh; [discriminate | reflexivity]).
  rewrite E. destruct (extended_token_normalised extra) as [extra' ->].
  rewrite (split_piece ":" "" hh) by now apply digits_avoid.
  rewrite (split_piece ":" "" mm) by now apply digits_avoid.
  rewrite (split_piece ":" "" (ss ++ String "." ff)).
  - cbn [element nth].
    rewrite (parseFloat_integer hh), (parseFloat_integer mm) by assumption.
    now rewrite (parseFloat_decimal ss ff).
  - rewrite avoids_app. cbn [avoids string_forallb].
    change (Ascii.eqb "." ":") with false. fold (avoids ":" ff).
    rewrite !digits_avoid by auto. reflexivity.
Qed.

End MoreFields.

(** X9.  The fields of a timecode may have any number of digits: for
    non-empty digit strings [H], [M] and [S] and a digit string [f],
    [parseTime] of [H:M:S,f] or [H:M:S.f] is [H*3600 + M*60 + S.f], and
    the comma and the dot give the same number. *)
Theorem timecode_fields_of_any_width hh mm ss ff :
  string_forallb is_digit hh = true -> string_forallb is_digit mm = true ->
  string_forallb is_digit ss = true -> string_forallb is_digit ff = true ->
  is_empty hh = false -> is_empty mm = false -> is_empty ss = false ->
  (forall sep,
      sep = ","%char \/ sep = "."%char ->
      parseTime (Some (hh ++ ":" ++ mm ++ ":" ++ ss ++ String sep ff))
      = Num.add
          (Num.add (Num.mul (Num.of_Z (digits_value 0 hh)) (Num.of_Z 3600))
                   (Num.mul (Num.of_Z (digits_value 0 mm)) (Num.of_Z 60)))
          (Num.of_decimal (digits_value 0 (ss ++ ff))
                          (- Z.of_nat (String.length ff))))
  /\ parseTime (Some (hh ++ ":" ++ mm ++ ":" ++ ss ++ String "," ff))
     = parseTime (Some (hh ++ ":" ++ mm ++ ":" ++ ss ++ String "." ff)).
Proof.
  intros Hh Hm Hs Hf Nh Nm Ns. split.
  - intros sep Hsep. now apply parseTime_fields.
  - now rewrite !(parseTime_fields hh mm ss ff) by auto.
Qed.

Lemma timecode_fields_of_any_width_witness :
  parseTime (Some "1:2:3,5") = parseTime (Some "1:2:3.5").
Proof.
  apply (timecode_fields_of_any_width "1" "2" "3" "5"); reflexivity.
Defined.

(** X10.  The fraction is optional: [parseTime] of [H:M:S], three
    non-empty digit strings, is [H*3600 + M*60 + S], each of the three
    read as an integer. *)
Theorem timecode_without_fraction hh mm ss :
  string_forallb is_digit hh = true -> string_forallb is_digit mm = true ->
  string_forallb is_digit ss = true ->
  is_empty hh = false -> is_empty mm = false -> is_empty ss = false ->
  parseTime (Some (hh ++ ":" ++ mm ++ ":" ++ ss))
  = Num.add
      (Num.add (Num.mul (Num.of_Z (digits_value 0 hh)) (Num.of_Z 3600))
               (Num.mul (Num.of_Z (digits_value 0 mm)) (Num.of_Z 60)))
      (Num.of_Z (digits_value 0 ss)).
Proof. intros. now apply parseTime_whole_seconds. Qed.

Lemma timecode_without_fraction_witness :
  parseTime (Some "01:02:03") = Num.of_Z 3723.
Proof.
  exact (timecode_without_fraction "01" "02" "03"
           eq_refl eq_refl eq_refl eq_refl eq_refl eq_refl).
Defined.

(** X11.  What follows a third colon is not read: a timecode with more
    components than three has the value of its first three. *)
Theorem fourth_component_is_ignored hh mm ss ff sep extra :
  string_forallb is_digit hh = true -> string_forallb is_digit mm = true ->
  string_forallb is_digit ss = true -> string_forallb is_digit ff = true ->
  is_empty hh = false -> is_empty mm = false -> is_empty ss = false ->
  sep = ","%char \/ sep = "."%char ->
  parseTime (Some ((hh ++ ":" ++ mm ++ ":" ++ ss ++ String sep ff)
                   ++ ":" ++ extra))
  = parseTime (Some (hh ++ ":" ++ mm ++ ":" ++ ss ++ String sep ff)).
Proof. intros. now apply parseTime_extended. Qed.

Lemma fourth_component_is_ignored_witness :
  parseTime (Some ("00:00:01.500" ++ ":" ++ "junk,7"))
  = parseTime (Some "00:00:01.500").
Proof.
  apply (fourth_component_is_ignored "00" "00" "01" "500" "." "junk,7");
    auto.
Defined.

(** *** Tokens with too few components *)

Lemma split_char_count a cur s :
  List.length (split_from (String a "") 0 cur s) = S (count_char a s).
Proof.
  revert cur. induction s as [| c s IH]; intros cur; [reflexivity |].
  cbn [split_from starts_with count_char]. rewrite andb_true_r, Ascii.eqb_sym.
  destruct (Ascii.eqb c a); cbn [List.length String.length Nat.pred];
    now rewrite IH.
Qed.

Lemma replace_first_count a b x s :
  Ascii.eqb a x = false -> Ascii.eqb b x = false ->
  count_char x (replace_first a b s) = count_char x s.
Proof.
  intros Ha Hb. induction s as [| c s IH]; [reflexivity |].
  cbn [replace_first]. destruct (Ascii.eqb_spec c a) as [-> | Hc].
  - cbn [count_char]. now rewrite Ha, Hb.
  - cbn [count_char]. now rewrite IH.
Qed.

(** X12.  A non-empty timecode with fewer than two colons, so with fewer
    than three components, is NaN. *)
Theorem timecode_with_few_components_is_nan tok :
  is_empty tok = false -> (count_char ":" tok < 2)%nat ->
  parseTime (Some tok) = Num.NaN.
Proof.
  intros Hne Hc. unfold parseTime. rewrite Hne.
  assert (L : (List.length (split ":" (replace_first "," "." tok)) <= 2)%nat).
  { unfold split. rewrite split_char_count, replace_first_count by reflexivity.
    lia. }
  unfold element at 3. rewrite (nth_overflow _ _ L).
  change (parseFloat "undefined") with Num.NaN. apply add_nan_r.
Qed.

Lemma timecode_with_few_components_is_nan_witness :
  parseTime (Some "02:03,500") = Num.NaN.
Proof.
  apply (timecode_with_few_components_is_nan "02:03,500"); [reflexivity |].
  vm_compute. lia.
Defined.

(** ** More on numbers *)

Lemma le_trans a b c :
  Num.le a b = true -> Num.le b c = true -> Num.le a c = true.
Proof.
  unfold Num.le, SFleb.
  destruct a as [sa | sa | | sa ma ea], b as [sb | sb | | sb mb eb],
           c as [sc | sc | | sc mc ec];
    try destruct sa; try destruct sb; try destruct sc;
    cbn [SFcompare]; try reflexivity; try discriminate;
    change (Pos.compare_cont Eq) with Pos.compare;
    destruct (Z.compare_spec ea eb); destruct (Z.compare_spec eb ec);
    destruct (Z.compare_spec ea ec); try lia; try reflexivity;
    try discriminate; subst;
    destruct (Pos.compare_spec ma mb); destruct (Pos.compare_spec mb mc);
    destruct (Pos.compare_spec ma mc); cbn [CompOpp];
    try lia; try reflexivity; try discriminate.
Qed.

(** ** More on the keyframe loop *)

Lemma expected_events_shift s rest g l :
  flat_map (expected_events (s :: rest) g) (map S l)
  = flat_map (expected_events rest g) l.
Proof.
  induction l as [| i l IH]; [reflexivity |].
  cbn [map flat_map]. now rewrite IH.
Qed.

Lemma build_unfold s rest g :
  build (s :: rest) g
  = ((show_event s
      :: if Num.gt (Num.sub match rest with
                            | n :: _ => start n
                            | [] => sentinel
                            end (end_ s)) g
         then [clear_event s] else [])
     ++ build rest g)%list.
Proof.
  rewrite !build_spec. cbn [List.length seq flat_map].
  rewrite <- seq_shift, expected_events_shift. f_equal.
  unfold expected_events, gap_after, next_start_of. cbn [nth_error].
  destruct rest as [| n rest]; destruct (Num.gt _ g); reflexivity.
Qed.

(** X13.  The loop works cue by cue: the events of a list of cues are the
    show event of the first cue, its clear event when the start of the
    second cue (99999 when there is none) minus its end is greater than
    the minimal gap, and then the events of the other cues. *)
Theorem build_cue_by_cue minGap :
  build [] minGap = []
  /\ forall s rest,
       build (s :: rest) minGap
       = ((show_event s
           :: if Num.gt (Num.sub match rest with
                                 | n :: _ => start n
                                 | [] => sentinel
                                 end (end_ s)) minGap
              then [clear_event s] else [])
          ++ build rest minGap)%list.
Proof. split; [reflexivity | intros; apply build_unfold]. Qed.

(** X14.  The loop sets one or two keys for each cue: its events are,
    cue after cue, the show event of the cue, alone or followed by the
    clear event of the same cue.  So there are at least as many events as
    cues and at most twice as many, and every event is the show event or
    the clear event of a cue. *)
Theorem build_event_count subs minGap :
  (exists segments,
      build subs minGap = List.concat segments
      /\ Forall2 (fun s segment =>
                    segment = [show_event s]
                    \/ segment = [show_event s; clear_event s])
                 subs segments)
  /\ (List.length subs <= List.length (build subs minGap)
      <= 2 * List.length subs)%nat
  /\ forall e,
       In e (build subs minGap) ->
       exists s, In s subs /\ (e = show_event s \/ e = clear_event s).
Proof.
  induction subs as [| s rest [(segments & IHc & IHs) [IHn IHe]]].
  - split; [exists []; split; [reflexivity | constructor] |].
    split; [cbn; lia | intros e []].
  - rewrite build_unfold. split; [| split].
    + exists ((show_event s
               :: if Num.gt (Num.sub match rest with
                                     | n :: _ => start n
                                     | [] => sentinel
                                     end (end_ s)) minGap
                  then [clear_event s] else []) :: segments).
      split; [cbn [List.concat]; now rewrite IHc |].
      constructor; [| exact IHs]. destruct (Num.gt _ minGap); auto.
    + rewrite length_app. cbn [List.length].
      destruct (Num.gt _ minGap); cbn [List.length]; lia.
    + intros e He. apply in_app_or in He as [He | He].
      * exists s. split; [now left |].
        destruct He as [<- | He]; [now left |].
        destruct (Num.gt _ minGap); [| destruct He].
        destruct He as [<- | []]. now right.
      * destruct (IHe e He) as (s' & Hs' & H). exists s'. split; [now right | exact H].
Qed.

Lemma build_event_count_witness :
  exists s, In s cues_gap
            /\ (mkEvent (Num.of_Z 4) "" = show_event s
                \/ mkEvent (Num.of_Z 4) "" = clear_event s).
Proof.
  apply (proj2 (proj2 (build_event_count cues_gap tenth))
           (mkEvent (Num.of_Z 4) "")).
  vm_compute. auto.
Defined.

Lemma build_head s rest g :
  exists tl, build (s :: rest) g = show_event s :: tl.
Proof. rewrite build_unfold. cbn [app]. eauto. Qed.

(** X15.  When every cue ends no earlier than it starts and no later
    than the next cue starts, the keys are set in the order of their
    times. *)
Theorem build_times_ascending subs minGap :
  cues_in_order subs = true -> times_ascending (build subs minGap) = true.
Proof.
  induction subs as [| s rest IH]; intros H; [reflexivity |].
  rewrite build_unfold. destruct rest as [| n rest].
  - cbn [cues_in_order] in H. change (build [] minGap) with (@nil TimelineEvent).
    destruct (Num.gt _ minGap); cbn [app times_ascending show_event clear_event time];
      now rewrite ?H.
  - cbn [cues_in_order] in H. apply andb_true_iff in H as [H Hrest].
    apply andb_true_iff in H as [Hse Hen]. specialize (IH Hrest).
    destruct (build_head n rest minGap) as [tl E]. rewrite E in *.
    destruct (Num.gt _ minGap);
      cbn [app times_ascending show_event clear_event time];
      rewrite ?Hse, ?Hen, ?(le_trans _ _ _ Hse Hen); exact IH.
Qed.

Lemma build_times_ascending_witness :
  times_ascending (build cues_ordered_example tenth) = true.
Proof.
  apply (build_times_ascending cues_ordered_example tenth). reflexivity.
Defined.

(** ** More on the handler *)

Lemma layers_from_work i subs : forallb is_layer_work (layers_from i subs) = true.
Proof.
  revert i. induction subs as [| s rest IH]; intros i; [reflexivity |].
  cbn [layers_from forallb is_layer_work]. apply IH.
Qed.

Lemma layers_from_length i subs :
  List.length (layers_from i subs) = List.length subs.
Proof.
  revert i. induction subs as [| s rest IH]; intros i; [reflexivity |].
  cbn [layers_from List.length]. now rewrite IH.
Qed.

Lemma layers_from_nth k subs i s :
  nth_error subs i = Some s ->
  nth_error (layers_from k subs) i
  = Some (duplicate_layer (k + i + 1) (start s) (end_ s) (text s)).
Proof.
  revert k i. induction subs as [| x rest IH]; intros k i E.
  - destruct i; discriminate.
  - destruct i as [| i]; cbn [nth_error layers_from] in *.
    + injection E as ->. now rewrite Nat.add_0_r.
    + rewrite (IH (S k) i E). do 2 f_equal. lia.
Qed.

Lemma forallb_repeat_true {A} (p : A -> bool) (x : A) n :
  p x = true -> forallb p (repeat x n) = true.
Proof.
  intros H. induction n as [| n IH]; [reflexivity |].
  cbn [repeat forallb]. now rewrite H, IH.
Qed.

Lemma forallb_map_true {A B} (p : B -> bool) (f : A -> B) l :
  (forall a, p (f a) = true) -> forallb p (map f l) = true.
Proof.
  intros H. induction l as [| a l IH]; [reflexivity |].
  cbn [map forallb]. now rewrite H, IH.
Qed.

Lemma guards_pass_true h :
  guards_pass h = true ->
  activeItem_is_comp h = true /\ one_text_layer_selected h = true
  /\ (10 <= String.length (srtInput_text h))%nat.
Proof.
  unfold guards_pass. intros H. apply andb_true_iff in H as [H L].
  apply andb_true_iff in H as [Hc Hs]. apply Nat.leb_le in L. auto.
Qed.

(** X16.  The handler either makes one [alert] call and nothing else,
    when one of its three tests fails, or makes its changes inside one
    undo group: [beginUndoGroup], calls that change layers or keys, the
    hiding of the template and [endUndoGroup]. *)
Theorem handler_outcomes h :
  (guards_pass h = false -> exists m, onClick h = [alert m])
  /\ (guards_pass h = true ->
      exists work,
        onClick h = (beginUndoGroup :: work ++ [hide_template; endUndoGroup])%list
        /\ forallb is_layer_work work = true).
Proof.
  split.
  - unfold guards_pass, onClick. intros H.
    destruct (activeItem_is_comp h); cbn [andb negb] in *;
      [| eexists; reflexivity].
    destruct (one_text_layer_selected h); cbn [andb negb] in *;
      [| eexists; reflexivity].
    apply Nat.leb_gt in H. apply Nat.ltb_lt in H. rewrite H.
    eexists; reflexivity.
  - intros H. destruct (guards_pass_true h H) as (Hc & Hs & Hl).
    destruct (parseSRT_total (srtInput_text h)) as [subs Hp].
    rewrite (onClick_parsed h subs Hc Hs Hl Hp). cbn [app].
    eexists. split; [reflexivity |].
    destruct (modeRadio1_value h); [| apply layers_from_work].
    cbn [forallb is_layer_work]. rewrite forallb_app.
    rewrite forallb_repeat_true by reflexivity.
    now rewrite forallb_map_true.
Qed.

Lemma handler_outcomes_witness :
  (exists m, onClick (mkHost true false "" true Num.zero 0) = [alert m])
  /\ exists work,
       onClick host_no_cues
       = (beginUndoGroup :: work ++ [hide_template; endUndoGroup])%list
       /\ forallb is_layer_work work = true.
Proof.
  split.
  - apply (proj1 (handler_outcomes (mkHost true false "" true Num.zero 0))).
    reflexivity.
  - apply (proj2 (handler_outcomes host_no_cues)). reflexivity.
Defined.

(** X17.  In the mode of separate layers the handler creates one layer
    for each cue, in the order of the cues: the layer of the cue at index
    [i] has the number [i + 1], the start of the cue as in-point, its end
    as out-point and its text. *)
Theorem one_layer_per_cue h subs :
  guards_pass h = true -> modeRadio1_value h = false ->
  parseSRT (srtInput_text h) = Normal subs ->
  exists layers,
    onClick h = (beginUndoGroup :: layers ++ [hide_template; endUndoGroup])%list
    /\ List.length layers = List.length subs
    /\ forall i s,
         nth_error subs i = Some s ->
         nth_error layers i
         = Some (duplicate_layer (i + 1) (start s) (end_ s) (text s)).
Proof.
  intros H M Hp. destruct (guards_pass_true h H) as (Hc & Hs & Hl).
  exists (layers_from 0 subs). split; [| split].
  - rewrite (onClick_parsed h subs Hc Hs Hl Hp), M. reflexivity.
  - apply layers_from_length.
  - intros i s E. now rewrite (layers_from_nth 0 subs i s E).
Qed.

Lemma one_layer_per_cue_witness :
  exists layers,
    onClick (host_two_blocks false)
    = (beginUndoGroup :: layers ++ [hide_template; endUndoGroup])%list
    /\ List.length layers = 2%nat.
Proof.
  destruct (one_layer_per_cue (host_two_blocks false)
              [block_cue block_one; block_cue block_two])
    as (layers & E & L & _); [reflexivity | reflexivity | | ].
  - vm_compute. reflexivity.
  - exists layers. split; [exact E | exact L].
Defined.

Lemma parseSRT_blocks e bs :
  forallb well_formed bs = true ->
  parseSRT (unlines e (flat_map block_lines bs)) = Normal (map block_cue bs).
Proof.
  intros H. unfold parseSRT.
  rewrite (lines_of_unlines e _ (blocks_unbroken bs H)).
  rewrite scan_app, (scan_blocks bs [] H). cbn [bind scan app].
  rewrite step_blank by reflexivity. reflexivity.
Qed.

(** X18.  From a transcript of well-formed blocks to the host: the text
    passes the length test, and the handler sets, in the single-layer
    mode, the keys of [build] for the cues of the blocks after it has
    removed the keys there were, and creates, in the other mode, the
    layers of these cues. *)
Theorem blocks_to_host_calls h e bs :
  activeItem_is_comp h = true -> one_text_layer_selected h = true ->
  (1 <= List.length bs)%nat -> forallb well_formed bs = true ->
  srtInput_text h = unlines e (flat_map block_lines bs) ->
  onClick h
  = ([beginUndoGroup]
     ++ (if modeRadio1_value h
         then duplicate_track
              :: repeat removeKey (numKeys h)
              ++ map (fun ev => setValueAtTime (time ev) (ev_text ev))
                     (build (map block_cue bs) (frameDuration h))
         else layers_from 0 (map block_cue bs))
     ++ [hide_template; endUndoGroup])%list.
Proof.
  intros Hc Hs Hne Hwf Ht.
  assert (Hp : parseSRT (srtInput_text h) = Normal (map block_cue bs))
    by (rewrite Ht; now apply parseSRT_blocks).
  apply onClick_parsed; [assumption | assumption | | exact Hp].
  destruct (Nat.lt_ge_cases (String.length (srtInput_text h)) 29) as [L | L];
    [| lia].
  rewrite (parseSRT_no_timing_line _ (short_input_no_timing_line _ L)) in Hp.
  destruct bs; [cbn in Hne; lia | discriminate Hp].
Qed.

Lemma blocks_to_host_calls_witness :
  onClick (host_two_blocks false)
  = [beginUndoGroup;
     duplicate_layer 1 (timecode_seconds "00:00:01,000")
                     (timecode_seconds "00:00:02,500") ("Hello" ++ CR ++ "123");
     duplicate_layer 2 (timecode_seconds "00:01:00.000")
                     (timecode_seconds "00:01:01.250") "World";
     hide_template; endUndoGroup].
Proof.
  apply (blocks_to_host_calls (host_two_blocks false) ending_CRLF
           [block_one; block_two]); try reflexivity.
  cbn. lia.
Defined.
